(** * Small-herd grazing planner: schedule derivation and route scene

    A shallow embedding of the pure core of [src/App.jsx]: the numeric
    helpers ([toNum], [computeProposedADA]), the date helpers ([toISO],
    [addDaysISO], [overlapsSummerWindow]), the schedule derivation
    ([recompute]) and the scene of [StaticMap]: the features drawn, their
    outlines, the route anchors and segments and the other labels.

    What the model fixes:
    - Numbers are extended rationals: [NaN], the two infinities and the
      finite values; the sign of zero is not tracked.  An arithmetic
      operation computes the exact rational result and hands it to the
      host's rounding function [rnd], a parameter of the model (see [Host],
      [HostLaws] and [HostRounding]); [round64] is the rounding of binary64,
      and the sample host computes with it.
    - Dates are JavaScript time values (milliseconds since the epoch) in a
      host whose local time zone is UTC.
    - date-fns is not part of the repository.  [parseISO] is modelled on
      the strings made of digits and hyphens (those the program itself
      prints) and is a parameter on the others; [format] is modelled for
      the pattern ["yyyy-MM-dd"]; [addDays] and [areIntervalsOverlapping]
      are modelled for both generations of the library, which differ on
      fractional amounts and on invalid intervals.
    - turf and the map projection are parameters (see [Turf]); [turf.bbox]
      and [turf.centerOfMass] may throw.
    - An object used as a dictionary is the finite map of its own
      properties; its prototype is [Object.prototype], whose members a
      lookup finds where the object has no property of that name. *)

From Stdlib Require Import ZArith QArith Qabs Qround Qminmax Qreduction Qcanon Qpower.
From Stdlib Require Import Lia Lqa List String Ascii Bool.
From stdpp Require Import gmap strings.

Local Open Scope string_scope.
Local Open Scope Z_scope.

(** ** JavaScript values *)

Inductive number : Type :=
| NaN
| Inf (negative : bool)
| Fin (q : Q).

(** The values a row field can hold: the primitive values, and an object
    or a function, which has no [valueOf] of its own and is given by the
    text [String] makes of it. *)
Inductive JSVal : Type :=
| JUndefined
| JNull
| JBool (b : bool)
| JNum (n : number)
| JStr (s : string)
| JObject (text : string).

(** Result of a computation that may throw (date-fns raises [RangeError]). *)
Inductive result (A : Type) : Type :=
| Ok (a : A)
| Throw.
Arguments Ok {A} a.
Arguments Throw {A}.

Definition bind {A B : Type} (r : result A) (k : A -> result B) : result B :=
  match r with
  | Ok a => k a
  | Throw => Throw
  end.

Notation "'let!' x ':=' r 'in' k" := (bind r (fun x => k))
  (at level 10, x name, r at level 100, k at level 200).

Definition Qltb (x y : Q) : bool := negb (Qle_bool y x).

Definition num_zero : number := Fin 0.

Definition Number_isFinite (n : number) : bool :=
  match n with
  | Fin _ => true
  | _ => false
  end.

Definition num_ltb (x y : number) : bool :=
  match x, y with
  | NaN, _ | _, NaN => false
  | Inf a, Inf b => a && negb b
  | Inf a, Fin _ => a
  | Fin _, Inf b => negb b
  | Fin p, Fin q => Qltb p q
  end.

(** [Math.max] of two arguments. *)
Definition Math_max (x y : number) : number :=
  match x, y with
  | NaN, _ | _, NaN => NaN
  | _, _ => if num_ltb x y then y else x
  end.

(** [ToIntegerOrInfinity] on a finite value: truncation towards zero. *)
Definition truncQ (q : Q) : Z := Z.quot (Qnum q) (Zpos (Qden q)).

(** The lower-case form of an ASCII letter, and of the ASCII letters of a
    text. *)
Definition asciiLower (c : ascii) : ascii :=
  let n := nat_of_ascii c in
  if (65 <=? n)%nat && (n <=? 90)%nat then ascii_of_nat (n + 32) else c.

Fixpoint lowerString (s : string) : string :=
  match s with
  | EmptyString => EmptyString
  | String c r => String (asciiLower c) (lowerString r)
  end.

(** The names of the members of [Object.prototype]. *)
Definition prototypeMembers : list string :=
  ["constructor"; "__proto__"; "hasOwnProperty"; "isPrototypeOf";
   "propertyIsEnumerable"; "toLocaleString"; "toString"; "valueOf";
   "__defineGetter__"; "__defineSetter__"; "__lookupGetter__"; "__lookupSetter__"].

Definition isPrototypeMember (k : string) : bool :=
  existsb (String.eqb k) prototypeMembers.

(** ** Calendar arithmetic (ECMAScript [Day], [YearFromTime], [MakeDay]) *)

Definition msPerDay : Z := 86400000.
Definition maxTime : Z := 8640000000000000.

(** A [Date] object: [None] is the Invalid Date. *)
Definition Date : Type := option Z.

Definition TimeClip (t : Z) : Date :=
  if Z.abs t <=? maxTime then Some t else None.

Definition isValid (d : Date) : bool :=
  match d with
  | Some _ => true
  | None => false
  end.

Definition Day (t : Z) : Z := t / msPerDay.
Definition TimeWithinDay (t : Z) : Z := t mod msPerDay.

Definition isLeapYearIndex (y : Z) : bool :=
  (y mod 400 =? 0) || ((y mod 4 =? 0) && negb (y mod 100 =? 0)).

Definition DayFromYear (y : Z) : Z :=
  365 * (y - 1970) + (y - 1969) / 4 - (y - 1901) / 100 + (y - 1601) / 400.

(** The year whose days contain day number [n]. *)
Definition YearFromDay (n : Z) : Z :=
  let y0 := 1970 + (400 * n) / 146097 in
  if DayFromYear (y0 + 1) <=? n then y0 + 1
  else if n <? DayFromYear y0 then y0 - 1
  else y0.

Definition leapDays (y : Z) : Z := if isLeapYearIndex y then 1 else 0.

(** First day (0-based, within the year) of month [m] (0-based). *)
Definition monthStart (y m : Z) : Z :=
  match m with
  | 0 => 0
  | 1 => 31
  | 2 => 59 + leapDays y
  | 3 => 90 + leapDays y
  | 4 => 120 + leapDays y
  | 5 => 151 + leapDays y
  | 6 => 181 + leapDays y
  | 7 => 212 + leapDays y
  | 8 => 243 + leapDays y
  | 9 => 273 + leapDays y
  | 10 => 304 + leapDays y
  | 11 => 334 + leapDays y
  | _ => 365 + leapDays y
  end.

Definition MonthFromDayInYear (y d : Z) : Z :=
  if d <? monthStart y 1 then 0
  else if d <? monthStart y 2 then 1
  else if d <? monthStart y 3 then 2
  else if d <? monthStart y 4 then 3
  else if d <? monthStart y 5 then 4
  else if d <? monthStart y 6 then 5
  else if d <? monthStart y 7 then 6
  else if d <? monthStart y 8 then 7
  else if d <? monthStart y 9 then 8
  else if d <? monthStart y 10 then 9
  else if d <? monthStart y 11 then 10
  else 11.

(** [getFullYear], [getMonth] (0-based) and [getDate] of a day number. *)
Definition civil (n : Z) : Z * Z * Z :=
  let y := YearFromDay n in
  let d := n - DayFromYear y in
  let m := MonthFromDayInYear y d in
  (y, m, d - monthStart y m + 1).

(** [MakeDay] for a month index within 0..11. *)
Definition MakeDay (y m dt : Z) : Z := DayFromYear y + monthStart y m + dt - 1.

Definition getFullYear (t : Z) : Z := YearFromDay (Day t).

(** ** Decimal strings *)

Definition digitChar (k : Z) : ascii :=
  match k with
  | 0 => "0" | 1 => "1" | 2 => "2" | 3 => "3" | 4 => "4"
  | 5 => "5" | 6 => "6" | 7 => "7" | 8 => "8" | _ => "9"
  end%char.

Definition digitVal (c : ascii) : option Z :=
  if Ascii.eqb c "0" then Some 0
  else if Ascii.eqb c "1" then Some 1
  else if Ascii.eqb c "2" then Some 2
  else if Ascii.eqb c "3" then Some 3
  else if Ascii.eqb c "4" then Some 4
  else if Ascii.eqb c "5" then Some 5
  else if Ascii.eqb c "6" then Some 6
  else if Ascii.eqb c "7" then Some 7
  else if Ascii.eqb c "8" then Some 8
  else if Ascii.eqb c "9" then Some 9
  else None.

Fixpoint digitsOf (fuel : nat) (n : Z) (acc : string) : string :=
  let acc' := String (digitChar (n mod 10)) acc in
  match fuel with
  | O => acc'
  | S f => if n <? 10 then acc' else digitsOf f (n / 10) acc'
  end.

(** [String(n)] for a non-negative integer. *)
Definition natString (n : Z) : string :=
  digitsOf (Z.to_nat (Z.log2 n)) n "".

(** [String(z)] for an integer, as a template literal prints it. *)
Definition intString (z : Z) : string :=
  if z <? 0 then String "-" (natString (- z)) else natString z.

Fixpoint zeros (k : nat) (s : string) : string :=
  match k with
  | O => s
  | S k' => String "0" (zeros k' s)
  end.

(** [s.padStart(len, "0")]. *)
Definition padStart0 (len : nat) (s : string) : string :=
  zeros (len - String.length s) s.

(** date-fns [addLeadingZeros] on a non-negative integer. *)
Definition addLeadingZeros (n : Z) (targetLength : nat) : string :=
  padStart0 targetLength (natString n).

(** ** The date-only fragment of date-fns [parseISO]

    For a non-empty string made of digits and hyphens only there is no time
    and no time-zone part, and [parseISO] reduces to [parseYear] (with the
    default two additional digits) followed by [parseDate]. *)

Definition isDateChar (c : ascii) : bool :=
  match digitVal c with
  | Some _ => true
  | None => Ascii.eqb c "-"
  end.

Fixpoint allDateChars (s : string) : bool :=
  match s with
  | EmptyString => true
  | String c r => isDateChar c && allDateChars r
  end.

Definition digits2 (a b : ascii) : option Z :=
  match digitVal a, digitVal b with
  | Some x, Some y => Some (10 * x + y)
  | _, _ => None
  end.

Definition digits3 (a b c : ascii) : option Z :=
  match digitVal a, digits2 b c with
  | Some x, Some y => Some (100 * x + y)
  | _, _ => None
  end.

Definition digits4 (a b c d : ascii) : option Z :=
  match digits2 a b, digits2 c d with
  | Some x, Some y => Some (100 * x + y)
  | _, _ => None
  end.

Definition digits6 (a b c d e f : ascii) : option Z :=
  match digits2 a b, digits4 c d e f with
  | Some x, Some y => Some (10000 * x + y)
  | _, _ => None
  end.

(** [parseYear], whose pattern with two additional digits is
    [^(?:(\d{4}|[+-]\d{6})|(\d{2}|[+-]\d{4})$)]: four digits, or a sign and
    six digits, then the rest; or a century (two digits, or a sign and four
    digits) and nothing else. *)
Definition parseYear (s : string) : option (Z * string) :=
  match s with
  | String a (String b EmptyString) =>
      option_map (fun c => (c * 100, EmptyString)) (digits2 a b)
  | String a (String b (String c (String d rest))) =>
      match digits4 a b c d with
      | Some y => Some (y, rest)
      | None =>
          if Ascii.eqb a "-" then
            match rest with
            | String e EmptyString =>
                option_map (fun c => (- c * 100, EmptyString)) (digits4 b c d e)
            | String e (String f (String g rest')) =>
                option_map (fun y => (- y, rest')) (digits6 b c d e f g)
            | _ => None
            end
          else None
      end
  | _ => None
  end.

Definition stripHyphen (s : string) : string :=
  match s with
  | String c r => if Ascii.eqb c "-" then r else s
  | EmptyString => s
  end.

(** The captures of [dateRegex],
    [^-?(?:(\d{3})|(\d{2})(?:-?(\d{2}))?|W(\d{2})(?:-?(\d{1}))?|)$], on a
    text without [W]: (dayOfYear, month (0-based), day), a missing unit
    being 1. *)
Definition parseDateUnits (s : string) : option (Z * Z * Z) :=
  match stripHyphen s with
  | EmptyString => Some (1, 0, 1)
  | String a (String b EmptyString) =>
      option_map (fun m => (1, m - 1, 1)) (digits2 a b)
  | String a (String b (String c EmptyString)) =>
      option_map (fun n => (n, 0, 1)) (digits3 a b c)
  | String a (String b (String c (String d EmptyString))) =>
      match digits2 a b, digits2 c d with
      | Some m, Some dd => Some (1, m - 1, dd)
      | _, _ => None
      end
  | String a (String b (String c (String d (String e EmptyString)))) =>
      if Ascii.eqb c "-" then
        match digits2 a b, digits2 d e with
        | Some m, Some dd => Some (1, m - 1, dd)
        | _, _ => None
        end
      else None
  | _ => None
  end.

Definition daysInMonths (y m : Z) : Z :=
  match m with
  | 1 => if isLeapYearIndex y then 29 else 28
  | 3 | 5 | 8 | 10 => 30
  | _ => 31
  end.

Definition validateDate (y m d : Z) : bool :=
  (0 <=? m) && (m <=? 11) && (1 <=? d) && (d <=? daysInMonths y m).

Definition validateDayOfYearDate (y n : Z) : bool :=
  (1 <=? n) && (n <=? (if isLeapYearIndex y then 366 else 365)).

(** [parseDate] after [parseYear]: the date is
    [setUTCFullYear(year, month, Math.max(dayOfYear, day))] when the units
    pass [validateDate] and [validateDayOfYearDate]. *)
Definition parseDateOnly (s : string) : Date :=
  match parseYear s with
  | None => None
  | Some (y, rest) =>
      match parseDateUnits rest with
      | None => None
      | Some (dayOfYear, m, d) =>
          if validateDate y m d && validateDayOfYearDate y dayOfYear
          then TimeClip (MakeDay y m (Z.max dayOfYear d) * msPerDay)
          else None
      end
  end.

(** The text the pattern ["yyyy-MM-dd"] prints for day number [n].  The [y]
    token prints the era year: 1 for year 0, 2 for year -1 and so on. *)
Definition formatDay (n : Z) : string :=
  let '(y, m, dd) := civil n in
  let year := if 0 <? y then y else 1 - y in
  (addLeadingZeros year 4 ++ "-" ++ addLeadingZeros (m + 1) 2
     ++ "-" ++ addLeadingZeros dd 2)%string.

(** ** The host: what the JavaScript runtime and the libraries decide *)

Class Host : Type := {
  (** rounding of an exact result to a binary64 number *)
  rnd : Q -> number;
  (** [Number(s)] for a string [s] *)
  StringToNumber : string -> number;
  (** [String(n)] for a number [n] *)
  NumberToString : number -> string;
  (** [Math.hypot] *)
  hypot : number -> number -> number;
  (** [s.toLowerCase()] *)
  toLowerCase : string -> string;
  (** [String(Object.prototype[k])] for the name [k] of a member of
      [Object.prototype]: the source text of a built-in function, or the
      text of the prototype itself *)
  memberToString : string -> string;
  (** date-fns [parseISO] on a string that has a character other than a
      digit or a hyphen (time, zone and week forms, and what it rejects) *)
  parseISO_other : string -> Date;
  (** [true] for date-fns 2.x ([addDays] truncates its amount first,
      [areIntervalsOverlapping] throws on an invalid interval), [false] for
      3.x and later *)
  legacyDateFns : bool
}.

Section Program.
Context {H : Host}.

(** *** Number arithmetic *)

Definition num_neg (x : number) : number :=
  match x with
  | NaN => NaN
  | Inf s => Inf (negb s)
  | Fin q => Fin (- q)
  end.

Definition num_add (x y : number) : number :=
  match x, y with
  | NaN, _ | _, NaN => NaN
  | Inf a, Inf b => if Bool.eqb a b then Inf a else NaN
  | Inf a, Fin _ | Fin _, Inf a => Inf a
  | Fin p, Fin q => rnd (p + q)
  end.

Definition num_sub (x y : number) : number := num_add x (num_neg y).

Definition num_mul (x y : number) : number :=
  match x, y with
  | NaN, _ | _, NaN => NaN
  | Inf a, Inf b => Inf (xorb a b)
  | Inf a, Fin q | Fin q, Inf a =>
      if Qeq_bool q 0 then NaN else Inf (xorb a (Qltb q 0))
  | Fin p, Fin q => rnd (p * q)
  end.

Definition num_div (x y : number) : number :=
  match x, y with
  | NaN, _ | _, NaN => NaN
  | Inf _, Inf _ => NaN
  | Inf a, Fin q => Inf (xorb a (Qltb q 0))
  | Fin _, Inf _ => num_zero
  | Fin p, Fin q =>
      if Qeq_bool q 0
      then (if Qeq_bool p 0 then NaN else Inf (Qltb p 0))
      else rnd (p / q)
  end.

(** [Number(v)]. *)
Definition Number (v : JSVal) : number :=
  match v with
  | JUndefined => NaN
  | JNull => num_zero
  | JBool b => if b then Fin 1 else num_zero
  | JNum n => n
  | JStr s => StringToNumber s
  | JObject text => StringToNumber text
  end.

(** [String(v)]. *)
Definition ToString (v : JSVal) : string :=
  match v with
  | JUndefined => "undefined"
  | JNull => "null"
  | JBool b => if b then "true" else "false"
  | JNum n => NumberToString n
  | JStr s => s
  | JObject text => text
  end.

(** [Object.prototype[k]] for the name [k] of a member: a built-in function,
    or the prototype itself. *)
Definition prototypeMember (k : string) : JSVal := JObject (memberToString k).

(** [x || 0] on a number. *)
Definition orZero (x : number) : number :=
  match x with
  | NaN => num_zero
  | _ => x
  end.

(** [+(x.toFixed(2))]: [toFixed] prints the decimal [n / 100] where [n] is
    the integer nearest to [100 * |x|] (the larger one on a tie), with the
    sign of [x]; at [1e21] and above it prints [String(x)].  The unary plus
    reads the decimal back. *)
Definition toFixed2 (x : number) : number :=
  match x with
  | Fin q =>
      if Qle_bool (inject_Z (10 ^ 21)) (Qabs q) then Fin q
      else
        let n := Qfloor (Qabs q * 100 + (1 # 2)) in
        rnd (inject_Z (if Qltb q 0 then - n else n) / 100)
  | _ => x
  end.

(** *** Helpers of [App.jsx] *)

Definition toNum (v : JSVal) : number :=
  match v with
  | JNull | JUndefined | JStr EmptyString => num_zero
  | _ => let n := Number v in if Number_isFinite n then n else num_zero
  end.

(** The literal [0.000001]. *)
Definition areaFloor : number := rnd (1 # 1000000).

Definition computeProposedADA (grazingDays herdSize acreage : JSVal) : number :=
  let g := Math_max num_zero (toNum grazingDays) in
  let h := Math_max num_zero (toNum herdSize) in
  let a := Math_max areaFloor (toNum acreage) in
  toFixed2 (num_div (num_mul g h) a).

(** *** date-fns *)

Definition parseISO (s : string) : Date :=
  match s with
  | EmptyString => None
  | _ =>
      if allDateChars s then parseDateOnly s
      else match parseISO_other s with
           | Some t => TimeClip t
           | None => None
           end
  end.

(** [format(d, "yyyy-MM-dd")]; it throws on the Invalid Date. *)
Definition format (d : Date) : result string :=
  match d with
  | None => Throw
  | Some t => Ok (formatDay (Day t))
  end.

Definition getDate (t : Z) : Z := snd (civil (Day t)).

(** [Date.prototype.setDate]. *)
Definition setDate (t : Z) (dt : number) : Date :=
  match dt with
  | Fin q =>
      let '(y, m, _) := civil (Day t) in
      TimeClip (MakeDay y m (truncQ q) * msPerDay + TimeWithinDay t)
  | _ => None
  end.

(** date-fns 2.x [toInteger]. *)
Definition toInteger (n : number) : number :=
  match n with
  | Fin q => Fin (inject_Z (truncQ q))
  | _ => n
  end.

Definition isZero (n : number) : bool :=
  match n with
  | Fin q => Qeq_bool q 0
  | _ => false
  end.

Definition addDays (d : Date) (amount : number) : Date :=
  let amount := if legacyDateFns then toInteger amount else amount in
  match amount with
  | NaN => None
  | _ =>
      if isZero amount then d
      else match d with
           | None => None
           | Some t => setDate t (num_add (Fin (inject_Z (getDate t))) amount)
           end
  end.

Definition leDate (a b : Date) : bool :=
  match a, b with
  | Some x, Some y => x <=? y
  | _, _ => false
  end.

(** [[a, b].sort((x, y) => x - y)] on two time values: a [NaN] makes the
    comparator return [NaN], which leaves the order as it is. *)
Definition sortInterval (a b : Date) : Date * Date :=
  match a, b with
  | Some x, Some y => (Some (Z.min x y), Some (Z.max x y))
  | _, _ => (a, b)
  end.

(** [areIntervalsOverlapping(left, right, { inclusive: true })]. *)
Definition areIntervalsOverlapping (ls le rs re : Date) : result bool :=
  if legacyDateFns then
    if leDate ls le && leDate rs re
    then Ok (leDate ls re && leDate rs le)
    else Throw
  else
    let '(ls', le') := sortInterval ls le in
    let '(rs', re') := sortInterval rs re in
    Ok (leDate ls' re' && leDate rs' le').

(** *** Date helpers of [App.jsx] *)

Definition toISO (dateStr : string) : result string :=
  match dateStr with
  | EmptyString => Ok EmptyString
  | _ =>
      let d := parseISO dateStr in
      if isValid d then format d else Ok EmptyString
  end.

Definition addDaysISO (iso : string) (days : number) : result string :=
  let d := parseISO iso in
  if isValid d then format (addDays d days) else Ok EmptyString.

(** The [for (let y = sy; y <= ey; y++)] loop, [fuel] iterations left. *)
Fixpoint summerLoop (fuel : nat) (y : Z) (s e : Date) : result bool :=
  match fuel with
  | O => Ok false
  | S fuel' =>
      let summerStart := parseISO (intString y ++ "-07-15") in
      let summerEnd := parseISO (intString y ++ "-09-15") in
      let! hit := areIntervalsOverlapping s e summerStart summerEnd in
      if hit : bool then Ok true else summerLoop fuel' (y + 1) s e
  end.

Definition overlapsSummerWindow (startISO endISO : string) : result bool :=
  match parseISO startISO, parseISO endISO with
  | Some s, Some e =>
      let sy := getFullYear s in
      let ey := getFullYear e in
      summerLoop (Z.to_nat (ey - sy + 1)) sy (Some s) (Some e)
  | _, _ => Ok false
  end.

End Program.

(** ** Rows *)

(** A row of the plan ([newRow]).  The text fields are strings, the numeric
    inputs and the imported metrics are whatever the table or the stored
    plan holds; the three derived fields have the types [recompute] writes. *)
Record Entry : Type := {
  id : string;
  pasture : string;
  acreage : JSVal;
  herdSize : JSVal;
  prevPlannedADA : JSVal;
  prevActualADA : JSVal;
  estNativeADA : JSVal;
  estPerennialADA : JSVal;
  grazingDays : JSVal;
  proposedADA : number;
  startDate : string;
  endDate : string;
  notes : string
}.

(** [r.proposedADA = v]. *)
Definition set_proposedADA (v : number) (r : Entry) : Entry :=
  {| id := id r; pasture := pasture r; acreage := acreage r;
     herdSize := herdSize r; prevPlannedADA := prevPlannedADA r;
     prevActualADA := prevActualADA r; estNativeADA := estNativeADA r;
     estPerennialADA := estPerennialADA r; grazingDays := grazingDays r;
     proposedADA := v; startDate := startDate r; endDate := endDate r;
     notes := notes r |}.

(** [r.startDate = s; r.endDate = e]. *)
Definition set_dates (s e : string) (r : Entry) : Entry :=
  {| id := id r; pasture := pasture r; acreage := acreage r;
     herdSize := herdSize r; prevPlannedADA := prevPlannedADA r;
     prevActualADA := prevActualADA r; estNativeADA := estNativeADA r;
     estPerennialADA := estPerennialADA r; grazingDays := grazingDays r;
     proposedADA := proposedADA r; startDate := s; endDate := e;
     notes := notes r |}.

(** ** Features and the scene *)

Definition Position : Type := number * number.
Definition Point : Type := number * number.

Inductive Geometry : Type :=
| Polygon (coordinates : list (list Position))
| MultiPolygon (coordinates : list (list (list Position)))
| OtherGeometry.

Record Feature : Type := {
  properties : list (string * JSVal);
  geometry : option Geometry
}.

(** A path [d] attribute, command by command. *)
Inductive PathCmd : Type :=
| MoveTo (p : Point)
| LineTo (p : Point)
| ClosePath.

Record Anchor : Type := { anchor_name : string; anchor_xy : Point }.

Record Segment : Type := {
  seg_key : string;
  seg_d : list PathCmd;
  seg_num : Z;
  seg_labelPos : Point
}.

Record Label : Type := { label_text : string; label_xy : Point }.

Record Scene : Type := {
  polyPaths : list (list PathCmd);
  segments : list Segment;
  routeAnchors : list Anchor;
  nonRouteLabels : list Label
}.

(** What a lookup in [featureByPasture] finds under the name of a member of
    [Object.prototype] when no feature is stored under it: a value that has
    neither properties nor a geometry. *)
Definition inheritedMember : Feature := {| properties := []; geometry := None |}.

(** [[minLng, minLat, maxLng, maxLat]]. *)
Definition BBox : Type := number * number * number * number.

(** turf and the projection, which are floating-point geometry. *)
Class Turf : Type := {
  (** [turf.bbox(turf.featureCollection(fs))] for loaded features [fs], or
      the exception turf raises on a feature it cannot handle (one without
      a [geometry] member, or with a geometry of a type it does not know) *)
  bbox : list Feature -> result BBox;
  (** [turf.centerOfMass(f).geometry.coordinates], or the exception turf
      raises on a feature it cannot handle *)
  centerOfMass : Feature -> result Position;
  (** [projectXY], which is fixed by the bounding box of the drawn features *)
  projectXY : list Feature -> Position -> Point
}.

Section Planner.
Context {H : Host} {T : Turf}.

(** *** [recompute] *)

(** The second loop of [recompute], from index [i] on, [out] being the rows
    from [i] and [currentStart] the cursor. *)
Fixpoint schedule (currentStart : string) (out : list Entry) : result (list Entry) :=
  match out with
  | [] => Ok []
  | r :: rest =>
      match currentStart with
      | EmptyString =>
          let! rest' := schedule currentStart rest in
          Ok (set_dates "" "" r :: rest')
      | _ =>
          let days := Math_max num_zero (toNum (grazingDays r)) in
          let! e := (if num_ltb num_zero days
                     then addDaysISO currentStart (num_sub days (Fin 1))
                     else Ok currentStart) in
          let! next := addDaysISO e (Fin 1) in
          let! rest' := schedule next rest in
          Ok (set_dates currentStart e r :: rest')
      end
  end.

(** [r.proposedADA = computeProposedADA(r.grazingDays, r.herdSize, r.acreage)]. *)
Definition withProposedADA (r : Entry) : Entry :=
  set_proposedADA (computeProposedADA (grazingDays r) (herdSize r) (acreage r)) r.

Definition recompute (rows : list Entry) (planStart : string) : result (list Entry) :=
  let out := map withProposedADA rows in
  let! currentStart := toISO planStart in
  schedule currentStart out.

(** *** [StaticMap] *)

(** The lookup [featureByPasture[String(r.pasture || '').toLowerCase()]]
    finds no feature of its own but a member of [Object.prototype]. *)
Definition isInherited (featureByPasture : gmap string Feature) (r : Entry) : bool :=
  match featureByPasture !! toLowerCase (pasture r) with
  | Some _ => false
  | None => isPrototypeMember (toLowerCase (pasture r))
  end.

(** [featureByPasture[String(r.pasture || '').toLowerCase()]], as far as it
    is truthy: the feature stored under the name, or else the member of
    [Object.prototype] of that name. *)
Definition featureOf (featureByPasture : gmap string Feature) (r : Entry) : option Feature :=
  match featureByPasture !! toLowerCase (pasture r) with
  | Some f => Some f
  | None =>
      if isPrototypeMember (toLowerCase (pasture r)) then Some inheritedMember else None
  end.

(** The features to draw. *)
Definition features (rows : list Entry) (featureByPasture : gmap string Feature)
    (allFeatures : list Feature) : list Feature :=
  let picked := omap (featureOf featureByPasture) rows in
  match picked with
  | [] => allFeatures
  | _ => picked
  end.

Definition ringPath (proj : Position -> Point) (ring : list Position) : list PathCmd :=
  match ring with
  | [] => []
  | p :: ps => MoveTo (proj p) :: map (fun q => LineTo (proj q)) ps ++ [ClosePath]
  end.

Definition pathFromPolygonCoords (proj : Position -> Point)
    (rings : list (list Position)) : list PathCmd :=
  flat_map (ringPath proj) rings.

(** The outlines one feature contributes to [polyPaths]. *)
Definition featurePaths (proj : Position -> Point) (f : Feature) : list (list PathCmd) :=
  match geometry f with
  | Some (Polygon rings) => [pathFromPolygonCoords proj rings]
  | Some (MultiPolygon polys) => map (pathFromPolygonCoords proj) polys
  | _ => []
  end.

(** [(Number(r?.grazingDays) || 0) > 0]. *)
Definition isActive (r : Entry) : bool :=
  num_ltb num_zero (orZero (Number (grazingDays r))).

(** The callback of [activeRows.map]: [null] without a feature. *)
Definition anchorOf (proj : Position -> Point)
    (featureByPasture : gmap string Feature) (r : Entry) : result (option Anchor) :=
  match featureOf featureByPasture r with
  | None => Ok None
  | Some f =>
      let! cm := centerOfMass f in
      Ok (Some {| anchor_name := pasture r; anchor_xy := proj cm |})
  end.

(** [l.map(f)] for a callback that may throw. *)
Fixpoint mapResult {A B : Type} (f : A -> result B) (l : list A) : result (list B) :=
  match l with
  | [] => Ok []
  | x :: xs =>
      let! y := f x in
      let! ys := mapResult f xs in
      Ok (y :: ys)
  end.

(** [/^(pasture|name|unit|past|paddock)$/.test(k.toLowerCase())]. *)
Definition isNameKey (k : string) : bool :=
  existsb (String.eqb (toLowerCase k)) ["pasture"; "name"; "unit"; "past"; "paddock"].

(** [/^(pasture|name|unit|past|paddock)$/i.test(k)]: the flag [i] makes an
    ASCII letter of the pattern match both of its cases and nothing else. *)
Definition isLabelKey (k : string) : bool :=
  existsb (String.eqb (lowerString k)) ["pasture"; "name"; "unit"; "past"; "paddock"].

(** The body of the [nonRouteLabels] loop: the label of a feature whose
    name is not on the route; a failure of turf is caught. *)
Definition nonRouteLabel (proj : Position -> Point) (routeNames : list string)
    (f : Feature) : option Label :=
  let label :=
    match find (fun kv => isLabelKey (fst kv)) (properties f) with
    | Some (_, v) => ToString v
    | None => EmptyString
    end in
  match label with
  | EmptyString => None
  | _ =>
      if existsb (String.eqb (toLowerCase label)) routeNames then None
      else match centerOfMass f with
           | Ok cm => Some {| label_text := label; label_xy := proj cm |}
           | Throw => None
           end
  end.

Definition SHIFT_FROM_TEXT : number := Fin 10.

(** [x || 1] on a number. *)
Definition orOne (x : number) : number :=
  match x with
  | NaN => Fin 1
  | Fin q => if Qeq_bool q 0 then Fin 1 else x
  | _ => x
  end.

Definition shiftTowards (p1 p2 : Point) (d : number) : Point :=
  let dx2 := num_sub (fst p2) (fst p1) in
  let dy2 := num_sub (snd p2) (snd p1) in
  let L := orOne (hypot dx2 dy2) in
  (num_add (fst p1) (num_mul (num_div dx2 L) d),
   num_add (snd p1) (num_mul (num_div dy2 L) d)).

Definition LABEL_OFFSET : number := num_zero.

(** The body of the segment loop at index [i], from [a] to [b]. *)
Definition segment (i : Z) (a b : Anchor) : Segment :=
  let s := shiftTowards (anchor_xy a) (anchor_xy b) SHIFT_FROM_TEXT in
  let bx := fst (anchor_xy b) in
  let by' := snd (anchor_xy b) in
  let mx := num_div (num_add (fst s) bx) (Fin 2) in
  let my := num_div (num_add (snd s) by') (Fin 2) in
  let dx3 := num_sub bx (fst s) in
  let dy3 := num_sub by' (snd s) in
  let L := orOne (hypot dx3 dy3) in
  let nx := num_div (num_neg dy3) L in
  let ny := num_div dx3 L in
  {| seg_key := "seg-" ++ intString i;
     seg_d := [MoveTo s; LineTo (anchor_xy b)];
     seg_num := i + 1;
     seg_labelPos := (num_add mx (num_mul nx LABEL_OFFSET),
                      num_add my (num_mul ny LABEL_OFFSET)) |}.

(** The segment loop from index [i], over the anchors from [i] on. *)
Fixpoint segmentsFrom (i : Z) (anchors : list Anchor) : list Segment :=
  match anchors with
  | a :: (b :: _) as rest => segment i a b :: segmentsFrom (i + 1) rest
  | _ => []
  end.

(** The scene [StaticMap] draws, or [None] for the upload placeholder.
    [turf.bbox] reads the [geometry] of each value to draw and throws
    [TypeError] on a member of [Object.prototype], which has none. *)
Definition StaticMap (rows : list Entry) (featureByPasture : gmap string Feature)
    (allFeatures : list Feature) : result (option Scene) :=
  let fs := features rows featureByPasture allFeatures in
  match fs with
  | [] => Ok None
  | _ =>
      let! box := (if existsb (isInherited featureByPasture) rows then Throw
                   else bbox fs) in
      let proj := projectXY fs in
      let activeRows := List.filter isActive rows in
      let! mapped := mapResult (anchorOf proj featureByPasture) activeRows in
      let anchors := omap (fun a => a) mapped in
      let routeNameSet := map (fun a => toLowerCase (anchor_name a)) anchors in
      Ok (Some {| polyPaths := flat_map (featurePaths proj) fs;
                  segments := segmentsFrom 0 anchors;
                  routeAnchors := anchors;
                  nonRouteLabels := omap (nonRouteLabel proj routeNameSet) fs |})
  end.

End Planner.

(** ** Binary64 rounding *)

(** The integer nearest to [x], the even one on a tie. *)
Definition roundHalfEven (x : Q) : Z :=
  let f := Qfloor x in
  match (x - inject_Z f ?= 1 # 2)%Q with
  | Lt => f
  | Gt => f + 1
  | Eq => if Z.even f then f else f + 1
  end.

(** The exponent [e] with [2 ^ e <= a < 2 ^ (e + 1)], for a positive [a]. *)
Definition binade (a : Q) : Z :=
  let e := Z.log2 (Qnum a) - Z.log2 (Zpos (Qden a)) in
  if Qle_bool (2 ^ e) a then e else e - 1.

(** The exponent of the unit in the last place of a positive [a]: 53
    significant bits, and no unit below [2 ^ -1074]. *)
Definition ulpExp (a : Q) : Z := Z.max (binade a - 52) (-1074).

(** The multiple of the unit in the last place nearest to a positive [a]. *)
Definition nearest (a : Q) : Q :=
  (inject_Z (roundHalfEven (a / 2 ^ ulpExp a)) * 2 ^ ulpExp a)%Q.

(** IEEE 754 rounding to nearest, ties to even, in binary64; it gives an
    infinity where the rounded value reaches [2 ^ 1024]. *)
Definition round64 (q : Q) : number :=
  let a := Qabs (Qred q) in
  if Qeq_bool a 0 then Fin 0
  else if Qle_bool (2 ^ 1024) (nearest a) then Inf (Qltb q 0)
       else Fin (Qred (if Qltb q 0 then - nearest a else nearest a)).

(** ** A sample host

    Binary64 arithmetic, only date-only ISO strings, ASCII lower-casing; one
    host per date-fns generation. *)

Definition sampleHost (legacy : bool) : Host :=
  {| rnd := round64;
     StringToNumber := fun _ => NaN;
     NumberToString := fun _ => "0";
     hypot := fun _ _ => NaN;
     toLowerCase := lowerString;
     memberToString := fun k =>
       if String.eqb k "__proto__" then "[object Object]"
       else "function " ++ (if String.eqb k "constructor" then "Object" else k)
            ++ "() { [native code] }";
     parseISO_other := fun _ => None;
     legacyDateFns := legacy |}.

Definition sampleTurf : Turf :=
  {| bbox := fun _ => Ok (num_zero, num_zero, Fin 1, Fin 1);
     centerOfMass := fun f =>
       match geometry f with
       | Some _ => Ok (num_zero, num_zero)
       | None => Throw
       end;
     projectXY := fun _ p => p |}.

(** [newRow({ pasture, acreage, herdSize, grazingDays })], the id given. *)
Definition newRow (i p : string) (a h g : Q) : Entry :=
  {| id := i; pasture := p; acreage := JNum (Fin a); herdSize := JNum (Fin h);
     prevPlannedADA := JNull; prevActualADA := JNull; estNativeADA := JNull;
     estPerennialADA := JNull; grazingDays := JNum (Fin g);
     proposedADA := num_zero; startDate := ""; endDate := ""; notes := "" |}.

(** ** Definitions used to state and prove the properties *)

(** [P] on every integer from [lo], [count] of them. *)
Definition checkRange (P : Z -> bool) (lo count : Z) : bool :=
  forallb (fun i => P (lo + Z.of_nat i)) (seq 0 (Z.to_nat count)).

(** The two digits of [n] below 100, and the four digits of [n] below 10000. *)
Definition twoDigits (n : Z) : string :=
  String (digitChar (n / 10)) (String (digitChar (n mod 10)) "").

Definition fourDigits (n : Z) : string :=
  String (digitChar (n / 1000)) (String (digitChar (n / 100 mod 10))
    (String (digitChar (n / 10 mod 10)) (String (digitChar (n mod 10)) ""))).

(** The canonical text of year [y], month [m] (1-based) and day [d]. *)
Definition isoText (y m d : Z) : string :=
  (fourDigits y ++ "-" ++ twoDigits m ++ "-" ++ twoDigits d)%string.

(** What the properties below assume of the host's rounding: it depends on
    the value only, it is exact on the integers binary64 holds exactly, it
    never makes a NaN and it stays finite well inside the binary64 range.
    IEEE 754 round-to-nearest meets all four. *)
Class HostLaws (H : Host) : Prop := {
  rnd_compat : forall p q : Q, p == q -> rnd p = rnd q;
  rnd_integer : forall z : Z, Z.abs z <= 2 ^ 53 -> rnd (inject_Z z) = Fin (inject_Z z);
  rnd_not_NaN : forall q : Q, rnd q <> NaN;
  rnd_finite : forall q : Q,
    (Qabs q <= inject_Z (2 ^ 1023)%Z)%Q -> Number_isFinite (rnd q) = true
}.

(** Binary64 rounding is near: within the range the rounded value is
    finite and differs from the exact one by at most half a unit in the
    last place. *)
Class HostRounding (H : Host) : Prop := {
  rnd_near : forall q : Q,
    (Qabs q <= 2 ^ 1023)%Q ->
    exists r, rnd q = Fin r /\ (Qabs (r - q) <= Qabs q * 2 ^ (-53) + 2 ^ (-1075))%Q
}.

(** Input that is not a finite number: [null], [undefined], the empty
    string, and whatever [Number] turns into [NaN] or an infinity. *)
Definition isGarbage {H : Host} (v : JSVal) : Prop :=
  v = JNull \/ v = JUndefined \/ v = JStr "" \/ Number_isFinite (Number v) = false.

(** The row's duration is the integer [k]. *)
Definition durationOf {H : Host} (r : Entry) (k : Z) : Prop :=
  exists q : Q, toNum (grazingDays r) = Fin q /\ (q == inject_Z k)%Q.

(** The days a window of duration [k] occupies: a duration of zero (or
    less) still occupies one day. *)
Definition span (k : Z) : Z := Z.max 1 k.

(** The days the windows of [durs] occupy together. *)
Definition totalSpan (durs : list Z) : Z :=
  fold_right (fun k acc => span k + acc) 0 durs.

(** The rows with the windows that start on day [n]. *)
Fixpoint dated (n : Z) (out : list Entry) (durs : list Z) : list Entry :=
  match out, durs with
  | r :: rs, k :: ks =>
      set_dates (formatDay n) (formatDay (n + span k - 1)) r :: dated (n + span k) rs ks
  | _, _ => []
  end.

(** The day number a canonical [yyyy-MM-dd] text denotes. *)
Definition isoDay (s : string) : option Z :=
  match s with
  | String a (String b (String c (String d (String h1 (String e (String f
      (String h2 (String g (String i EmptyString))))))))) =>
      if Ascii.eqb h1 "-" && Ascii.eqb h2 "-" then
        match digits4 a b c d, digits2 e f, digits2 g i with
        | Some y, Some m, Some dd =>
            if validateDate y (m - 1) dd then Some (MakeDay y (m - 1) dd) else None
        | _, _, _ => None
        end
      else None
  | _ => None
  end.

(** The windows of [out] follow each other from day [n]: the first starts
    on day [n], each later one starts the day after the previous one ends,
    and a window of duration [k] ends [k - 1] days after its start when [k]
    is positive and on its start otherwise. *)
Definition sequential (n : Z) (durs : list Z) (out : list Entry) : Prop :=
  (forall r, out !! 0%nat = Some r -> isoDay (startDate r) = Some n)
  /\ (forall i r r', out !! i = Some r -> out !! S i = Some r' ->
        exists e, isoDay (endDate r) = Some e /\ isoDay (startDate r') = Some (e + 1))
  /\ (forall i r k, out !! i = Some r -> durs !! i = Some k ->
        exists s, isoDay (startDate r) = Some s
                  /\ isoDay (endDate r) = Some (if 0 <? k then s + (k - 1) else s)).

(** The first day of window [i] when the first window starts on day [n]. *)
Definition startOf (n : Z) (durs : list Z) (i : nat) : Z := n + totalSpan (take i durs).

(** The fields the derivation reads, writes and leaves alone. *)
Definition inputsOf (r : Entry) : JSVal * JSVal * JSVal :=
  (acreage r, herdSize r, grazingDays r).

(** The window of a row. *)
Definition datesOf (r : Entry) : string * string := (startDate r, endDate r).

Definition derivedOf (r : Entry) : number * string * string :=
  (proposedADA r, startDate r, endDate r).

Definition frameOf (r : Entry) :=
  (id r, pasture r, acreage r, herdSize r, grazingDays r, notes r,
   prevPlannedADA r, prevActualADA r, estNativeADA r, estPerennialADA r).

(** The row without its dates. *)
Definition undated (r : Entry) : Entry := set_dates "" "" r.

(** [f] on the value of a result, a throw staying a throw. *)
Definition result_map {A B : Type} (f : A -> B) (r : result A) : result B :=
  let! a := r in Ok (f a).

(** The summer window of year [y]: from July 15 to September 15, as time
    values (local midnight). *)
Definition summerStartT (y : Z) : Z := MakeDay y 6 15 * msPerDay.
Definition summerEndT (y : Z) : Z := MakeDay y 8 15 * msPerDay.

(** The closed intervals [[s, e]] and [[s', e']] share a point. *)
Definition intersects (s e s' e' : Z) : Prop :=
  exists t : Z, s <= t <= e /\ s' <= t <= e'.

(** ** Sample data *)

(** Three of the default rows, with durations 10, 0 and 5. *)
Definition sampleRows : list Entry :=
  [newRow "r1" "UA-E" 156 110 10; newRow "r2" "UA-G" 441 110 0; newRow "r3" "UA-F" 336 110 5].

(** The same plan under other names and with notes. *)
Definition renamedRows : list Entry :=
  map (fun r =>
         {| id := id r; pasture := "North " ++ pasture r; acreage := acreage r;
            herdSize := herdSize r; prevPlannedADA := JNum (Fin 3);
            prevActualADA := prevActualADA r; estNativeADA := estNativeADA r;
            estPerennialADA := estPerennialADA r; grazingDays := grazingDays r;
            proposedADA := Fin 99; startDate := "2001-01-01"; endDate := endDate r;
            notes := "wet year" |})
      sampleRows.

(** A row with a duration of 10^12 days. *)
Definition endlessRow : Entry := newRow "r0" "UA-E" 156 110 (inject_Z (10 ^ 12)).

(** A duration above zero: a positive number, or the positive infinity. *)
Definition positiveDays {H : Host} (r : Entry) : bool :=
  match Number (grazingDays r) with
  | Fin q => Qltb 0 q
  | Inf negative => negb negative
  | NaN => false
  end.

(** A boundary. *)
Definition square : Feature :=
  {| properties := [("Pasture", JStr "UA-E")];
     geometry := Some (Polygon [[(Fin 0, Fin 0); (Fin 1, Fin 0); (Fin 1, Fin 1);
                                 (Fin 0, Fin 0)]]) |}.

(** A feature for UA-F without geometry. *)
Definition bare : Feature := {| properties := [("Pasture", JStr "UA-F")]; geometry := None |}.

(** Boundaries for UA-E and UA-F, none for UA-G. *)
Definition sampleFeatures : gmap string Feature :=
  <["ua-e" := square]> (<["ua-f" := square]> ∅).

(** A row named after a member of [Object.prototype], with a duration of
    [days]. *)
Definition constructorRow (days : Q) : Entry := newRow "r4" "constructor" 1 110 days.

(** The row for UA-E with blanks around its name. *)
Definition blankRow : Entry := newRow "r1" " UA-E " 156 110 10.

(** 2025-03-01, 2025-07-01 and 2025-07-20 as time values. *)
Definition march_1_2025 : Z := 1740787200000.
Definition july_1_2025 : Z := 1751328000000.
Definition july_20_2025 : Z := 1752969600000.

(** ** The rest of [App.jsx]

    The table handlers, the totals, the previous-season and estimate
    imports, the GeoJSON loader and the drafts.  A handler that ends in
    [setRows(prev => ...)] is modelled by that update; [crypto.randomUUID],
    [Date.now], [confirm] and the current year are inputs; the writes to
    [localStorage] are left aside.  The dictionaries of the previous
    season are plain objects, as the program stores them.  Where a text is
    trimmed or matched against a pattern, strings are read as sequences of
    code units below U+0100. *)

(** *** Text *)

(** The line terminators and the white space of ECMAScript below U+0100. *)
Definition isLineTerminator (c : ascii) : bool :=
  (Ascii.eqb c "010" || Ascii.eqb c "013")%char.

Definition isWhiteSpace (c : ascii) : bool :=
  (Ascii.eqb c "009" || Ascii.eqb c "011" || Ascii.eqb c "012" || Ascii.eqb c " "
   || Ascii.eqb c "160" || isLineTerminator c)%char.

Fixpoint trimStart (s : string) : string :=
  match s with
  | String c r => if isWhiteSpace c then trimStart r else s
  | EmptyString => EmptyString
  end.

Fixpoint trimEnd (s : string) : string :=
  match s with
  | String c r =>
      match trimEnd r with
      | EmptyString => if isWhiteSpace c then EmptyString else String c EmptyString
      | r' => String c r'
      end
  | EmptyString => EmptyString
  end.

(** [s.trim()]. *)
Definition trim (s : string) : string := trimEnd (trimStart s).

(** Regular expressions, matched by derivatives. *)
Inductive regex : Type :=
| Void
| Eps
| Chr (p : ascii -> bool)
| Seq (a b : regex)
| Alt (a b : regex)
| Star (a : regex).

Fixpoint Lit (s : string) : regex :=
  match s with
  | EmptyString => Eps
  | String c r => Seq (Chr (Ascii.eqb c)) (Lit r)
  end.

Definition isSome {A : Type} (o : option A) : bool :=
  match o with
  | Some _ => true
  | None => false
  end.

(** [.], [\d] and any code unit. *)
Definition Dot : regex := Chr (fun c => negb (isLineTerminator c)).
Definition Digit : regex := Chr (fun c => isSome (digitVal c)).
Definition Any : regex := Chr (fun _ => true).

Fixpoint nullable (r : regex) : bool :=
  match r with
  | Void | Chr _ => false
  | Eps | Star _ => true
  | Seq a b => nullable a && nullable b
  | Alt a b => nullable a || nullable b
  end.

Fixpoint deriv (c : ascii) (r : regex) : regex :=
  match r with
  | Void | Eps => Void
  | Chr p => if p c then Eps else Void
  | Seq a b =>
      if nullable a then Alt (Seq (deriv c a) b) (deriv c b) else Seq (deriv c a) b
  | Alt a b => Alt (deriv c a) (deriv c b)
  | Star a => Seq (deriv c a) (Star a)
  end.

(** The whole of [s] matches [r]. *)
Fixpoint fullMatch (r : regex) (s : string) : bool :=
  match s with
  | EmptyString => nullable r
  | String c t => fullMatch (deriv c r) t
  end.

(** [/r/.test(s)] and [/^r/.test(s)]. *)
Definition test (r : regex) (s : string) : bool :=
  fullMatch (Seq (Star Any) (Seq r (Star Any))) s.

Definition testStart (r : regex) (s : string) : bool :=
  fullMatch (Seq r (Star Any)) s.

(** [a.*b.*c]. *)
Definition dotted (a b c : string) : regex :=
  Seq (Lit a) (Seq (Star Dot) (Seq (Lit b) (Seq (Star Dot) (Lit c)))).

(** [a.*b]. *)
Definition dotted2 (a b : string) : regex := Seq (Lit a) (Seq (Star Dot) (Lit b)).

(** *** Objects read as dictionaries *)

(** [a ?? b]. *)
Definition isNullish (v : JSVal) : bool :=
  match v with
  | JUndefined | JNull => true
  | _ => false
  end.

Definition coalesce (a b : JSVal) : JSVal := if isNullish a then b else a.

(** Objects are values that are not primitive. *)
Definition isObject (v : JSVal) : bool :=
  match v with
  | JObject _ => true
  | _ => false
  end.

(** [dict?.[k]] on a dictionary with the own properties [dict]: its own
    property, or else the member of [Object.prototype] of that name, or
    else [undefined]. *)
Definition dictGet {H : Host} (dict : gmap string JSVal) (k : string) : JSVal :=
  match dict !! k with
  | Some v => v
  | None => if isPrototypeMember k then prototypeMember k else JUndefined
  end.

(** [dict[k] = v] for a primitive value [v]: it sets the own property,
    except that under the name [__proto__] it only changes a property the
    dictionary has of its own (the setter it inherits otherwise ignores a
    primitive value). *)
Definition dictSet (k : string) (v : JSVal) (dict : gmap string JSVal)
    : gmap string JSVal :=
  if String.eqb k "__proto__" && negb (isSome (dict !! k)) then dict
  else <[k := v]> dict.

(** [row[k]] on an object given by its own properties, in the order of
    [Object.keys]. *)
Definition getProp (row : list (string * JSVal)) (k : string) : JSVal :=
  match find (fun kv => String.eqb (fst kv) k) row with
  | Some kv => snd kv
  | None => JUndefined
  end.

(** [l.findIndex(p)]. *)
Fixpoint findIndexFrom {A : Type} (p : A -> bool) (l : list A) (i : Z) : Z :=
  match l with
  | [] => -1
  | x :: xs => if p x then i else findIndexFrom p xs (i + 1)
  end.

Definition findIndex {A : Type} (p : A -> bool) (l : list A) : Z := findIndexFrom p l 0.

(** *** Row updates *)

Definition set_id (i : string) (r : Entry) : Entry :=
  {| id := i; pasture := pasture r; acreage := acreage r;
     herdSize := herdSize r; prevPlannedADA := prevPlannedADA r;
     prevActualADA := prevActualADA r; estNativeADA := estNativeADA r;
     estPerennialADA := estPerennialADA r; grazingDays := grazingDays r;
     proposedADA := proposedADA r; startDate := startDate r; endDate := endDate r;
     notes := notes r |}.

(** [{ ...r, prevPlannedADA: p, prevActualADA: a }]. *)
Definition set_prev (p a : JSVal) (r : Entry) : Entry :=
  {| id := id r; pasture := pasture r; acreage := acreage r;
     herdSize := herdSize r; prevPlannedADA := p;
     prevActualADA := a; estNativeADA := estNativeADA r;
     estPerennialADA := estPerennialADA r; grazingDays := grazingDays r;
     proposedADA := proposedADA r; startDate := startDate r; endDate := endDate r;
     notes := notes r |}.

(** [{ ...r, estNativeADA: n, estPerennialADA: g }]. *)
Definition set_estimates (n g : JSVal) (r : Entry) : Entry :=
  {| id := id r; pasture := pasture r; acreage := acreage r;
     herdSize := herdSize r; prevPlannedADA := prevPlannedADA r;
     prevActualADA := prevActualADA r; estNativeADA := n;
     estPerennialADA := g; grazingDays := grazingDays r;
     proposedADA := proposedADA r; startDate := startDate r; endDate := endDate r;
     notes := notes r |}.

(** The patch [{ herdSize: v }] of [SortableRow] spread over [r]. *)
Definition set_herdSize (v : JSVal) (r : Entry) : Entry :=
  {| id := id r; pasture := pasture r; acreage := acreage r;
     herdSize := v; prevPlannedADA := prevPlannedADA r;
     prevActualADA := prevActualADA r; estNativeADA := estNativeADA r;
     estPerennialADA := estPerennialADA r; grazingDays := grazingDays r;
     proposedADA := proposedADA r; startDate := startDate r; endDate := endDate r;
     notes := notes r |}.

(** *** The table handlers *)

(** [prev.map(r => (r.id === id ? { ...r, ...patch } : r))], the spread of
    the patch being [patch]. *)
Definition updateRow (id0 : string) (patch : Entry -> Entry) (prev : list Entry) : list Entry :=
  map (fun r => if String.eqb (id r) id0 then patch r else r) prev.

Definition deleteRow (id0 : string) (prev : list Entry) : list Entry :=
  List.filter (fun r => negb (String.eqb (id r) id0)) prev.

(** [duplicateRow(id)], [uuid] being the identifier [crypto.randomUUID]
    returns. *)
Definition duplicateRow (id0 uuid : string) (prev : list Entry) : list Entry :=
  let idx := findIndex (fun r => String.eqb (id r) id0) prev in
  if idx <? 0 then prev
  else match prev !! Z.to_nat idx with
       | Some r =>
           (take (Z.to_nat (idx + 1)) prev ++ set_id uuid r
              :: drop (Z.to_nat (idx + 1)) prev)%list
       | None => prev
       end.

(** The start of [Array.prototype.splice] within an array of length [len]. *)
Definition spliceStart (len start : Z) : nat :=
  Z.to_nat (if start <? 0 then Z.max (len + start) 0 else Z.min start len).

(** [arrayMove] of dnd-kit: [newArray.splice(to < 0 ? newArray.length + to
    : to, 0, newArray.splice(from, 1)[0])] on a copy; the index of the
    insertion is computed before the removal, and what is inserted is
    [undefined] ([None]) when nothing was removed. *)
Definition arrayMove {A : Type} (array : list A) (from to : Z) : list (option A) :=
  let len := Z.of_nat (length array) in
  let target := if to <? 0 then len + to else to in
  let i := spliceStart len from in
  let removed := array !! i in
  let rest := (take i array ++ drop (S i) array)%list in
  let j := spliceStart (Z.of_nat (length rest)) target in
  (map Some (take j rest) ++ removed :: map Some (drop j rest))%list.

(** [handleDragEnd]: the rows after a drop of the row [active] on [over];
    [None] stands for the [undefined] that [arrayMove] can insert. *)
Definition handleDragEnd (active : string) (over : option string) (rows : list Entry)
    : list (option Entry) :=
  match over with
  | None => map Some rows
  | Some over_id =>
      if String.eqb active over_id then map Some rows
      else
        let oldIndex := findIndex (fun r => String.eqb (id r) active) rows in
        let newIndex := findIndex (fun r => String.eqb (id r) over_id) rows in
        arrayMove rows oldIndex newIndex
  end.

(** *** Previous season *)

Definition seedPreviousSeasonAndEstimates {H : Host} (rows : list Entry)
    (prevPlanned prevActual : gmap string JSVal) : list Entry :=
  map (fun r =>
         set_prev (coalesce (dictGet prevPlanned (pasture r)) (prevPlannedADA r))
                  (coalesce (dictGet prevActual (pasture r)) (prevActualADA r)) r)
      rows.

(** [for (const r of rows) if (r.pasture) dict[r.pasture] = r.proposedADA]. *)
Definition plannedFromRows (dict : gmap string JSVal) (rows : list Entry)
    : gmap string JSVal :=
  fold_left (fun d r =>
               match pasture r with
               | EmptyString => d
               | p => dictSet p (JNum (proposedADA r)) d
               end)
            rows dict.

(** [saveCurrentAsPrevPlanned]: the dictionary it stores and the rows it
    sets, [prev] being the rows of the update. *)
Definition saveCurrentAsPrevPlanned {H : Host} (rows prev : list Entry)
    (prevPlanned prevActual : gmap string JSVal) : gmap string JSVal * list Entry :=
  let dict := plannedFromRows prevPlanned rows in
  (dict, seedPreviousSeasonAndEstimates prev dict prevActual).

Section Imports.
Context {H : Host}.

(** *** The totals *)

Definition totalDays (rows : list Entry) : number :=
  fold_left (fun s r => num_add s (Math_max num_zero (toNum (grazingDays r)))) rows num_zero.

Definition totalADA (rows : list Entry) : number :=
  toFixed2 (fold_left (fun s r => num_add s (toNum (JNum (proposedADA r)))) rows num_zero).

(** *** The CSV imports *)

(** [norm]: [(s || "").toString().trim().toLowerCase()]. *)
Definition norm (s : string) : string := toLowerCase (trim s).

(** [keys.find(k => re.test(norm(k))) || fallback]. *)
Definition keyFor (re : regex) (fallback : string) (keys : list string) : string :=
  match find (fun k => test re (norm k)) keys with
  | Some (String c k) => String c k
  | _ => fallback
  end.

(** [Object.keys(rowsFromCSV[0] || {})]. *)
Definition firstKeys (rowsFromCSV : list (list (string * JSVal))) : list string :=
  match rowsFromCSV with
  | first :: _ => map fst first
  | [] => []
  end.

Definition pastureKeyOf (rowsFromCSV : list (list (string * JSVal))) : string :=
  keyFor (Alt (Lit "pasture") (Alt (Lit "paddock") (Lit "unit"))) "Pasture"
         (firstKeys rowsFromCSV).

Definition nativeKeyOf (rowsFromCSV : list (list (string * JSVal))) : string :=
  keyFor (Alt (dotted "est" "native" "ada") (dotted2 "native" "ada")) "EstNativeADA"
         (firstKeys rowsFromCSV).

Definition perenKeyOf (rowsFromCSV : list (list (string * JSVal))) : string :=
  keyFor (Alt (dotted "est" "per" "ada") (dotted2 "perennial" "ada")) "EstPerennialADA"
         (firstKeys rowsFromCSV).

Definition plannedKeyOf (rowsFromCSV : list (list (string * JSVal))) : string :=
  keyFor (Alt (dotted "prev" "plan" "ada") (dotted2 "plan" "ada")) "PrevPlannedADA"
         (firstKeys rowsFromCSV).

Definition actualKeyOf (rowsFromCSV : list (list (string * JSVal))) : string :=
  keyFor (Alt (dotted "prev" "act" "ada") (dotted2 "actual" "ada")) "PrevActualADA"
         (firstKeys rowsFromCSV).

(** [String(row[pastureKey] ?? "").trim()]. *)
Definition csvName (pastureKey : string) (row : list (string * JSVal)) : string :=
  trim (ToString (coalesce (getProp row pastureKey) (JStr ""))).

(** The loop that fills the [lookup] map of [applyEstimatesFromCSV], the
    three keys being chosen. *)
Definition estimatesLoop (pastureKey nativeKey perenKey : string)
    (rowsFromCSV : list (list (string * JSVal))) : gmap string (JSVal * JSVal) :=
  fold_left (fun lookup row =>
               match csvName pastureKey row with
               | EmptyString => lookup
               | p => <[toLowerCase p := (coalesce (getProp row nativeKey) JNull,
                                          coalesce (getProp row perenKey) JNull)]> lookup
               end)
            rowsFromCSV ∅.

Definition estimatesLookup (rowsFromCSV : list (list (string * JSVal)))
    : gmap string (JSVal * JSVal) :=
  estimatesLoop (pastureKeyOf rowsFromCSV) (nativeKeyOf rowsFromCSV)
                (perenKeyOf rowsFromCSV) rowsFromCSV.

Definition applyEstimatesFromCSV (rowsFromCSV : list (list (string * JSVal)))
    (prev : list Entry) : list Entry :=
  let lookup := estimatesLookup rowsFromCSV in
  map (fun r =>
         match lookup !! toLowerCase (pasture r) with
         | Some (n, g) => set_estimates n g r
         | None => r
         end)
      prev.

(** The loop of [applyPreviousSeasonFromCSV] over the two dictionaries, the
    three keys being chosen. *)
Definition previousSeasonLoop (pastureKey plannedKey actualKey : string)
    (rowsFromCSV : list (list (string * JSVal)))
    (prevPlanned prevActual : gmap string JSVal) : gmap string JSVal * gmap string JSVal :=
  fold_left (fun dicts row =>
               match csvName pastureKey row with
               | EmptyString => dicts
               | p =>
                   let planned := coalesce (getProp row plannedKey) JNull in
                   let actual := coalesce (getProp row actualKey) JNull in
                   (if isNullish planned then fst dicts else dictSet p planned (fst dicts),
                    if isNullish actual then snd dicts else dictSet p actual (snd dicts))
               end)
            rowsFromCSV (prevPlanned, prevActual).

Definition previousSeasonDicts (rowsFromCSV : list (list (string * JSVal)))
    (prevPlanned prevActual : gmap string JSVal) : gmap string JSVal * gmap string JSVal :=
  previousSeasonLoop (pastureKeyOf rowsFromCSV) (plannedKeyOf rowsFromCSV)
                     (actualKeyOf rowsFromCSV) rowsFromCSV prevPlanned prevActual.

(** [applyPreviousSeasonFromCSV]: the two dictionaries it stores and the
    rows it sets. *)
Definition applyPreviousSeasonFromCSV (rowsFromCSV : list (list (string * JSVal)))
    (prevPlanned prevActual : gmap string JSVal) (prev : list Entry)
    : gmap string JSVal * gmap string JSVal * list Entry :=
  let dicts := previousSeasonDicts rowsFromCSV prevPlanned prevActual in
  (dicts, seedPreviousSeasonAndEstimates prev (fst dicts) (snd dicts)).

(** *** The GeoJSON loader *)

(** A member of [gj.features] that is an object: its [properties] may be
    missing. *)
Record RawFeature : Type := {
  raw_properties : option (list (string * JSVal));
  raw_geometry : option Geometry
}.

Record GeoJSON : Type := {
  gj_type : string;
  (** [None] when [gj.features] is not an array; a member that is [null]
      is [None] *)
  gj_features : option (list (option RawFeature))
}.

(** [pickKey]. *)
Definition pickKey (props : list (string * JSVal)) : option string :=
  match find (fun kv => isNameKey (fst kv)) props with
  | Some kv => Some (fst kv)
  | None => None
  end.

(** [key ? String(f.properties[key] ?? '').trim() : '']. *)
Definition rawName (props : list (string * JSVal)) : string :=
  match pickKey props with
  | Some (String c k) => trim (ToString (coalesce (getProp props (String c k)) (JStr "")))
  | _ => EmptyString
  end.

(** One turn of the loop over [gj.features]. *)
Definition loadFeature (acc : gmap string Feature * list Feature) (f : option RawFeature)
    : gmap string Feature * list Feature :=
  match f with
  | Some {| raw_properties := Some props; raw_geometry := g |} =>
      match rawName props with
      | EmptyString => acc
      | raw =>
          let feature := {| properties := props; geometry := g |} in
          (<[toLowerCase raw := feature]> (fst acc), (snd acc ++ [feature])%list)
      end
  | _ => acc
  end.

(** The [byName] and [feats] that [onGeoFileChange] stores, or [None] when
    it refuses the file. *)
Definition onGeoFileChange (gj : GeoJSON) : option (gmap string Feature * list Feature) :=
  match gj_features gj with
  | Some fs =>
      if String.eqb (gj_type gj) "FeatureCollection"
      then Some (fold_left loadFeature fs (∅, []))
      else None
  | None => None
  end.

(** The count of unmatched rows under the map. *)
Definition unmatchedRows (rows : list Entry) (featureByPasture : gmap string Feature) : nat :=
  length (List.filter (fun r => negb (isSome (featureOf featureByPasture r))) rows).

End Imports.

(** *** Drafts *)

Record Draft : Type := {
  draft_id : string;
  draft_name : string;
  draft_ts : Z;
  draft_startDate : string;
  draft_rows : list Entry
}.

(** The year a draft is filed under:
    [(startDate && /^\d{4}/.test(startDate)) ? startDate.slice(0, 4)
     : String(new Date().getFullYear())]. *)
Definition draftYear (startDate : string) (currentYear : Z) : string :=
  match startDate with
  | EmptyString => intString currentYear
  | _ =>
      if testStart (Seq Digit (Seq Digit (Seq Digit Digit))) startDate
      then substring 0 4 startDate
      else intString currentYear
  end.

(** [handleSaveDraft]: the update of [draftsByYear]. *)
Definition handleSaveDraft (startDate : string) (rows : list Entry)
    (uuid : string) (now currentYear : Z) (prev : gmap string (list Draft))
    : gmap string (list Draft) :=
  let y := draftYear startDate currentYear in
  let draft := {| draft_id := uuid; draft_name := ""; draft_ts := now;
                  draft_startDate := startDate; draft_rows := rows |} in
  let arr := match prev !! y with Some a => a | None => [] end in
  <[y := (arr ++ [draft])%list]> prev.

(** The part of the state [handleLoadDraft] writes. *)
Record Table : Type := {
  table_rows : list Entry;
  table_startDate : string;
  table_selectedRowId : option string
}.

(** [handleLoadDraft(year, id)]: [confirm] is the answer to the dialog,
    [uuid i] the identifier given to row [i]. *)
Definition handleLoadDraft (draftsByYear : gmap string (list Draft)) (year id0 : string)
    (confirm : bool) (uuid : nat -> string) (st : Table) : Table :=
  let arr := match draftsByYear !! year with Some a => a | None => [] end in
  match find (fun x => String.eqb (draft_id x) id0) arr with
  | None => st
  | Some d =>
      if confirm then
        {| table_rows := imap (fun i r => set_id (uuid i) r) (draft_rows d);
           table_startDate := draft_startDate d;
           table_selectedRowId := None |}
      else st
  end.

(** [handleDeleteDraft(year, id)]: the update of [draftsByYear] once the
    dialog is confirmed. *)
Definition handleDeleteDraft (year id0 : string) (prev : gmap string (list Draft))
    : gmap string (list Draft) :=
  let arr := match prev !! year with Some a => a | None => [] end in
  match List.filter (fun d => negb (String.eqb (draft_id d) id0)) arr with
  | [] => delete year prev
  | kept => <[year := kept]> prev
  end.

(** ** Definitions used to state the properties of the rest of the program *)

(** The texts a regular expression denotes. *)
Inductive Matches : regex -> string -> Prop :=
| MEps : Matches Eps ""
| MChr p c : p c = true -> Matches (Chr p) (String c "")
| MSeq a b s t : Matches a s -> Matches b t -> Matches (Seq a b) (s ++ t)
| MAltL a b s : Matches a s -> Matches (Alt a b) s
| MAltR a b s : Matches b s -> Matches (Alt a b) s
| MStar0 a : Matches (Star a) ""
| MStarS a s t : Matches a s -> Matches (Star a) t -> Matches (Star a) (s ++ t).

Definition isDigit (c : ascii) : bool := isSome (digitVal c).

(** The name [k] cannot be written in the dictionary: it is [__proto__] and
    the dictionary has no property of that name of its own. *)
Definition protoLocked (dict : gmap string JSVal) (k : string) : bool :=
  String.eqb k "__proto__" && negb (isSome (dict !! k)).

Definition isNaN (n : number) : bool :=
  match n with
  | NaN => true
  | _ => false
  end.

Section ImportSpecs.
Context {H : Host}.

(** The CSV row is for the plan row named [name]: its own name, trimmed,
    is not empty and equals [name] up to case. *)
Definition estimateFor (pastureKey name : string) (row : list (string * JSVal)) : bool :=
  match csvName pastureKey row with
  | EmptyString => false
  | p => String.eqb (toLowerCase p) (toLowerCase name)
  end.

(** The CSV row has a value under [key] for the pasture named exactly
    [name]. *)
Definition valueFor (pastureKey key name : string) (row : list (string * JSVal)) : bool :=
  match csvName pastureKey row with
  | EmptyString => false
  | p => String.eqb p name && negb (isNullish (getProp row key))
  end.

(** The feature the loader keeps of a member of [gj.features]. *)
Definition keptFeature (f : option RawFeature) : option Feature :=
  match f with
  | Some {| raw_properties := Some props; raw_geometry := g |} =>
      match rawName props with
      | EmptyString => None
      | _ => Some {| properties := props; geometry := g |}
      end
  | _ => None
  end.

(** The key the loader files a feature under. *)
Definition featureKey (f : Feature) : string := toLowerCase (rawName (properties f)).

End ImportSpecs.

(** The days the durations add up to, a negative one counting for none,
    and the number of durations that are not positive. *)
Definition sumDays (durs : list Z) : Z := fold_right (fun k acc => Z.max 0 k + acc) 0 durs.

Definition zeroDays (durs : list Z) : Z :=
  fold_right (fun k acc => (if 0 <? k then 0 else 1) + acc) 0 durs.

(** Every year of the drafts has a draft. *)
Definition noEmptyYear (drafts : gmap string (list Draft)) : Prop :=
  forall y, drafts !! y <> Some [].

(** A row without its identifier. *)
Definition anonymous (r : Entry) : Entry := set_id "" r.
(** ** Sample data for the rest of the program *)

(** The name of a row as the loader normalizes the name of a feature:
    trimmed and lower-cased. *)
Definition normalizedName {H : Host} (r : Entry) : string := toLowerCase (trim (pasture r)).

(** The sample rows with the second one moved to the top. *)
Definition reorderedRows : list Entry :=
  [newRow "r2" "UA-G" 441 110 0; newRow "r1" "UA-E" 156 110 10; newRow "r3" "UA-F" 336 110 5].

(** A boundary for UA-G, and boundaries for UA-E and UA-G but none for UA-F. *)
Definition squareG : Feature :=
  {| properties := [("Pasture", JStr "UA-G")]; geometry := geometry square |}.

Definition labelFeatures : gmap string Feature :=
  <["ua-e" := square]> (<["ua-g" := squareG]> ∅).

(** The scene of the sample host for [rows] and [featureByPasture], when
    there is one. *)
Definition sceneOf (rows : list Entry) (featureByPasture : gmap string Feature) : Scene :=
  match StaticMap (H := sampleHost false) (T := sampleTurf) rows featureByPasture [] with
  | Ok (Some scene) => scene
  | _ => {| polyPaths := []; segments := []; routeAnchors := []; nonRouteLabels := [] |}
  end.

(** The rows the sample host derives, when it does. *)
Definition derivedRows (rows : list Entry) (planStart : string) : list Entry :=
  match recompute (H := sampleHost false) rows planStart with
  | Ok out => out
  | Throw => []
  end.

(** A feature collection: a named feature, a [null], a feature without
    properties and one whose name is blank. *)
Definition sampleGeo : GeoJSON :=
  {| gj_type := "FeatureCollection";
     gj_features :=
       Some [Some {| raw_properties := Some [("Name", JStr " UA-E ")];
                     raw_geometry := geometry square |};
             None;
             Some {| raw_properties := None; raw_geometry := geometry square |};
             Some {| raw_properties := Some [("Name", JStr "  ")];
                     raw_geometry := None |}] |}.

Definition sampleLoaded : gmap string Feature * list Feature :=
  match onGeoFileChange (H := sampleHost false) sampleGeo with
  | Some loaded => loaded
  | None => (∅, [])
  end.

(** The drafts of a sidebar that holds one draft of the year 2025. *)
Definition sampleDrafts : gmap string (list Draft) :=
  <["2025" := [{| draft_id := "d1"; draft_name := ""; draft_ts := 0;
                  draft_startDate := "2025-03-01"; draft_rows := sampleRows |}]]> ∅.

(** A previous-season CSV with values for UA-E and for the name
    [__proto__], and the sample rows with a row of that name. *)
Definition sampleSeasonCSV : list (list (string * JSVal)) :=
  [[("Pasture", JStr "UA-E"); ("PrevPlannedADA", JNum (Fin 3))];
   [("Pasture", JStr "__proto__"); ("PrevPlannedADA", JNum (Fin 9))]].

Definition protoRows : list Entry := (sampleRows ++ [newRow "r5" "__proto__" 1 110 1])%list.

(** * Properties *)

(** ** Tactics *)

(** Boolean tests in the hypotheses, as propositions. *)
Ltac bools :=
  repeat match goal with
         | H : _ && _ = true |- _ => apply andb_prop in H; destruct H
         | H : (_ <=? _) = true |- _ => apply Z.leb_le in H
         | H : (_ <=? _) = false |- _ => apply Z.leb_gt in H
         | H : (_ <? _) = true |- _ => apply Z.ltb_lt in H
         | H : (_ <? _) = false |- _ => apply Z.ltb_ge in H
         | H : (_ =? _) = true |- _ => apply Z.eqb_eq in H
         | H : (_ =? _) = false |- _ => apply Z.eqb_neq in H
         end.

(** Case analysis on every test of the goal. *)
Ltac split_ifs :=
  repeat match goal with
         | |- context [if ?b then _ else _] => destruct b eqn:?
         end; bools.

(** Linear arithmetic with division and remainder by constants. *)
Ltac zdiv := Z.div_mod_to_equations; lia.

(** ** The calendar *)

Lemma YearFromDay_spec n :
  DayFromYear (YearFromDay n) <= n < DayFromYear (YearFromDay n + 1).
Proof. unfold YearFromDay, DayFromYear. split_ifs; zdiv. Qed.

Lemma DayFromYear_succ y : DayFromYear (y + 1) = DayFromYear y + 365 + leapDays y.
Proof.
  unfold DayFromYear, leapDays, isLeapYearIndex.
  destruct (y mod 400 =? 0) eqn:E1; destruct (y mod 4 =? 0) eqn:E2;
    destruct (y mod 100 =? 0) eqn:E3; simpl; bools; zdiv.
Qed.

Lemma DayFromYear_mono a b : a <= b -> DayFromYear a <= DayFromYear b.
Proof. unfold DayFromYear. intros. zdiv. Qed.

Lemma DayFromYear_lt a b : DayFromYear a < DayFromYear (b + 1) -> a <= b.
Proof.
  intros Hlt. destruct (Z_le_gt_dec a b) as [|Hgt]; [assumption|].
  assert (DayFromYear (b + 1) <= DayFromYear a) by (apply DayFromYear_mono; lia). lia.
Qed.

Lemma YearFromDay_mono a b : a <= b -> YearFromDay a <= YearFromDay b.
Proof.
  intros. pose proof (YearFromDay_spec a). pose proof (YearFromDay_spec b).
  apply DayFromYear_lt. lia.
Qed.

Lemma leapDays_range y : 0 <= leapDays y <= 1.
Proof. unfold leapDays. destruct (isLeapYearIndex y); lia. Qed.

Lemma MonthFromDayInYear_spec y d :
  0 <= d < 365 + leapDays y ->
  0 <= MonthFromDayInYear y d <= 11 /\
  monthStart y (MonthFromDayInYear y d) <= d
    < monthStart y (MonthFromDayInYear y d) + daysInMonths y (MonthFromDayInYear y d).
Proof.
  intros Hd. pose proof (leapDays_range y) as Hl.
  assert (Hleap : (if isLeapYearIndex y then 29 else 28) = 28 + leapDays y)
    by (unfold leapDays; destruct (isLeapYearIndex y); reflexivity).
  unfold MonthFromDayInYear. cbn [monthStart].
  split_ifs; cbn [monthStart daysInMonths]; rewrite ?Hleap; lia.
Qed.

Lemma civil_spec n y m d :
  civil n = (y, m, d) ->
  y = YearFromDay n /\ MakeDay y m d = n /\ validateDate y m d = true.
Proof.
  unfold civil. intros E. injection E as Ey Em Ed.
  pose proof (YearFromDay_spec n) as Hs. rewrite DayFromYear_succ in Hs.
  rewrite Ey in *. clear Ey.
  destruct (MonthFromDayInYear_spec y (n - DayFromYear y)) as [Hm Hd]; [lia|].
  rewrite Em in *. clear Em.
  split; [reflexivity|]. unfold MakeDay, validateDate.
  split; [lia|]. rewrite !andb_true_iff, !Z.leb_le. lia.
Qed.

(** ** Decimal strings and the date-only fragment *)

Lemma digitVal_digitChar k : 0 <= k <= 9 -> digitVal (digitChar k) = Some k.
Proof.
  intros Hk.
  assert (k = 0 \/ k = 1 \/ k = 2 \/ k = 3 \/ k = 4 \/ k = 5 \/ k = 6 \/ k = 7
          \/ k = 8 \/ k = 9) as Hc by lia.
  repeat (destruct Hc as [-> | Hc]; [reflexivity|]). subst. reflexivity.
Qed.

Lemma checkRange_sound P lo count :
  checkRange P lo count = true -> forall z, lo <= z < lo + count -> P z = true.
Proof.
  unfold checkRange. rewrite forallb_forall. intros Hall z Hz.
  replace z with (lo + Z.of_nat (Z.to_nat (z - lo))) by lia.
  apply Hall. apply in_seq. lia.
Qed.

Lemma addLeadingZeros_4 n : 0 <= n <= 9999 -> addLeadingZeros n 4 = fourDigits n.
Proof.
  intros Hn. apply String.eqb_eq.
  apply (checkRange_sound (fun z => String.eqb (addLeadingZeros z 4) (fourDigits z)) 0 10000);
    [vm_compute; reflexivity | lia].
Qed.

Lemma addLeadingZeros_2 n : 0 <= n <= 99 -> addLeadingZeros n 2 = twoDigits n.
Proof.
  intros Hn. apply String.eqb_eq.
  apply (checkRange_sound (fun z => String.eqb (addLeadingZeros z 2) (twoDigits z)) 0 100);
    [vm_compute; reflexivity | lia].
Qed.

Lemma intString_4 y : 1000 <= y <= 9999 -> intString y = fourDigits y.
Proof.
  intros Hn. apply String.eqb_eq.
  apply (checkRange_sound (fun z => String.eqb (intString z) (fourDigits z)) 1000 9000);
    [vm_compute; reflexivity | lia].
Qed.

Lemma digits2_twoDigits n : 0 <= n <= 99 ->
  digits2 (digitChar (n / 10)) (digitChar (n mod 10)) = Some n.
Proof.
  intros Hn. unfold digits2. rewrite !digitVal_digitChar by zdiv. f_equal. zdiv.
Qed.

Lemma digits4_fourDigits n : 0 <= n <= 9999 ->
  digits4 (digitChar (n / 1000)) (digitChar (n / 100 mod 10))
          (digitChar (n / 10 mod 10)) (digitChar (n mod 10)) = Some n.
Proof.
  intros Hn. unfold digits4, digits2. rewrite !digitVal_digitChar by zdiv. f_equal. zdiv.
Qed.

Lemma isDateChar_digitChar k : isDateChar (digitChar k) = true.
Proof.
  destruct k as [|p|p]; try reflexivity.
  do 4 (destruct p as [p|p|]; try reflexivity).
Qed.

Lemma daysInMonths_le y m : daysInMonths y m <= 31.
Proof.
  unfold daysInMonths. destruct (isLeapYearIndex y);
    repeat match goal with |- context [match ?x with _ => _ end] => destruct x end; lia.
Qed.

Lemma monthStart_range y m : 0 <= m <= 11 -> 0 <= monthStart y m <= 335.
Proof.
  intros Hm. pose proof (leapDays_range y).
  assert (m = 0 \/ m = 1 \/ m = 2 \/ m = 3 \/ m = 4 \/ m = 5 \/ m = 6 \/ m = 7
          \/ m = 8 \/ m = 9 \/ m = 10 \/ m = 11) as Hc by lia.
  repeat (destruct Hc as [-> | Hc]; [cbn [monthStart]; lia|]). subst. cbn [monthStart]. lia.
Qed.

Lemma append_String a s t : (String a s ++ t)%string = String a (s ++ t)%string.
Proof. reflexivity. Qed.

Lemma append_Empty t : ("" ++ t)%string = t.
Proof. reflexivity. Qed.

Ltac simpl_append := rewrite ?append_String, ?append_Empty.

Lemma parseDateOnly_isoText y m d :
  0 <= y <= 9999 -> validateDate y (m - 1) d = true ->
  parseDateOnly (isoText y m d) = Some (MakeDay y (m - 1) d * msPerDay).
Proof.
  intros Hy Hv. pose proof Hv as Hv'. unfold validateDate in Hv'.
  rewrite !andb_true_iff, !Z.leb_le in Hv'.
  pose proof (daysInMonths_le y (m - 1)) as Hd.
  unfold parseDateOnly, isoText, fourDigits, twoDigits. simpl_append. cbn [parseYear].
  rewrite digits4_fourDigits by lia. cbn [parseDateUnits stripHyphen Ascii.eqb Bool.eqb].
  rewrite !digits2_twoDigits by lia. cbn [option_map]. rewrite Hv.
  unfold validateDayOfYearDate. cbn [Z.leb Z.compare andb].
  replace (1 <=? (if isLeapYearIndex y then 366 else 365)) with true
    by (destruct (isLeapYearIndex y); reflexivity).
  rewrite Z.max_r by lia. unfold TimeClip.
  assert (Hb := DayFromYear_mono 0 y ltac:(lia)).
  assert (Hb2 := DayFromYear_mono y 9999 ltac:(lia)).
  pose proof (monthStart_range y (m - 1) ltac:(lia)) as Hms.
  change (DayFromYear 0) with (-719528) in Hb. change (DayFromYear 9999) with 2932532 in Hb2.
  destruct (Z.abs _ <=? maxTime) eqn:E; [reflexivity|].
  apply Z.leb_gt in E. unfold MakeDay, msPerDay, maxTime in *. lia.
Qed.

Lemma formatDay_isoText n :
  DayFromYear 1 <= n < DayFromYear 10000 ->
  exists y m d, civil n = (y, m - 1, d) /\ 1 <= y <= 9999 /\
    validateDate y (m - 1) d = true /\ MakeDay y (m - 1) d = n /\
    formatDay n = isoText y m d.
Proof.
  intros Hn. destruct (civil n) as [[y m] d] eqn:E.
  destruct (civil_spec _ _ _ _ E) as (Hy & Hmk & Hv).
  pose proof (YearFromDay_spec n) as Hs. rewrite <- Hy in Hs.
  assert (1 <= y) by (apply DayFromYear_lt; lia).
  assert (y <= 9999) by (apply DayFromYear_lt; change (9999 + 1) with 10000; lia).
  exists y, (m + 1), d. replace (m + 1 - 1) with m by lia.
  repeat split; try assumption; try lia.
  unfold formatDay. rewrite E.
  pose proof Hv as Hv'. unfold validateDate in Hv'.
  rewrite !andb_true_iff, !Z.leb_le in Hv'.
  pose proof (daysInMonths_le y m) as Hd.
  replace (0 <? y) with true by (symmetry; apply Z.ltb_lt; lia).
  rewrite addLeadingZeros_4, !addLeadingZeros_2 by lia. reflexivity.
Qed.

Lemma allDateChars_isoText y m d : allDateChars (isoText y m d) = true.
Proof.
  unfold isoText, fourDigits, twoDigits. simpl_append. cbn [allDateChars].
  rewrite !isDateChar_digitChar. reflexivity.
Qed.

Lemma parseISO_formatDay {H : Host} n :
  DayFromYear 1 <= n < DayFromYear 10000 ->
  parseISO (formatDay n) = Some (n * msPerDay).
Proof.
  intros Hn. destruct (formatDay_isoText n Hn) as (y & m & d & _ & Hy & Hv & Hmk & ->).
  unfold parseISO. rewrite allDateChars_isoText.
  rewrite parseDateOnly_isoText by (assumption || lia). rewrite Hmk.
  reflexivity.
Qed.

(** ** Numbers *)

Lemma Qltb_lt x y : Qltb x y = true <-> (x < y)%Q.
Proof.
  unfold Qltb. rewrite negb_true_iff. split.
  - intros E. apply Qnot_le_lt. intros Hle. apply Qle_bool_iff in Hle. congruence.
  - intros Hlt. destruct (Qle_bool y x) eqn:E; [|reflexivity].
    apply Qle_bool_iff in E. exfalso. apply (Qlt_not_le _ _ Hlt E).
Qed.

Lemma Qltb_ge x y : Qltb x y = false <-> (y <= x)%Q.
Proof.
  unfold Qltb. rewrite negb_false_iff. apply Qle_bool_iff.
Qed.

Lemma Math_max_Fin a b : Math_max (Fin a) (Fin b) = Fin (Qmax a b).
Proof.
  unfold Math_max, num_ltb, Qmax, GenericMinMax.gmax.
  destruct (Qcompare a b) eqn:C; destruct (Qltb a b) eqn:E; try reflexivity; exfalso.
  - apply Qeq_alt in C. apply Qltb_lt in E. rewrite C in E. apply (Qlt_irrefl _ E).
  - apply Qlt_alt in C. apply Qltb_ge in E. apply (Qlt_not_le _ _ C E).
  - apply Qgt_alt in C. apply Qltb_lt in E. apply (Qlt_irrefl a). apply (Qlt_trans _ _ _ E C).
Qed.

Lemma div100_small z :
  Z.abs z <= 10 ^ 23 -> (Qabs (inject_Z z / 100) <= inject_Z (2 ^ 1023))%Q.
Proof.
  intros Hz. apply Qabs_Qle_condition.
  assert (Hbig : 10 ^ 23 <= 2 ^ 1023) by (vm_compute; discriminate).
  split; unfold Qle, Qdiv, Qmult, Qinv, inject_Z, Qopp; cbn [Qnum Qden]; lia.
Qed.

Section NumberLemmas.
Context {H : Host}.

Lemma toNum_finite v : exists q, toNum v = Fin q.
Proof.
  unfold toNum.
  destruct v as [| |b|n|s|t]; try (eexists; reflexivity).
  - destruct (Number (JBool b)) eqn:E; cbn [Number_isFinite]; eexists; reflexivity.
  - destruct (Number (JNum n)) eqn:E; cbn [Number_isFinite]; eexists; reflexivity.
  - destruct s; [eexists; reflexivity|].
    destruct (Number _) eqn:E; cbn [Number_isFinite]; eexists; reflexivity.
  - destruct (Number (JObject t)) eqn:E; cbn [Number_isFinite]; eexists; reflexivity.
Qed.

Lemma toNum_garbage v : isGarbage v -> toNum v = num_zero.
Proof.
  intros [-> | [-> | [-> | Hn]]]; try reflexivity.
  unfold toNum. rewrite Hn. destruct v as [| |b|n|[|c s]|t]; reflexivity.
Qed.

Lemma toNum_JNum q : toNum (JNum (Fin q)) = Fin q.
Proof. reflexivity. Qed.

Context {L : HostLaws H}.

Lemma rnd_zero q : (q == 0)%Q -> rnd q = num_zero.
Proof.
  intros E. rewrite (rnd_compat _ _ E). apply (rnd_integer 0). cbn. lia.
Qed.

Lemma toFixed2_zero : toFixed2 num_zero = num_zero.
Proof.
  unfold toFixed2, num_zero. cbn. apply rnd_zero. reflexivity.
Qed.

Lemma toFixed2_not_NaN x : x <> NaN -> toFixed2 x <> NaN.
Proof.
  intros Hx. destruct x as [|s|q]; cbn [toFixed2]; try congruence.
  destruct (Qle_bool _ _); [congruence|apply rnd_not_NaN].
Qed.

Lemma toFixed2_finite x : Number_isFinite x = true -> Number_isFinite (toFixed2 x) = true.
Proof.
  destruct x as [|s|q]; cbn [Number_isFinite toFixed2]; try congruence. intros _.
  destruct (Qle_bool _ _) eqn:E; [reflexivity|].
  apply rnd_finite.
  assert (Hq : (Qabs q < inject_Z (10 ^ 21))%Q).
  { apply Qnot_le_lt. intros Hle. apply Qle_bool_iff in Hle. congruence. }
  pose proof (Qabs_nonneg q) as Hq0. revert Hq Hq0. generalize (Qabs q). intros a Ha Ha0.
  set (x := (a * 100 + (1 # 2))%Q).
  assert (Hx0 : (0 <= x)%Q) by (unfold x; lra).
  assert (Hx1 : (x < inject_Z (10 ^ 23) + (1 # 2))%Q).
  { unfold x. change (inject_Z (10 ^ 23)) with (inject_Z (10 ^ 21) * 100)%Q. lra. }
  assert (Hn0 : 0 <= Qfloor x) by (change 0 with (Qfloor 0); apply Qfloor_resp_le; exact Hx0).
  assert (Hn1 : Qfloor x <= 10 ^ 23).
  { pose proof (Qfloor_le x) as Hf.
    assert (Hlt : (inject_Z (Qfloor x) < inject_Z (10 ^ 23 + 1))%Q).
    { eapply Qle_lt_trans; [exact Hf|]. eapply Qlt_trans; [exact Hx1|]. reflexivity. }
    rewrite <- Zlt_Qlt in Hlt. lia. }
  apply div100_small. destruct (Qltb q 0); lia.
Qed.

Lemma Qeq_bool_compat a a' b : (a == a')%Q -> Qeq_bool a b = Qeq_bool a' b.
Proof.
  intros E. destruct (Qeq_bool a' b) eqn:E'.
  - apply Qeq_bool_iff. apply Qeq_bool_iff in E'. rewrite E. exact E'.
  - destruct (Qeq_bool a b) eqn:E''; [|reflexivity].
    apply Qeq_bool_iff in E''. rewrite E in E''. apply Qeq_bool_iff in E''. congruence.
Qed.

Lemma num_div_zero a : ~ (a == 0)%Q -> num_div num_zero (Fin a) = num_zero.
Proof.
  intros Ha. unfold num_zero. cbn [num_div].
  destruct (Qeq_bool a 0) eqn:E; [apply Qeq_bool_iff in E; contradiction|].
  apply rnd_zero. field. exact Ha.
Qed.

Lemma num_div_not_NaN q a : ~ (a == 0)%Q -> num_div (rnd q) (Fin a) <> NaN.
Proof.
  intros Ha. pose proof (rnd_not_NaN q) as Hq.
  destruct (rnd q) as [|s|p]; cbn [num_div]; try congruence.
  destruct (Qeq_bool a 0) eqn:E; [apply Qeq_bool_iff in E; contradiction|].
  apply rnd_not_NaN.
Qed.

End NumberLemmas.

(** ** Binary64 rounding: the nearest integer and the binade *)

Lemma roundHalfEven_near x :
  (Qabs (inject_Z (roundHalfEven x) - x) <= 1 # 2)%Q.
Proof.
  unfold roundHalfEven. pose proof (Qfloor_le x) as Hlo. pose proof (Qlt_floor x) as Hhi.
  rewrite inject_Z_plus in Hhi. change (inject_Z 1) with 1%Q in Hhi.
  apply Qabs_Qle_condition.
  destruct (x - inject_Z (Qfloor x) ?= 1 # 2)%Q eqn:E.
  - apply Qeq_alt in E. destruct (Z.even (Qfloor x)).
    + split; lra.
    + rewrite inject_Z_plus. change (inject_Z 1) with 1%Q. split; lra.
  - apply Qlt_alt in E. split; lra.
  - apply Qgt_alt in E. rewrite inject_Z_plus. change (inject_Z 1) with 1%Q. split; lra.
Qed.

Lemma roundHalfEven_compat x y : (x == y)%Q -> roundHalfEven x = roundHalfEven y.
Proof.
  intros E. unfold roundHalfEven. rewrite (Qfloor_comp _ _ E).
  replace (x - inject_Z (Qfloor y) ?= 1 # 2)%Q with (y - inject_Z (Qfloor y) ?= 1 # 2)%Q;
    [reflexivity|].
  apply Qcompare_comp; [rewrite E|]; reflexivity.
Qed.

Lemma roundHalfEven_integer x k : (x == inject_Z k)%Q -> roundHalfEven x = k.
Proof.
  intros E. rewrite (roundHalfEven_compat _ _ E). unfold roundHalfEven.
  rewrite Qfloor_Z.
  replace (inject_Z k - inject_Z k ?= 1 # 2)%Q with Lt; [reflexivity|].
  symmetry. apply Qlt_alt. unfold Qminus. rewrite Qplus_opp_r. reflexivity.
Qed.

Lemma pow2_pos (z : Z) : (0 < 2 ^ z)%Q.
Proof. apply Qpower_0_lt. reflexivity. Qed.

Lemma pow2_plus (x y : Z) : (2 ^ (x + y) == 2 ^ x * 2 ^ y)%Q.
Proof. apply Qpower_plus. discriminate. Qed.

Lemma pow2_le (x y : Z) : x <= y -> (2 ^ x <= 2 ^ y)%Q.
Proof. intros Hxy. apply Qpower_le_compat_l; [exact Hxy | discriminate]. Qed.

Lemma pow2_le_inv (x y : Z) : (2 ^ x <= 2 ^ y)%Q -> x <= y.
Proof. intros Hxy. apply (Qpower_le_compat_l_inv 2); [exact Hxy | reflexivity]. Qed.

Lemma pow2_lt_inv (x y : Z) : (2 ^ x < 2 ^ y)%Q -> x < y.
Proof. intros Hxy. apply (Qpower_lt_compat_l_inv 2); [exact Hxy | reflexivity]. Qed.

Lemma pow2_inject (n : Z) : 0 <= n -> (inject_Z (2 ^ n) == 2 ^ n)%Q.
Proof. intros Hn. apply (Zpower_Qpower 2 n Hn). Qed.

Lemma pow2_succ (x : Z) : (2 ^ (x + 1) == 2 * 2 ^ x)%Q.
Proof. rewrite pow2_plus. change (2 ^ 1)%Q with 2%Q. ring. Qed.

(** [a / 2 ^ u * 2 ^ u] is [a]. *)
Lemma pow2_div_mul a (u : Z) : (a / 2 ^ u * 2 ^ u == a)%Q.
Proof. field. apply Qpower_not_0. discriminate. Qed.

Lemma binade_spec a : (0 < a)%Q -> (2 ^ binade a <= a)%Q /\ (a < 2 ^ (binade a + 1))%Q.
Proof.
  intros Ha. destruct a as [n d].
  assert (Hn : 0 < n) by (unfold Qlt in Ha; cbn in Ha; lia).
  unfold binade. cbn [Qnum Qden].
  set (ln := Z.log2 n). set (ld := Z.log2 (Zpos d)).
  destruct (Z.log2_spec n Hn) as [Hn1 Hn2]. fold ln in Hn1, Hn2.
  destruct (Z.log2_spec (Zpos d) eq_refl) as [Hd1 Hd2]. fold ld in Hd1, Hd2.
  assert (Hln : 0 <= ln) by apply Z.log2_nonneg.
  assert (Hld : 0 <= ld) by apply Z.log2_nonneg.
  assert (EN : (n # d == inject_Z n / inject_Z (Zpos d))%Q) by apply Qmake_Qdiv.
  set (N := inject_Z n) in *. set (D := inject_Z (Zpos d)) in *.
  assert (HN1 : (2 ^ ln <= N)%Q).
  { rewrite <- pow2_inject by exact Hln. unfold N. rewrite <- Zle_Qle. exact Hn1. }
  assert (HN2 : (N < 2 * 2 ^ ln)%Q).
  { rewrite <- pow2_succ, <- pow2_inject by lia. unfold N. rewrite <- Zlt_Qlt. exact Hn2. }
  assert (HD1 : (2 ^ ld <= D)%Q).
  { rewrite <- pow2_inject by exact Hld. unfold D. rewrite <- Zle_Qle. exact Hd1. }
  assert (HD2 : (D < 2 * 2 ^ ld)%Q).
  { rewrite <- pow2_succ, <- pow2_inject by lia. unfold D. rewrite <- Zlt_Qlt. exact Hd2. }
  pose proof (pow2_pos ln) as Pn. pose proof (pow2_pos ld) as Pd.
  assert (HD0 : (0 < D)%Q) by lra.
  assert (Ee : (2 ^ (ln - ld) == 2 ^ ln / 2 ^ ld)%Q) by (apply Qpower_minus; discriminate).
  assert (Hup : (N / D < 2 * (2 ^ ln / 2 ^ ld))%Q).
  { apply Qlt_shift_div_r; [exact HD0|].
    apply Qlt_le_trans with (2 * (2 ^ ln / 2 ^ ld) * 2 ^ ld)%Q.
    - assert (E : (2 * (2 ^ ln / 2 ^ ld) * 2 ^ ld == 2 * 2 ^ ln)%Q) by (field; lra).
      rewrite E. exact HN2.
    - apply Qmult_le_l; [|exact HD1].
      apply Qmult_lt_0_compat; [reflexivity|]. apply Qlt_shift_div_l; lra. }
  assert (Hdn : (2 ^ ln / 2 ^ ld <= 2 * (N / D))%Q).
  { apply Qle_shift_div_r; [exact Pd|].
    apply Qle_trans with (N / D * D)%Q.
    { assert (E : (N / D * D == N)%Q) by (field; lra). rewrite E. exact HN1. }
    assert (E : (2 * (N / D) * 2 ^ ld == N / D * (2 * 2 ^ ld))%Q) by ring.
    rewrite E. apply Qmult_le_l; [|lra]. apply Qlt_shift_div_l; lra. }
  destruct (Qle_bool (2 ^ (ln - ld)) (n # d)) eqn:E.
  - apply Qle_bool_iff in E. split; [exact E|].
    rewrite pow2_succ, Ee, EN. exact Hup.
  - assert (Hlt : (n # d < 2 ^ (ln - ld))%Q).
    { apply Qnot_le_lt. intros Hle. apply Qle_bool_iff in Hle. congruence. }
    replace (ln - ld - 1 + 1) with (ln - ld) by lia. split; [|exact Hlt].
    assert (E2 : (2 * 2 ^ (ln - ld - 1) == 2 ^ (ln - ld))%Q).
    { rewrite <- pow2_succ. replace (ln - ld - 1 + 1) with (ln - ld) by lia. reflexivity. }
    rewrite EN. rewrite Ee in E2. lra.
Qed.

(** ** Binary64 rounding: the rounded value *)

Lemma nearest_near a : (Qabs (nearest a - a) <= 2 ^ ulpExp a * (1 # 2))%Q.
Proof.
  unfold nearest. set (u := ulpExp a). pose proof (pow2_pos u) as Pu.
  pose proof (roundHalfEven_near (a / 2 ^ u)) as Hm.
  set (m := inject_Z (roundHalfEven (a / 2 ^ u))) in *.
  assert (E : (m * 2 ^ u - a == (m - a / 2 ^ u) * 2 ^ u)%Q) by (field; lra).
  rewrite E, Qabs_Qmult, (Qabs_pos (2 ^ u)) by lra.
  rewrite (Qmult_comm (2 ^ u)). apply Qmult_le_compat_r; [exact Hm | lra].
Qed.

Lemma ulpExp_small a :
  (0 < a)%Q -> (2 ^ ulpExp a * (1 # 2) <= a * 2 ^ (-53) + 2 ^ (-1075))%Q.
Proof.
  intros Ha. destruct (binade_spec a Ha) as [Hlo _]. unfold ulpExp.
  pose proof (pow2_pos (-1075)) as P1. pose proof (pow2_pos (-53)) as P2.
  destruct (Z.max_spec (binade a - 52) (-1074)) as [[_ ->] | [_ ->]].
  - assert (E : (2 ^ (-1074) * (1 # 2) == 2 ^ (-1075))%Q) by reflexivity.
    rewrite E. assert (0 <= a * 2 ^ (-53))%Q by (apply Qmult_le_0_compat; lra). lra.
  - assert (E : (2 ^ (binade a - 52) * (1 # 2) == 2 ^ binade a * 2 ^ (-53))%Q).
    { replace (binade a - 52) with (binade a + (-53) + 1) by lia.
      rewrite pow2_succ, pow2_plus. field. }
    rewrite E.
    assert (2 ^ binade a * 2 ^ (-53) <= a * 2 ^ (-53))%Q
      by (apply Qmult_le_compat_r; [exact Hlo | lra]).
    lra.
Qed.

Lemma nearest_bounded a :
  (0 < a)%Q -> (a <= 2 ^ 1023)%Q -> (nearest a < 2 ^ 1024)%Q.
Proof.
  intros Ha Hb. destruct (binade_spec a Ha) as [Hlo _].
  assert (He : binade a <= 1023) by (apply pow2_le_inv; lra).
  assert (Hu : ulpExp a <= 971) by (unfold ulpExp; lia).
  pose proof (nearest_near a) as Hn. apply Qabs_Qle_condition in Hn.
  pose proof (pow2_le _ _ Hu) as Hp.
  assert (E : (2 ^ 1024 == 2 ^ 1023 + 2 ^ 1023)%Q) by reflexivity.
  assert (Hlt : (2 ^ 971 * (1 # 2) < 2 ^ 1023)%Q) by reflexivity.
  rewrite E. revert Hn Hp Hlt Hb. clear.
  generalize (2 ^ ulpExp a)%Q (2 ^ 971)%Q (2 ^ 1023)%Q (nearest a). intros U S T n. lra.
Qed.

Lemma nearest_exact a k :
  (a / 2 ^ ulpExp a == inject_Z k)%Q -> (nearest a == a)%Q.
Proof.
  intros E. unfold nearest. rewrite (roundHalfEven_integer _ _ E), <- E.
  apply pow2_div_mul.
Qed.

Lemma Qabs_Qred q : (Qabs (Qred q) == Qabs q)%Q.
Proof. rewrite (Qred_correct q). reflexivity. Qed.

Lemma round64_compat p q : (p == q)%Q -> round64 p = round64 q.
Proof.
  intros E. unfold round64. rewrite (Qred_complete p q E).
  replace (Qltb p 0) with (Qltb q 0); [reflexivity|].
  unfold Qltb. f_equal. destruct (Qle_bool 0 q) eqn:Eq.
  - symmetry. apply Qle_bool_iff. apply Qle_bool_iff in Eq. rewrite E. exact Eq.
  - destruct (Qle_bool 0 p) eqn:Ep; [|reflexivity].
    apply Qle_bool_iff in Ep. rewrite E in Ep. apply Qle_bool_iff in Ep. congruence.
Qed.

Lemma round64_not_NaN q : round64 q <> NaN.
Proof.
  unfold round64. cbv zeta.
  destruct (Qeq_bool _ _); [discriminate|]. destruct (Qle_bool _ _); discriminate.
Qed.

(** Within the range the rounded value is finite and near. *)
Lemma round64_near q :
  (Qabs q <= 2 ^ 1023)%Q ->
  exists r, round64 q = Fin r
            /\ (Qabs (r - q) <= Qabs q * 2 ^ (-53) + 2 ^ (-1075))%Q
            /\ (Qabs (r - q) <= 2 ^ ulpExp (Qabs (Qred q)) * (1 # 2))%Q.
Proof.
  intros Hq. unfold round64. cbv zeta.
  set (a := Qabs (Qred q)).
  assert (Ea : (a == Qabs q)%Q) by apply Qabs_Qred.
  pose proof (Qabs_nonneg (Qred q)) as Hn0. fold a in Hn0. clearbody a.
  pose proof (pow2_pos (-1075)) as P1. pose proof (pow2_pos (-53)) as P2.
  pose proof (pow2_pos (ulpExp a)) as P3.
  destruct (Qeq_bool a 0) eqn:E0.
  - apply Qeq_bool_iff in E0. exists 0%Q. split; [reflexivity|].
    assert (Eq0 : (Qabs q == 0)%Q) by (rewrite <- Ea; exact E0).
    assert (Hz : (Qabs (0 - q) == 0)%Q).
    { assert (E : (0 - q == - q)%Q) by ring. rewrite E, Qabs_opp. exact Eq0. }
    rewrite Hz, Eq0. split; lra.
  - assert (Ha : (0 < a)%Q).
    { destruct (Qle_lt_or_eq _ _ Hn0) as [Hlt | Heq]; [exact Hlt|].
      symmetry in Heq. apply Qeq_bool_iff in Heq. congruence. }
    assert (Hb : (a <= 2 ^ 1023)%Q) by (rewrite Ea; exact Hq).
    pose proof (nearest_bounded a Ha Hb) as Hf.
    destruct (Qle_bool (2 ^ 1024) (nearest a)) eqn:Eo.
    { apply Qle_bool_iff in Eo. lra. }
    eexists. split; [reflexivity|].
    pose proof (nearest_near a) as Hn. pose proof (ulpExp_small a Ha) as Hs.
    assert (Hd : (Qabs (Qred (if Qltb q 0 then - nearest a else nearest a) - q)
                  == Qabs (nearest a - a))%Q).
    { rewrite Qred_correct. unfold Qltb. destruct (Qle_bool 0 q) eqn:Es; cbn [negb].
      - apply Qle_bool_iff in Es. rewrite (Qabs_pos q Es) in Ea. rewrite <- Ea. reflexivity.
      - assert (Hneg : (q <= 0)%Q).
        { apply Qlt_le_weak, Qnot_le_lt. intros Hle. apply Qle_bool_iff in Hle. congruence. }
        rewrite (Qabs_neg q Hneg) in Ea.
        assert (E : (- nearest a - q == - (nearest a - - q))%Q) by ring.
        rewrite E, Qabs_opp, <- Ea. reflexivity. }
    rewrite Hd, <- Ea. split; lra.
Qed.

Lemma round64_integer z : Z.abs z <= 2 ^ 53 -> round64 (inject_Z z) = Fin (inject_Z z).
Proof.
  intros Hz. unfold round64. cbv zeta.
  set (a := Qabs (Qred (inject_Z z))).
  assert (Ea : (a == inject_Z (Z.abs z))%Q).
  { unfold a. rewrite Qabs_Qred. reflexivity. }
  clearbody a. destruct (Qeq_bool a 0) eqn:E0.
  - apply Qeq_bool_iff in E0. rewrite Ea in E0.
    assert (z = 0) by (unfold Qeq in E0; cbn in E0; lia). subst z. reflexivity.
  - assert (Hz0 : 1 <= Z.abs z).
    { destruct (Z.eq_dec z 0) as [-> | Hne]; [|lia].
      exfalso. assert (Hq : Qeq_bool a 0 = true) by (apply Qeq_bool_iff; exact Ea).
      congruence. }
    assert (Ha : (0 < a)%Q) by (rewrite Ea; unfold Qlt; cbn; lia).
    destruct (binade_spec a Ha) as [Hlo Hhi].
    assert (Ha1 : (1 <= a)%Q) by (rewrite Ea; unfold Qle; cbn; lia).
    assert (Ha2 : (a <= 2 ^ 53)%Q).
    { rewrite Ea, <- pow2_inject by lia. rewrite <- Zle_Qle. exact Hz. }
    assert (He0 : 0 <= binade a).
    { assert (Hlt : -1 < binade a); [|lia].
      replace (-1) with (-1 + 1 - 1) by lia.
      assert (0 < binade a + 1); [|lia]. apply pow2_lt_inv.
      change (2 ^ 0)%Q with 1%Q. lra. }
    assert (He1 : binade a <= 53) by (apply pow2_le_inv; lra).
    assert (Hu : ulpExp a = binade a - 52) by (unfold ulpExp; lia).
    assert (Hex : (nearest a == a)%Q).
    { destruct (Z.eq_dec (binade a) 53) as [E53 | Hne].
      - apply (nearest_exact a (2 ^ 52)). rewrite Hu, E53.
        assert (Eq53 : (a == 2 ^ 53)%Q) by (rewrite E53 in Hlo; lra).
        rewrite Eq53. reflexivity.
      - apply (nearest_exact a (Z.abs z * 2 ^ (52 - binade a))). rewrite Hu.
        rewrite inject_Z_mult, pow2_inject by lia. rewrite <- Ea.
        replace (binade a - 52) with (- (52 - binade a)) by lia.
        rewrite Qpower_opp. field. apply Qpower_not_0. discriminate. }
    destruct (Qle_bool (2 ^ 1024) (nearest a)) eqn:Eo.
    { apply Qle_bool_iff in Eo. rewrite Hex in Eo.
      assert (Hlt : (2 ^ 53 < 2 ^ 1024)%Q) by reflexivity. lra. }
    f_equal. rewrite <- (Qred_identity (inject_Z z)) at 2 by (cbn; apply Z.gcd_1_r).
    apply Qred_complete. unfold Qltb.
    destruct (Qle_bool 0 (inject_Z z)) eqn:Es; cbn [negb]; rewrite Hex, Ea.
    + apply Qle_bool_iff in Es. change 0%Q with (inject_Z 0) in Es.
      rewrite <- Zle_Qle in Es. rewrite Z.abs_eq by exact Es. reflexivity.
    + assert (Hneg : z < 0).
      { destruct (Z.le_gt_cases 0 z) as [Hle | Hlt]; [|exact Hlt].
        rewrite Zle_Qle in Hle. apply Qle_bool_iff in Hle.
        change (inject_Z 0) with 0%Q in Hle. congruence. }
      rewrite Z.abs_neq by lia. rewrite inject_Z_opp. ring.
Qed.

(** ** The proposed density *)

Lemma Qabs_diff_le x y b : (Qabs (x - y) <= b)%Q -> (y - b <= x <= y + b)%Q.
Proof. intros Hb. apply Qabs_Qle_condition in Hb. split; lra. Qed.

Lemma Qabs_le_of x b : (- b <= x)%Q -> (x <= b)%Q -> (Qabs x <= b)%Q.
Proof. intros H1 H2. apply Qabs_Qle_condition. split; assumption. Qed.

Lemma Qmult_le_nonneg_l a b c : (0 <= a)%Q -> (b <= c)%Q -> (a * b <= a * c)%Q.
Proof.
  intros Ha Hbc. rewrite (Qmult_comm a b), (Qmult_comm a c).
  apply Qmult_le_compat_r; assumption.
Qed.

Section DensityLemmas.
Context {H : Host} {L : HostLaws H} {R : HostRounding H}.

(** The rounding error in decimal bounds, well inside the range. *)
Lemma rnd_close q :
  (Qabs q <= inject_Z (10 ^ 30))%Q ->
  exists r, rnd q = Fin r
            /\ (Qabs (r - q) <= Qabs q * (1 # 4000000000000000) + 2 ^ (-1075))%Q.
Proof.
  intros Hq. destruct (rnd_near q) as (r & Hr & Hn).
  - eapply Qle_trans; [exact Hq|]. rewrite <- pow2_inject by lia.
    rewrite <- Zle_Qle. vm_compute. discriminate.
  - exists r. split; [exact Hr|]. eapply Qle_trans; [exact Hn|].
    apply Qplus_le_l. apply Qmult_le_nonneg_l; [apply Qabs_nonneg|].
    apply Qlt_le_weak. reflexivity.
Qed.

Lemma areaFloor_near :
  exists f, areaFloor = Fin f
            /\ (Qabs (f - (1 # 1000000)) <= 1 # 1000000000000000000000)%Q.
Proof.
  destruct (rnd_close (1 # 1000000)) as (f & Hf & Hn).
  - apply Qlt_le_weak. reflexivity.
  - exists f. split; [exact Hf|]. eapply Qle_trans; [exact Hn|].
    apply Qlt_le_weak. reflexivity.
Qed.

Lemma areaFloor_pos :
  exists f, areaFloor = Fin f /\ forall a, ~ (Qmax f a == 0)%Q.
Proof.
  destruct areaFloor_near as (f & Hf & Hn). exists f. split; [exact Hf|].
  intros a E. apply Qabs_diff_le in Hn. pose proof (Q.le_max_l f a) as Hle. lra.
Qed.

(** [toFixed(2)] read back: the decimal with two digits nearest to [q]. *)
Lemma toFixed2_near q :
  (Qabs q < inject_Z (10 ^ 21))%Q ->
  exists n : Z, toFixed2 (Fin q) = rnd (inject_Z n / 100)
                /\ (Qabs (inject_Z n / 100 - q) <= 1 # 200)%Q.
Proof.
  intros Hq. cbn [toFixed2].
  destruct (Qle_bool (inject_Z (10 ^ 21)) (Qabs q)) eqn:E.
  { apply Qle_bool_iff in E. exfalso. apply (Qlt_not_le _ _ Hq E). }
  set (n0 := Qfloor (Qabs q * 100 + (1 # 2))).
  pose proof (Qfloor_le (Qabs q * 100 + (1 # 2))) as Hlo.
  pose proof (Qlt_floor (Qabs q * 100 + (1 # 2))) as Hhi.
  fold n0 in Hlo, Hhi. rewrite inject_Z_plus in Hhi. change (inject_Z 1) with 1%Q in Hhi.
  eexists. split; [reflexivity|]. unfold Qdiv. change (/ 100)%Q with (1 # 100)%Q.
  destruct (Qltb q 0) eqn:Es.
  - apply Qltb_lt in Es. rewrite (Qabs_neg q) in Hlo, Hhi by lra.
    rewrite inject_Z_opp. apply Qabs_le_of; lra.
  - apply Qltb_ge in Es. rewrite (Qabs_pos q Es) in Hlo, Hhi.
    apply Qabs_le_of; lra.
Qed.

Lemma computeProposedADA_rounds gd hs ac g h a f :
  toNum gd = Fin g -> toNum hs = Fin h -> toNum ac = Fin a -> areaFloor = Fin f ->
  (Qmax 0 g * Qmax 0 h <= inject_Z (10 ^ 12))%Q ->
  exists n : Z,
    computeProposedADA gd hs ac = rnd (inject_Z n / 100)
    /\ (Qabs (inject_Z n / 100 - Qmax 0 g * Qmax 0 h / Qmax f a)
        <= (1 # 200) + Qmax 0 g * Qmax 0 h / Qmax f a * 10 ^ (-15) + 10 ^ (-300))%Q
    /\ Number_isFinite (computeProposedADA gd hs ac) = true.
Proof.
  intros Hg Hh Ha Hf HP. unfold computeProposedADA, num_zero.
  rewrite Hg, Hh, Ha, Hf, !Math_max_Fin. cbn [num_mul].
  destruct areaFloor_near as (f' & Hf' & Hfn). rewrite Hf in Hf'. injection Hf' as <-.
  apply Qabs_diff_le in Hfn.
  pose proof (Q.le_max_l 0 g) as HD. pose proof (Q.le_max_l 0 h) as HH.
  pose proof (Q.le_max_l f a) as HA.
  set (D := Qmax 0 g) in *. set (Hd := Qmax 0 h) in *. set (A := Qmax f a) in *.
  set (P := (D * Hd)%Q) in *.
  assert (HP0 : (0 <= P)%Q) by (apply Qmult_le_0_compat; assumption).
  assert (HA0 : (1 # 2000000 <= A)%Q) by lra.
  set (iA := (/ A)%Q).
  assert (HiA0 : (0 < iA)%Q) by (apply Qinv_lt_0_compat; lra).
  assert (HiA1 : (iA <= 2000000)%Q).
  { apply Qle_shift_inv_r; [lra|]. lra. }
  set (t := (2 ^ (-1075))%Q).
  assert (Ht0 : (0 < t)%Q) by apply pow2_pos.
  assert (Ht1 : (t * 4000000 <= 10 ^ (-300))%Q) by (apply Qlt_le_weak; reflexivity).
  assert (Hc : ((1 # 1000000000000000) == 10 ^ (-15))%Q) by reflexivity.
  assert (Ht2 : (10 ^ (-300) <= 1)%Q) by (apply Qlt_le_weak; reflexivity).
  (* the product *)
  destruct (rnd_close P) as (p & Hp & Hpn).
  { rewrite (Qabs_pos P HP0). eapply Qle_trans; [exact HP|].
    rewrite <- Zle_Qle. vm_compute. discriminate. }
  rewrite (Qabs_pos P HP0) in Hpn. fold t in Hpn. apply Qabs_diff_le in Hpn.
  rewrite Hp. cbn [num_div].
  destruct (Qeq_bool A 0) eqn:EA.
  { apply Qeq_bool_iff in EA. lra. }
  (* the quotient *)
  set (x := (P * iA)%Q).
  assert (Hx : (P / A == x)%Q) by reflexivity.
  assert (Hx0 : (0 <= x)%Q) by (apply Qmult_le_0_compat; lra).
  assert (Hx1 : (x <= 2000000000000000000)%Q).
  { apply Qle_trans with (inject_Z (10 ^ 12) * iA)%Q.
    - apply Qmult_le_compat_r; [exact HP | lra].
    - apply Qle_trans with (inject_Z (10 ^ 12) * 2000000)%Q.
      + apply Qmult_le_nonneg_l; [|exact HiA1]. apply Qlt_le_weak. reflexivity.
      + apply Qle_lteq. right. reflexivity. }
  set (z := (t * iA)%Q).
  assert (Hz0 : (0 <= z)%Q) by (apply Qmult_le_0_compat; lra).
  assert (Hz1 : (z <= t * 2000000)%Q) by (apply Qmult_le_nonneg_l; lra).
  set (y := ((p - P) * iA)%Q).
  assert (Hw : (p / A == x + y)%Q) by (unfold x, y, Qdiv; fold iA; ring).
  assert (Hy : (- (x * (1 # 4000000000000000) + z) <= y
                /\ y <= x * (1 # 4000000000000000) + z)%Q).
  { assert (E : (x * (1 # 4000000000000000) + z
                 == (P * (1 # 4000000000000000) + t) * iA)%Q) by (unfold x, z; ring).
    rewrite E. unfold y. split.
    - assert (E2 : (- ((P * (1 # 4000000000000000) + t) * iA)
                    == (- (P * (1 # 4000000000000000) + t)) * iA)%Q) by ring.
      rewrite E2. apply Qmult_le_compat_r; lra.
    - apply Qmult_le_compat_r; lra. }
  set (w := (p / A)%Q) in *.
  assert (Hwb : (Qabs w <= x + (x * (1 # 4000000000000000) + z))%Q).
  { apply Qabs_le_of; lra. }
  destruct (rnd_close w) as (q & Hq & Hqn).
  { eapply Qle_trans; [exact Hwb|].
    apply Qle_trans with 3000000000000000000%Q; [lra|].
    rewrite <- (Zle_Qle 3000000000000000000). vm_compute. discriminate. }
  assert (Hqn' : (Qabs (q - w)
                  <= (x + (x * (1 # 4000000000000000) + z)) * (1 # 4000000000000000) + t)%Q).
  { fold t in Hqn. eapply Qle_trans; [exact Hqn|]. apply Qplus_le_l.
    apply Qmult_le_compat_r; [exact Hwb | discriminate]. }
  apply Qabs_diff_le in Hqn'. rewrite Hq.
  destruct (toFixed2_near q) as (n & Hn & Hnn).
  { apply Qle_lt_trans with 4000000000000000000%Q.
    - apply Qabs_le_of; lra.
    - rewrite <- (Zlt_Qlt 4000000000000000000). reflexivity. }
  exists n. apply Qabs_diff_le in Hnn. split; [exact Hn|]. split.
  - rewrite Hx, <- Hc. unfold Qdiv in *. change (/ 100)%Q with (1 # 100)%Q in *.
    apply Qabs_le_of; lra.
  - rewrite Hn. apply rnd_finite.
    apply Qle_trans with 5000000000000000000%Q.
    + unfold Qdiv in *. change (/ 100)%Q with (1 # 100)%Q in *. apply Qabs_le_of; lra.
    + rewrite <- (Zle_Qle 5000000000000000000). vm_compute. discriminate.
Qed.

End DensityLemmas.

(** ** The sample host meets the laws *)

Lemma sampleHost_laws legacy : HostLaws (sampleHost legacy).
Proof.
  constructor; cbn [rnd sampleHost].
  - exact round64_compat.
  - exact round64_integer.
  - exact round64_not_NaN.
  - intros q Hq. destruct (round64_near q) as (r & -> & _); [|reflexivity].
    rewrite <- pow2_inject by lia. exact Hq.
Qed.

Lemma sampleHost_rounding legacy : HostRounding (sampleHost legacy).
Proof.
  constructor. cbn [rnd sampleHost]. intros q Hq.
  destruct (round64_near q Hq) as (r & Hr & Hn & _). exists r. split; assumption.
Qed.

(** ** Day arithmetic on ISO texts, and the schedule loop *)

Lemma isoDay_formatDay n :
  DayFromYear 1 <= n < DayFromYear 10000 -> isoDay (formatDay n) = Some n.
Proof.
  intros Hn. destruct (formatDay_isoText n Hn) as (y & m & d & _ & Hy & Hv & Hmk & ->).
  pose proof Hv as Hv'. unfold validateDate in Hv'.
  rewrite !andb_true_iff, !Z.leb_le in Hv'.
  pose proof (daysInMonths_le y (m - 1)) as Hd.
  unfold isoDay, isoText, fourDigits, twoDigits. simpl_append.
  cbn [Ascii.eqb Bool.eqb andb].
  rewrite digits4_fourDigits, !digits2_twoDigits by lia. rewrite Hv, Hmk. reflexivity.
Qed.

Lemma formatDay_nonempty n :
  DayFromYear 1 <= n < DayFromYear 10000 -> exists c s, formatDay n = String c s.
Proof.
  intros Hn. destruct (formatDay_isoText n Hn) as (y & m & d & _ & _ & _ & _ & ->).
  unfold isoText, fourDigits. simpl_append. eauto.
Qed.

Lemma truncQ_integer q k : (q == inject_Z k)%Q -> truncQ q = k.
Proof.
  unfold Qeq, truncQ, inject_Z. cbn [Qnum Qden]. intros E.
  rewrite Z.mul_1_r in E. rewrite E. apply Z.quot_mul. discriminate.
Qed.

Lemma Day_mul n : Day (n * msPerDay) = n.
Proof. unfold Day. apply Z.div_mul. discriminate. Qed.

Lemma TimeWithinDay_mul n : TimeWithinDay (n * msPerDay) = 0.
Proof. unfold TimeWithinDay. apply Z.mod_mul. discriminate. Qed.

Lemma TimeClip_day n : Z.abs n <= 100000000 -> TimeClip (n * msPerDay) = Some (n * msPerDay).
Proof.
  intros Hn. unfold TimeClip, msPerDay, maxTime.
  destruct (_ <=? _) eqn:E; [reflexivity|]. apply Z.leb_gt in E. lia.
Qed.

Section ScheduleLemmas.
Context {H : Host} {L : HostLaws H}.

Lemma rnd_integer_eq q z :
  (q == inject_Z z)%Q -> Z.abs z <= 2 ^ 53 -> rnd q = Fin (inject_Z z).
Proof. intros E Hz. rewrite (rnd_compat _ _ E). apply rnd_integer, Hz. Qed.

Lemma setDate_day n z :
  Z.abs (n + z - getDate (n * msPerDay)) <= 100000000 ->
  setDate (n * msPerDay) (Fin (inject_Z z))
  = Some ((n + z - getDate (n * msPerDay)) * msPerDay).
Proof.
  unfold setDate, getDate. rewrite Day_mul, TimeWithinDay_mul.
  destruct (civil n) as [[y m] d] eqn:E. cbn [snd]. intros Hr.
  destruct (civil_spec _ _ _ _ E) as (_ & Hmk & _).
  rewrite (truncQ_integer _ z) by reflexivity.
  rewrite Z.add_0_r. unfold MakeDay in *.
  replace (DayFromYear y + monthStart y m + z - 1) with (n + z - d) by lia.
  apply TimeClip_day. exact Hr.
Qed.

Lemma getDate_range n : 1 <= getDate (n * msPerDay) <= 31.
Proof.
  unfold getDate. rewrite Day_mul. destruct (civil n) as [[y m] d] eqn:E. cbn [snd].
  destruct (civil_spec _ _ _ _ E) as (_ & _ & Hv). unfold validateDate in Hv.
  rewrite !andb_true_iff, !Z.leb_le in Hv. pose proof (daysInMonths_le y m). lia.
Qed.

Lemma addDays_integer n q k :
  (q == inject_Z k)%Q -> Z.abs n <= 10000000 -> Z.abs k <= 10000000 ->
  addDays (Some (n * msPerDay)) (Fin q) = Some ((n + k) * msPerDay).
Proof.
  intros E Hn Hk. pose proof (getDate_range n) as Hd.
  assert (Hbig : 20000000 <= 2 ^ 53) by (vm_compute; discriminate).
  assert (Hset : forall q', (q' == inject_Z k)%Q -> k <> 0 ->
     setDate (n * msPerDay) (num_add (Fin (inject_Z (getDate (n * msPerDay)))) (Fin q'))
     = Some ((n + k) * msPerDay)).
  { intros q' E' Hk0. cbn [num_add].
    rewrite (rnd_integer_eq _ (getDate (n * msPerDay) + k)).
    - rewrite setDate_day; [f_equal; lia | lia].
    - rewrite E', inject_Z_plus. reflexivity.
    - lia. }
  assert (Hz : forall q', (q' == inject_Z k)%Q -> Qeq_bool q' 0 = true -> k = 0).
  { intros q' E' Hq. apply Qeq_bool_iff in Hq. rewrite E' in Hq.
    change 0%Q with (inject_Z 0) in Hq. apply (proj1 (inject_Z_injective _ _)) in Hq. exact Hq. }
  assert (Hnz : forall q', (q' == inject_Z k)%Q -> Qeq_bool q' 0 = false -> k <> 0).
  { intros q' E' Hq ->. rewrite (Qeq_bool_compat _ _ _ E') in Hq. discriminate. }
  unfold addDays. destruct legacyDateFns.
  - cbn [toInteger isZero]. rewrite (truncQ_integer _ _ E).
    destruct (Qeq_bool (inject_Z k) 0) eqn:E0.
    + rewrite (Hz _ ltac:(reflexivity) E0). f_equal. lia.
    + apply Hset; [reflexivity | apply (Hnz (inject_Z k)); [reflexivity | exact E0]].
  - cbn [isZero]. destruct (Qeq_bool q 0) eqn:E0.
    + rewrite (Hz _ E E0). f_equal. lia.
    + apply Hset; [exact E | apply (Hnz q E E0)].
Qed.

Lemma DayFromYear_1 : DayFromYear 1 = -719162.
Proof. reflexivity. Qed.
Lemma DayFromYear_10000 : DayFromYear 10000 = 2932897.
Proof. reflexivity. Qed.

Lemma addDaysISO_integer n q k :
  (q == inject_Z k)%Q ->
  DayFromYear 1 <= n < DayFromYear 10000 ->
  DayFromYear 1 <= n + k <= DayFromYear 10000 ->
  addDaysISO (formatDay n) (Fin q) = Ok (formatDay (n + k)).
Proof.
  intros E Hn Hk. rewrite DayFromYear_1, DayFromYear_10000 in *.
  unfold addDaysISO. rewrite parseISO_formatDay by (rewrite DayFromYear_1, DayFromYear_10000; lia).
  cbn [isValid]. rewrite (addDays_integer n q k E) by lia.
  cbn [format]. rewrite Day_mul. reflexivity.
Qed.

Lemma Math_max_pos q : Qltb 0 q = true -> Math_max num_zero (Fin q) = Fin q.
Proof. intros E. unfold Math_max, num_zero, num_ltb. rewrite E. reflexivity. Qed.

Lemma Math_max_nonpos q : Qltb 0 q = false -> Math_max num_zero (Fin q) = num_zero.
Proof. intros E. unfold Math_max, num_zero, num_ltb. rewrite E. reflexivity. Qed.

Lemma Qltb_0_integer q k : (q == inject_Z k)%Q -> Qltb 0 q = (0 <? k).
Proof.
  intros E. destruct (0 <? k) eqn:Ek.
  - apply Qltb_lt. rewrite E. change 0%Q with (inject_Z 0). rewrite <- Zlt_Qlt. lia.
  - apply Qltb_ge. rewrite E. change 0%Q with (inject_Z 0). rewrite <- Zle_Qle. lia.
Qed.

Lemma total_nonneg durs : 0 <= totalSpan durs.
Proof.
  induction durs as [|k ks IH]; [cbn; lia|].
  change (0 <= span k + totalSpan ks). unfold span. lia.
Qed.

Lemma schedule_dated out : forall durs n,
  Forall2 durationOf out durs ->
  DayFromYear 1 <= n -> n + totalSpan durs <= DayFromYear 10000 ->
  schedule (formatDay n) out = Ok (dated n out durs).
Proof.
  induction out as [|r rs IH]; intros durs n HF Hlo Hhi.
  - destruct durs; reflexivity.
  - inversion HF as [|? k ? ks Hr Hrs]; subst. clear HF.
    change (n + (span k + totalSpan ks) <= DayFromYear 10000) in Hhi.
    pose proof (total_nonneg ks) as Ht. assert (Hsp : 1 <= span k) by (unfold span; lia).
    assert (Hn : DayFromYear 1 <= n < DayFromYear 10000) by lia.
    destruct Hr as (q & Hq & Eq).
    pose proof DayFromYear_1 as D1. pose proof DayFromYear_10000 as D2.
    unfold span in *.
    cbn [schedule dated].
    destruct (formatDay_nonempty n Hn) as (c & s & Ef).
    destruct (formatDay n) as [|c' s'] eqn:Ef0; [discriminate Ef|]. clear Ef. rewrite <- Ef0.
    rewrite Hq.
    assert (He : (if num_ltb num_zero (Math_max num_zero (Fin q))
                  then addDaysISO (formatDay n) (num_sub (Math_max num_zero (Fin q)) (Fin 1))
                  else Ok (formatDay n)) = Ok (formatDay (n + span k - 1))).
    { unfold span. pose proof (Qltb_0_integer q k Eq) as Hs. destruct (0 <? k) eqn:Ek.
      - rewrite (Math_max_pos q Hs). cbn [num_ltb num_zero]. rewrite Hs.
        apply Z.ltb_lt in Ek. rewrite Z.max_r by lia.
        assert (Hbig : 10000000 <= 2 ^ 53) by (vm_compute; discriminate).
        unfold num_sub. cbn [num_neg num_add].
        rewrite (rnd_integer_eq _ (k - 1)).
        + replace (n + k - 1) with (n + (k - 1)) by lia.
          apply addDaysISO_integer; [reflexivity | lia | lia].
        + rewrite Eq. unfold Zminus. rewrite inject_Z_plus. reflexivity.
        + lia.
      - rewrite (Math_max_nonpos q Hs). cbn [num_ltb num_zero]. change (Qltb 0 0) with false.
        apply Z.ltb_ge in Ek. rewrite Z.max_l by lia.
        replace (n + 1 - 1) with n by lia. reflexivity. }
    rewrite He. cbn [bind].
    fold (span k) in *.
    replace (addDaysISO (formatDay (n + span k - 1)) (Fin 1))
      with (Ok (A := string) (formatDay (n + span k))).
    + cbn [bind]. rewrite (IH ks (n + span k)) by (assumption || lia). reflexivity.
    + symmetry. replace (n + span k) with (n + span k - 1 + 1) at 2 by lia.
      apply addDaysISO_integer; [reflexivity | lia | lia].
Qed.
End ScheduleLemmas.

(** ** Windows *)

Lemma startOf_0 n durs : startOf n durs 0 = n.
Proof. unfold startOf. rewrite take_0. cbn. lia. Qed.

Lemma startOf_cons n k ks i : startOf n (k :: ks) (S i) = startOf (n + span k) ks i.
Proof.
  unfold startOf. cbn [take].
  change (totalSpan (k :: take i ks)) with (span k + totalSpan (take i ks)). lia.
Qed.

Lemma startOf_S n durs i k :
  durs !! i = Some k -> startOf n durs (S i) = startOf n durs i + span k.
Proof.
  revert n i. induction durs as [|k' ks IH]; intros n i Hk; [discriminate|].
  destruct i as [|i].
  - injection Hk as ->. rewrite startOf_cons, !startOf_0. reflexivity.
  - rewrite !startOf_cons. apply IH. exact Hk.
Qed.

Lemma startOf_bounds n durs i k :
  durs !! i = Some k -> n <= startOf n durs i /\ startOf n durs i + span k <= n + totalSpan durs.
Proof.
  revert n i. induction durs as [|k' ks IH]; intros n i Hk; [discriminate|].
  change (totalSpan (k' :: ks)) with (span k' + totalSpan ks).
  pose proof (total_nonneg ks). assert (1 <= span k') by (unfold span; lia).
  destruct i as [|i].
  - injection Hk as ->. rewrite startOf_0. lia.
  - rewrite startOf_cons. destruct (IH (n + span k') i Hk). lia.
Qed.

Lemma dated_lookup out : forall durs n i r,
  dated n out durs !! i = Some r ->
  exists r0 k, out !! i = Some r0 /\ durs !! i = Some k /\
    r = set_dates (formatDay (startOf n durs i))
                  (formatDay (startOf n durs i + span k - 1)) r0.
Proof.
  induction out as [|r0 rs IH]; intros durs n i r Hr; [discriminate|].
  destruct durs as [|k ks]; [discriminate|]. cbn [dated] in Hr.
  destruct i as [|i].
  - injection Hr as <-. exists r0, k. rewrite startOf_0. auto.
  - destruct (IH ks (n + span k) i r Hr) as (r1 & k1 & H1 & H2 & H3).
    exists r1, k1. rewrite startOf_cons. auto.
Qed.

Lemma dated_length out : forall durs n,
  length out = length durs -> length (dated n out durs) = length out.
Proof.
  induction out as [|r rs IH]; intros [|k ks] n Hl; try discriminate; [reflexivity|].
  cbn [dated length]. f_equal. apply IH. injection Hl as Hl. exact Hl.
Qed.

(** ** The schedule loop and the fields of a row *)

Lemma set_dates_undated s e r r' : undated r = undated r' -> set_dates s e r = set_dates s e r'.
Proof.
  unfold undated, set_dates. intros E.
  injection E as -> -> -> -> -> -> -> -> -> -> ->. reflexivity.
Qed.

Lemma undated_inv r r' : undated r' = undated r -> r' = set_dates (startDate r') (endDate r') r.
Proof.
  destruct r, r'. unfold undated, set_dates. cbn. intros E. injection E. intros. subst. reflexivity.
Qed.

Lemma derivedOf_set_dates s e r : derivedOf (set_dates s e r) = (proposedADA r, s, e).
Proof. reflexivity. Qed.

Lemma grazingDays_undated r r' : undated r = undated r' -> grazingDays r = grazingDays r'.
Proof. unfold undated, set_dates. intros E. injection E. auto. Qed.

Section LoopLemmas.
Context {H : Host}.

Lemma schedule_empty out : schedule "" out = Ok (map (set_dates "" "") out).
Proof.
  induction out as [|r rs IH]; [reflexivity|]. cbn [schedule map]. rewrite IH. reflexivity.
Qed.

(** The loop reads the rows only up to their dates. *)
Lemma schedule_undated l l' :
  Forall2 (fun r r' => undated r = undated r') l l' ->
  forall cs, schedule cs l = schedule cs l'.
Proof.
  induction 1 as [|r r' rs rs' Hr Hrs IH]; intros cs; [reflexivity|].
  cbn [schedule]. rewrite (grazingDays_undated _ _ Hr).
  destruct cs as [|c s].
  - rewrite IH, (set_dates_undated _ _ _ _ Hr). reflexivity.
  - destruct (if num_ltb num_zero _ then _ else _) as [e|]; cbn [bind]; [|reflexivity].
    destruct (addDaysISO e (Fin 1)) as [next|]; cbn [bind]; [|reflexivity].
    rewrite IH, (set_dates_undated _ _ _ _ Hr). reflexivity.
Qed.

(** The loop writes the dates only. *)
Lemma schedule_frame l : forall cs out,
  schedule cs l = Ok out -> Forall2 (fun r r' => undated r' = undated r) l out.
Proof.
  induction l as [|r rs IH]; intros cs out Hs.
  - injection Hs as <-. constructor.
  - cbn [schedule] in Hs. destruct cs as [|c s].
    + destruct (schedule "" rs) as [rest|] eqn:E; [|discriminate].
      injection Hs as <-. constructor; [reflexivity | eapply IH; eassumption].
    + destruct (if num_ltb num_zero _ then _ else _) as [e|]; cbn [bind] in Hs; [|discriminate].
      destruct (addDaysISO e (Fin 1)) as [next|]; cbn [bind] in Hs; [|discriminate].
      destruct (schedule next rs) as [rest|] eqn:E; [|discriminate].
      injection Hs as <-. constructor; [reflexivity | eapply IH; eassumption].
Qed.

End LoopLemmas.

(** ** The summer window *)

Lemma intersects_iff s e s' e' :
  s <= e -> s' <= e' -> (intersects s e s' e' <-> s <= e' /\ s' <= e).
Proof.
  intros Hse Hse'. unfold intersects. split.
  - intros (t & Ht & Ht'). lia.
  - intros [H1 H2]. exists (Z.max s s'). lia.
Qed.

Lemma summer_order y : summerStartT y <= summerEndT y.
Proof. unfold summerStartT, summerEndT, MakeDay, msPerDay. cbn [monthStart]. lia. Qed.

Section WindowLemmas.
Context {H : Host}.

Lemma parseISO_isoText y m d :
  0 <= y <= 9999 -> validateDate y (m - 1) d = true ->
  parseISO (isoText y m d) = Some (MakeDay y (m - 1) d * msPerDay).
Proof.
  intros Hy Hv. unfold parseISO. rewrite allDateChars_isoText, parseDateOnly_isoText by assumption.
  unfold isoText, fourDigits. simpl_append. reflexivity.
Qed.

Lemma parseISO_summerStart y :
  1000 <= y <= 9999 -> parseISO (intString y ++ "-07-15") = Some (summerStartT y).
Proof.
  intros Hy. rewrite intString_4 by exact Hy.
  change (fourDigits y ++ "-07-15")%string with (isoText y 7 15).
  rewrite parseISO_isoText; [reflexivity | lia | reflexivity].
Qed.

Lemma parseISO_summerEnd y :
  1000 <= y <= 9999 -> parseISO (intString y ++ "-09-15") = Some (summerEndT y).
Proof.
  intros Hy. rewrite intString_4 by exact Hy.
  change (fourDigits y ++ "-09-15")%string with (isoText y 9 15).
  rewrite parseISO_isoText; [reflexivity | lia | reflexivity].
Qed.

Lemma areIntervalsOverlapping_ordered s e s' e' :
  s <= e -> s' <= e' ->
  areIntervalsOverlapping (Some s) (Some e) (Some s') (Some e')
  = Ok ((s <=? e') && (s' <=? e)).
Proof.
  intros Hse Hse'. unfold areIntervalsOverlapping, sortInterval, leDate.
  destruct legacyDateFns.
  - rewrite (proj2 (Z.leb_le s e) Hse), (proj2 (Z.leb_le s' e') Hse'). reflexivity.
  - rewrite !Z.min_l, !Z.max_r by assumption. reflexivity.
Qed.

Lemma summerLoop_spec fuel : forall y s e,
  s <= e -> 1000 <= y -> y + Z.of_nat fuel - 1 <= 9999 ->
  exists b, summerLoop fuel y (Some s) (Some e) = Ok b
    /\ (b = true <-> exists y', y <= y' < y + Z.of_nat fuel
                                /\ s <= summerEndT y' /\ summerStartT y' <= e).
Proof.
  induction fuel as [|fuel IH]; intros y s e Hse Hlo Hhi.
  - exists false. split; [reflexivity|]. split; [discriminate|]. intros (y' & Hy' & _). lia.
  - cbn [summerLoop]. rewrite parseISO_summerStart, parseISO_summerEnd by lia.
    rewrite areIntervalsOverlapping_ordered by (assumption || apply summer_order).
    cbn [bind]. destruct ((s <=? summerEndT y) && (summerStartT y <=? e)) eqn:Ehit.
    + exists true. split; [reflexivity|]. split; [|reflexivity]. intros _.
      apply andb_prop in Ehit. destruct Ehit as [H1 H2]. apply Z.leb_le in H1, H2.
      exists y. lia.
    + destruct (IH (y + 1) s e Hse ltac:(lia) ltac:(lia)) as (b & Hb & Hiff).
      exists b. split; [exact Hb|]. rewrite Hiff. split.
      * intros (y' & Hy' & Hh). exists y'. split; [lia | exact Hh].
      * intros (y' & Hy' & H1 & H2). destruct (Z.eq_dec y' y) as [-> | Hne].
        -- apply andb_false_iff in Ehit.
           destruct Ehit as [Ehit | Ehit]; apply Z.leb_gt in Ehit; lia.
        -- exists y'. split; [lia | auto].
Qed.

Lemma Day_mono a b : a <= b -> Day a <= Day b.
Proof. intros. unfold Day. apply Z.div_le_mono; [reflexivity | assumption]. Qed.

Lemma overlapsSummerWindow_invalid (startISO endISO : string) :
  parseISO startISO = None \/ parseISO endISO = None ->
  overlapsSummerWindow startISO endISO = Ok false.
Proof.
  unfold overlapsSummerWindow. intros [-> | ->]; [reflexivity|].
  destruct (parseISO startISO); reflexivity.
Qed.

Lemma overlapsSummerWindow_july_2025 :
  overlapsSummerWindow "2025-07-01" "2025-07-20" = Ok true.
Proof.
  unfold overlapsSummerWindow.
  cbn [parseISO allDateChars isDateChar digitVal Ascii.eqb Bool.eqb andb].
  replace (parseDateOnly "2025-07-01") with (Some 1751328000000) by (vm_compute; reflexivity).
  replace (parseDateOnly "2025-07-20") with (Some 1752969600000) by (vm_compute; reflexivity).
  replace (getFullYear 1751328000000) with 2025 by (vm_compute; reflexivity).
  replace (getFullYear 1752969600000) with 2025 by (vm_compute; reflexivity).
  change (Z.to_nat (2025 - 2025 + 1)) with 1%nat. cbn [summerLoop].
  rewrite parseISO_summerStart, parseISO_summerEnd by lia.
  rewrite areIntervalsOverlapping_ordered by (vm_compute; discriminate).
  reflexivity.
Qed.

Lemma overlapsSummerWindow_january_2025 :
  overlapsSummerWindow "2025-01-01" "2025-02-01" = Ok false.
Proof.
  unfold overlapsSummerWindow.
  cbn [parseISO allDateChars isDateChar digitVal Ascii.eqb Bool.eqb andb].
  replace (parseDateOnly "2025-01-01") with (Some 1735689600000) by (vm_compute; reflexivity).
  replace (parseDateOnly "2025-02-01") with (Some 1738368000000) by (vm_compute; reflexivity).
  replace (getFullYear 1735689600000) with 2025 by (vm_compute; reflexivity).
  replace (getFullYear 1738368000000) with 2025 by (vm_compute; reflexivity).
  change (Z.to_nat (2025 - 2025 + 1)) with 1%nat. cbn [summerLoop].
  rewrite parseISO_summerStart, parseISO_summerEnd by lia.
  rewrite areIntervalsOverlapping_ordered by (vm_compute; discriminate).
  reflexivity.
Qed.
End WindowLemmas.

(** ** The route *)

Lemma mapResult_all_ok {A B : Type} (f : A -> result B) (g : A -> B) (l : list A) :
  (forall x, In x l -> f x = Ok (g x)) -> mapResult f l = Ok (map g l).
Proof.
  induction l as [|x xs IH]; intros Hf; [reflexivity|].
  cbn [mapResult map]. rewrite (Hf x (or_introl eq_refl)). cbn [bind].
  rewrite IH; [reflexivity|]. intros y Hy. apply Hf. right. exact Hy.
Qed.

Lemma mapResult_throws {A B : Type} (f : A -> result B) (l : list A) :
  mapResult f l = Throw -> exists x, In x l /\ f x = Throw.
Proof.
  induction l as [|a l' IH]; intros Hm; [discriminate|].
  cbn [mapResult] in Hm. destruct (f a) as [y|] eqn:Ea; cbn [bind] in Hm.
  - destruct (mapResult f l') as [ys'|] eqn:El; cbn [bind] in Hm; [discriminate|].
    destruct (IH eq_refl) as (x & Hin & Hx). exists x. split; [right; exact Hin | exact Hx].
  - exists a. split; [left; reflexivity | exact Ea].
Qed.

Lemma omap_cons_unfold {A B : Type} (f : A -> option B) x xs :
  omap f (x :: xs) = match f x with Some y => y :: omap f xs | None => omap f xs end.
Proof. reflexivity. Qed.

Lemma omap_In {A B : Type} (f : A -> option B) l x y :
  In x l -> f x = Some y -> In y (omap f l).
Proof.
  induction l as [|a l' IH]; intros Hin Hf; [contradiction|].
  rewrite omap_cons_unfold. destruct Hin as [-> | Hin].
  - rewrite Hf. left. reflexivity.
  - destruct (f a); [right|]; apply IH; assumption.
Qed.

Lemma omap_skip {A B : Type} (f : A -> option B) l1 x l2 :
  f x = None -> omap f (l1 ++ x :: l2)%list = omap f (l1 ++ l2)%list.
Proof.
  intros Hx. induction l1 as [|a l1' IH]; cbn [app].
  - rewrite omap_cons_unfold, Hx. reflexivity.
  - rewrite !omap_cons_unfold, IH. reflexivity.
Qed.

Lemma omap_Some_map {A B : Type} (g : A -> B) (l : list A) :
  omap (fun a => a) (map (fun x => Some (g x)) l) = map g l.
Proof.
  induction l as [|x xs IH]; [reflexivity|].
  cbn [map]. rewrite omap_cons_unfold, IH. reflexivity.
Qed.

(** A callback that returns [null] on [x] leaves the filtered map as it is
    without [x]. *)
Lemma mapResult_skip {A B : Type} (f : A -> result (option B)) l1 x l2 :
  f x = Ok None ->
  result_map (omap (fun a => a)) (mapResult f (l1 ++ x :: l2)%list)
  = result_map (omap (fun a => a)) (mapResult f (l1 ++ l2)%list).
Proof.
  intros Hx. induction l1 as [|a l1' IH]; cbn [app mapResult].
  - rewrite Hx. cbn [bind]. unfold result_map.
    destruct (mapResult f l2); cbn [bind]; reflexivity.
  - destruct (f a) as [y|]; cbn [bind]; [|reflexivity].
    unfold result_map in *.
    destruct (mapResult f (l1' ++ x :: l2)%list), (mapResult f (l1' ++ l2)%list);
      cbn [bind] in *; try discriminate; try reflexivity.
    injection IH as IH. rewrite !omap_cons_unfold, IH. reflexivity.
Qed.

Section RouteLemmas.
Context {H : Host} {T : Turf}.

Lemma segmentsFrom_cons i a b rest :
  segmentsFrom i (a :: b :: rest) = segment i a b :: segmentsFrom (i + 1) (b :: rest).
Proof. reflexivity. Qed.

Lemma segmentsFrom_spec anchors : forall i,
  length (segmentsFrom i anchors) = (length anchors - 1)%nat
  /\ map seg_num (segmentsFrom i anchors)
     = map (fun j => i + 1 + Z.of_nat j) (seq 0 (length anchors - 1)).
Proof.
  induction anchors as [|a rest IH]; intros i; [split; reflexivity|].
  destruct rest as [|b rest']; [split; reflexivity|].
  destruct (IH (i + 1)) as [IHl IHn]. rewrite segmentsFrom_cons.
  cbn [length map]. rewrite IHl, IHn. cbn [length].
  replace (S (length rest') - 1)%nat with (length rest') by lia.
  replace (S (S (length rest')) - 1)%nat with (S (length rest')) by lia.
  split; [reflexivity|]. cbn [seq map seg_num segment]. f_equal; [lia|].
  rewrite <- seq_shift, map_map. apply map_ext. intros j. lia.
Qed.

Lemma features_unfold rows fbp all :
  features rows fbp all
  = match omap (featureOf fbp) rows with [] => all | _ => omap (featureOf fbp) rows end.
Proof. reflexivity. Qed.

Lemma features_matched rows fbp all r f :
  In r rows -> featureOf fbp r = Some f -> features rows fbp all = omap (featureOf fbp) rows.
Proof.
  intros Hin Hf. rewrite features_unfold. pose proof (omap_In _ _ _ _ Hin Hf) as Hi.
  destruct (omap (featureOf fbp) rows); [contradiction | reflexivity].
Qed.

Lemma features_unmatched rows fbp all :
  (forall r, In r rows -> featureOf fbp r = None) -> features rows fbp all = all.
Proof.
  intros Hnone. rewrite features_unfold.
  replace (omap (featureOf fbp) rows) with (@nil Feature); [reflexivity|].
  symmetry. induction rows as [|r rs IH]; [reflexivity|].
  rewrite omap_cons_unfold, (Hnone r (or_introl eq_refl)). apply IH.
  intros r' Hr'. apply Hnone. right. exact Hr'.
Qed.

Lemma features_skip rows1 r rows2 fbp all :
  featureOf fbp r = None ->
  features (rows1 ++ r :: rows2)%list fbp all = features (rows1 ++ rows2)%list fbp all.
Proof. intros Hr. rewrite !features_unfold, (omap_skip _ _ _ _ Hr). reflexivity. Qed.

Lemma filter_In_active rows r : In r (List.filter isActive rows) -> In r rows.
Proof. intros Hin. apply filter_In in Hin. tauto. Qed.

Lemma filter_skip rows1 r rows2 :
  isActive r = true ->
  List.filter isActive (rows1 ++ r :: rows2)%list
  = (List.filter isActive rows1 ++ r :: List.filter isActive rows2)%list.
Proof. intros Hr. rewrite List.filter_app. cbn [List.filter]. rewrite Hr. reflexivity. Qed.

Lemma isActive_positiveDays r : isActive r = positiveDays r.
Proof.
  unfold isActive, positiveDays.
  destruct (Number (grazingDays r)) as [|[]|q]; reflexivity.
Qed.

Lemma filter_isActive rows : List.filter isActive rows = List.filter positiveDays rows.
Proof. apply filter_ext. intros r. apply isActive_positiveDays. Qed.

Lemma isInherited_featureOf fbp r :
  isInherited fbp r = false -> featureOf fbp r = fbp !! toLowerCase (pasture r).
Proof.
  unfold isInherited, featureOf. destruct (fbp !! toLowerCase (pasture r)); [reflexivity|].
  intros ->. reflexivity.
Qed.

Lemma featureOf_None fbp r :
  featureOf fbp r = None -> isInherited fbp r = false /\ fbp !! toLowerCase (pasture r) = None.
Proof.
  unfold isInherited, featureOf. destruct (fbp !! toLowerCase (pasture r)); [discriminate|].
  destruct (isPrototypeMember _); [discriminate | auto].
Qed.

Lemma existsb_skip {A : Type} (p : A -> bool) l1 x l2 :
  p x = false -> existsb p (l1 ++ x :: l2)%list = existsb p (l1 ++ l2)%list.
Proof. intros Hx. rewrite !existsb_app. cbn [existsb]. rewrite Hx. reflexivity. Qed.

Lemma existsb_none {A : Type} (p : A -> bool) l :
  (forall x, In x l -> p x = false) -> existsb p l = false.
Proof.
  intros Hp. destruct (existsb p l) eqn:E; [|reflexivity].
  apply existsb_exists in E. destruct E as (x & Hin & Hx). rewrite (Hp x Hin) in Hx.
  discriminate.
Qed.

(** The names of the anchors are the names of the rows that have a
    feature. *)
Lemma mapResult_anchor_names proj fbp l : forall mapped,
  mapResult (anchorOf proj fbp) l = Ok mapped ->
  map anchor_name (omap (fun a => a) mapped)
  = map pasture (List.filter (fun r => match featureOf fbp r with
                                       | Some _ => true
                                       | None => false
                                       end) l).
Proof.
  induction l as [|r l' IH]; intros mapped Hm.
  - injection Hm as <-. reflexivity.
  - cbn [mapResult] in Hm. destruct (anchorOf proj fbp r) as [y|] eqn:Ea; [|discriminate].
    cbn [bind] in Hm. destruct (mapResult (anchorOf proj fbp) l') as [ys|]; [|discriminate].
    cbn [bind] in Hm. injection Hm as <-. rewrite omap_cons_unfold. cbn [List.filter].
    unfold anchorOf in Ea. destruct (featureOf fbp r) as [f|].
    + destruct (centerOfMass f) as [cm|]; cbn [bind] in Ea; [|discriminate].
      injection Ea as <-. cbn [map anchor_name]. rewrite (IH ys eq_refl). reflexivity.
    + injection Ea as <-. apply (IH ys eq_refl).
Qed.

(** The scene in terms of the bounding box and the anchors. *)
Lemma StaticMap_unfold rows fbp all f0 fs0 :
  features rows fbp all = f0 :: fs0 ->
  StaticMap rows fbp all
  = (let! box := (if existsb (isInherited fbp) rows then Throw else bbox (f0 :: fs0)) in
     let! anchors := result_map (omap (fun a => a))
                       (mapResult (anchorOf (projectXY (f0 :: fs0)) fbp)
                                  (List.filter isActive rows)) in
     Ok (Some {| polyPaths := flat_map (featurePaths (projectXY (f0 :: fs0))) (f0 :: fs0);
                 segments := segmentsFrom 0 anchors;
                 routeAnchors := anchors;
                 nonRouteLabels :=
                   omap (nonRouteLabel (projectXY (f0 :: fs0))
                           (map (fun a => toLowerCase (anchor_name a)) anchors))
                        (f0 :: fs0) |})).
Proof.
  intros Ef. unfold StaticMap. rewrite Ef. unfold result_map.
  destruct (if existsb _ _ then _ else _); cbn [bind]; [|reflexivity].
  destruct (mapResult _ _); reflexivity.
Qed.

End RouteLemmas.

(** * The claims *)

Section Windows.
Context {H : Host} {L : HostLaws H}.

Lemma recompute_windows_integer (rows : list Entry) (planStart : string) (t0 : Z) (durs : list Z) :
  parseISO planStart = Some t0 ->
  Forall2 durationOf rows durs ->
  DayFromYear 1 <= Day t0 ->
  Day t0 + totalSpan durs <= DayFromYear 10000 ->
  exists out,
    recompute rows planStart = Ok out /\ length out = length rows
    /\ sequential (Day t0) durs out.
Proof.
  intros Hp HF Hlo Hhi.
  set (out0 := map withProposedADA rows).
  assert (HF0 : Forall2 durationOf out0 durs).
  { unfold out0. clear -HF. induction HF; constructor; auto. }
  assert (Hrec : recompute rows planStart = Ok (dated (Day t0) out0 durs)).
  { unfold recompute. fold out0. unfold toISO.
    destruct planStart as [|c s]; [discriminate Hp|]. rewrite Hp. cbn [isValid format bind].
    apply schedule_dated; assumption. }
  assert (Hwin : forall i r, dated (Day t0) out0 durs !! i = Some r ->
     exists k, durs !! i = Some k
       /\ isoDay (startDate r) = Some (startOf (Day t0) durs i)
       /\ isoDay (endDate r) = Some (startOf (Day t0) durs i + span k - 1)).
  { intros i r Hr. destruct (dated_lookup _ _ _ _ _ Hr) as (r0 & k & _ & Hk & ->).
    exists k. split; [exact Hk|]. cbn [startDate endDate set_dates].
    destruct (startOf_bounds (Day t0) durs i k Hk).
    assert (1 <= span k) by (unfold span; lia).
    split; apply isoDay_formatDay; lia. }
  exists (dated (Day t0) out0 durs). split; [exact Hrec|].
  unfold sequential. split.
  { rewrite dated_length; [unfold out0; apply length_map|].
    unfold out0. rewrite length_map. eapply Forall2_length; eassumption. }
  split.
  { intros r Hr. destruct (Hwin _ _ Hr) as (k & _ & Hs & _). rewrite Hs, startOf_0. reflexivity. }
  split.
  { intros i r r' Hr Hr'.
    destruct (Hwin _ _ Hr) as (k & Hk & _ & He). destruct (Hwin _ _ Hr') as (k' & _ & Hs' & _).
    eexists. split; [exact He|]. rewrite Hs'. f_equal. rewrite (startOf_S _ _ _ _ Hk). lia. }
  intros i r k Hr Hk. destruct (Hwin _ _ Hr) as (k' & Hk' & Hs & He).
  rewrite Hk in Hk'. injection Hk' as <-.
  eexists. split; [exact Hs|]. rewrite He. f_equal. unfold span.
  destruct (0 <? k) eqn:E; [apply Z.ltb_lt in E | apply Z.ltb_ge in E]; lia.
Qed.

Lemma recompute_march_2025 (r1 r2 r3 : Entry) :
  durationOf r1 10 -> durationOf r2 0 -> durationOf r3 5 ->
  exists o1 o2 o3,
    recompute [r1; r2; r3] "2025-03-01" = Ok [o1; o2; o3]
    /\ datesOf o1 = ("2025-03-01", "2025-03-10")
    /\ datesOf o2 = ("2025-03-11", "2025-03-11")
    /\ datesOf o3 = ("2025-03-12", "2025-03-16").
Proof.
  intros H1 H2 H3.
  assert (Hrec : recompute [r1; r2; r3] "2025-03-01"
                 = schedule (formatDay 20148) (map withProposedADA [r1; r2; r3]))
    by reflexivity.
  rewrite (schedule_dated _ [10; 0; 5] 20148) in Hrec.
  - cbn [map dated] in Hrec. do 3 eexists. split; [exact Hrec|].
    unfold datesOf. cbn [startDate endDate set_dates]. repeat split; vm_compute; reflexivity.
  - cbn [map]. repeat constructor; assumption.
  - vm_compute. discriminate.
  - vm_compute. discriminate.
Qed.

(** C1 (amended).  For rows whose durations are integers and a season start
    that parses, as long as the season start is not before 0001-01-01 and no
    window ends after 9999-12-31, [recompute] returns the rows with: the
    first start date on the season start; each later start date one day
    after the previous end date; and each end date [duration - 1] days after
    its start date when the duration is positive, and on the start date
    otherwise.  In particular, with the season start 2025-03-01 and the
    durations 10, 0 and 5 the windows are 2025-03-01 to 2025-03-10,
    2025-03-11 to 2025-03-11 and 2025-03-12 to 2025-03-16. *)
Theorem recompute_windows :
  (forall (rows : list Entry) (planStart : string) (t0 : Z) (durs : list Z),
      parseISO planStart = Some t0 ->
      Forall2 durationOf rows durs ->
      DayFromYear 1 <= Day t0 ->
      Day t0 + totalSpan durs <= DayFromYear 10000 ->
      exists out,
        recompute rows planStart = Ok out /\ length out = length rows
        /\ sequential (Day t0) durs out)
  /\ (forall r1 r2 r3 : Entry,
        durationOf r1 10 -> durationOf r2 0 -> durationOf r3 5 ->
        exists o1 o2 o3,
          recompute [r1; r2; r3] "2025-03-01" = Ok [o1; o2; o3]
          /\ datesOf o1 = ("2025-03-01", "2025-03-10")
          /\ datesOf o2 = ("2025-03-11", "2025-03-11")
          /\ datesOf o3 = ("2025-03-12", "2025-03-16")).
Proof. split; [exact recompute_windows_integer | exact recompute_march_2025]. Qed.

End Windows.

Section Density.
Context {H : Host} {L : HostLaws H} {R : HostRounding H}.


End Density.

Section Derivation.
Context {H : Host}.

(** C3.  Deriving the schedule of a derived schedule, with the same season
    start, gives the derived schedule again; where the derivation throws,
    so does the repeated one. *)
Theorem recompute_idempotent (rows : list Entry) (planStart : string) :
  (let! out := recompute rows planStart in recompute out planStart)
  = recompute rows planStart.
Proof.
  unfold recompute. destruct (toISO planStart) as [cs|] eqn:Et; cbn [bind]; [|reflexivity].
  destruct (schedule cs (map withProposedADA rows)) as [out|] eqn:Es; cbn [bind]; [|reflexivity].
  rewrite <- Es. apply schedule_undated.
  apply schedule_frame in Es. clear -Es.
  remember (map withProposedADA rows) as l eqn:El. revert rows El.
  induction Es as [|r r' rs rs' Hr Hrs IH]; intros rows El; [constructor|].
  destruct rows as [|r0 rows0]; [discriminate|]. injection El as -> ->.
  cbn [map]. constructor; [|apply (IH rows0 eq_refl)].
  rewrite (undated_inv _ _ Hr). reflexivity.
Qed.

(** C4.  With an empty or unparseable season start [recompute] does not
    throw: it returns every row with empty start and end dates and with its
    proposed density computed. *)
Theorem recompute_no_start (rows : list Entry) (planStart : string) :
  planStart = "" \/ parseISO planStart = None ->
  exists out,
    recompute rows planStart = Ok out
    /\ Forall2 (fun r r' =>
                  startDate r' = "" /\ endDate r' = ""
                  /\ proposedADA r' = computeProposedADA (grazingDays r) (herdSize r) (acreage r))
               rows out.
Proof.
  intros Hs. exists (map (set_dates "" "") (map withProposedADA rows)). split.
  - unfold recompute. replace (toISO planStart) with (Ok (A := string) "").
    + cbn [bind]. apply schedule_empty.
    + unfold toISO. destruct Hs as [-> | Hp]; [reflexivity|].
      destruct planStart; [reflexivity|]. rewrite Hp. reflexivity.
  - induction rows as [|r rs IH]; constructor; auto.
Qed.

End Derivation.

Section Route.
Context {H : Host} {T : Turf}.

Lemma featureOf_stored (featureByPasture : gmap string Feature) (r : Entry) (f : Feature) :
  featureByPasture !! toLowerCase (pasture r) = Some f -> featureOf featureByPasture r = Some f.
Proof. unfold featureOf. intros ->. reflexivity. Qed.


End Route.

Section Summer.
Context {H : Host}.

Lemma overlapsSummerWindow_ordered (startISO endISO : string) (s e : Z) :
  parseISO startISO = Some s -> parseISO endISO = Some e ->
  s <= e -> 1000 <= getFullYear s -> getFullYear e <= 9999 ->
  exists b, overlapsSummerWindow startISO endISO = Ok b
    /\ (b = true <-> exists y, getFullYear s <= y <= getFullYear e
                               /\ intersects s e (summerStartT y) (summerEndT y)).
Proof.
  intros Hs He Hse Hlo Hhi. unfold overlapsSummerWindow. rewrite Hs, He.
  assert (Hy : getFullYear s <= getFullYear e)
    by (unfold getFullYear; apply YearFromDay_mono, Day_mono, Hse).
  destruct (summerLoop_spec (Z.to_nat (getFullYear e - getFullYear s + 1)) (getFullYear s) s e)
    as (b & Hb & Hiff); [assumption | assumption | lia |].
  exists b. split; [exact Hb|]. rewrite Hiff. split.
  - intros (y & Hy' & H12). exists y. split; [lia|].
    apply intersects_iff; [assumption | apply summer_order | lia].
  - intros (y & Hy' & Hint). exists y. split; [lia|].
    apply intersects_iff in Hint; [lia | assumption | apply summer_order].
Qed.

(** C6 (amended).  For a start and an end that parse, with the start not
    after the end and both within the years 1000 to 9999,
    [overlapsSummerWindow] returns true exactly when the closed interval
    from start to end shares a point with the window from July 15 to
    September 15 of some year between the start's year and the end's year.
    When the start or the end does not parse it returns false.  In
    particular it is true from 2025-07-01 to 2025-07-20 and false from
    2025-01-01 to 2025-02-01. *)
Theorem overlapsSummerWindow_spec :
  (forall (startISO endISO : string) (s e : Z),
      parseISO startISO = Some s -> parseISO endISO = Some e ->
      s <= e -> 1000 <= getFullYear s -> getFullYear e <= 9999 ->
      exists b, overlapsSummerWindow startISO endISO = Ok b
        /\ (b = true <-> exists y, getFullYear s <= y <= getFullYear e
                                   /\ intersects s e (summerStartT y) (summerEndT y)))
  /\ (forall startISO endISO : string,
        parseISO startISO = None \/ parseISO endISO = None ->
        overlapsSummerWindow startISO endISO = Ok false)
  /\ overlapsSummerWindow "2025-07-01" "2025-07-20" = Ok true
  /\ overlapsSummerWindow "2025-01-01" "2025-02-01" = Ok false.
Proof.
  split; [exact overlapsSummerWindow_ordered|].
  split; [exact overlapsSummerWindow_invalid|].
  split; [exact overlapsSummerWindow_july_2025 | exact overlapsSummerWindow_january_2025].
Qed.

End Summer.

Section Noninterference.
Context {H : Host}.

(** C7.  Two lists that agree row by row on area, herd size and duration
    get, with the same season start, the same derived fields row by row
    (or both derivations throw), whatever their names, notes and other
    fields are. *)
Theorem recompute_inputs_only (l1 l2 : list Entry) (planStart : string) :
  Forall2 (fun r1 r2 => inputsOf r1 = inputsOf r2) l1 l2 ->
  result_map (map derivedOf) (recompute l1 planStart)
  = result_map (map derivedOf) (recompute l2 planStart).
Proof.
  intros HF. unfold recompute. destruct (toISO planStart) as [cs|]; cbn [bind]; [|reflexivity].
  assert (HF' : Forall2 (fun r1 r2 => grazingDays r1 = grazingDays r2
                                      /\ proposedADA r1 = proposedADA r2)
                  (map withProposedADA l1) (map withProposedADA l2)).
  { clear cs. induction HF as [|r1 r2 rs1 rs2 Hr Hrs IH]; cbn [map]; constructor; [|exact IH].
    unfold inputsOf in Hr. injection Hr as Ha Hh Hg.
    unfold withProposedADA. cbn [grazingDays proposedADA set_proposedADA].
    rewrite Ha, Hh, Hg. auto. }
  revert cs. induction HF' as [|r1 r2 rs1 rs2 [Hg Hp] Hrs IH]; intros cs; [reflexivity|].
  cbn [schedule]. rewrite Hg. destruct cs as [|c s].
  - specialize (IH ""). unfold result_map in *.
    destruct (schedule "" rs1), (schedule "" rs2); cbn [bind] in *;
      try discriminate; try reflexivity.
    injection IH as IH. cbn [map]. rewrite !derivedOf_set_dates, Hp, IH. reflexivity.
  - destruct (if num_ltb num_zero _ then _ else _) as [e|]; cbn [bind]; [|reflexivity].
    destruct (addDaysISO e (Fin 1)) as [next|]; cbn [bind]; [|reflexivity].
    specialize (IH next). unfold result_map in *.
    destruct (schedule next rs1), (schedule next rs2); cbn [bind] in *;
      try discriminate; try reflexivity.
    injection IH as IH. cbn [map]. rewrite !derivedOf_set_dates, Hp, IH. reflexivity.
Qed.

End Noninterference.

Section Selection.
Context {H : Host} {T : Turf}.



End Selection.

Section Frame.
Context {H : Host}.

(** C10.  Whenever [recompute] returns, the result has the length and the
    order of the input, and every field other than the three derived ones
    is the input row's. *)
Theorem recompute_frame (rows : list Entry) (planStart : string) (out : list Entry) :
  recompute rows planStart = Ok out ->
  length out = length rows
  /\ Forall2 (fun r r' => frameOf r' = frameOf r) rows out.
Proof.
  unfold recompute. intros Hr.
  destruct (toISO planStart) as [cs|]; cbn [bind] in Hr; [|discriminate].
  apply schedule_frame in Hr.
  assert (HF : Forall2 (fun r r' => frameOf r' = frameOf r) rows out).
  { remember (map withProposedADA rows) as l eqn:El. revert rows El.
    induction Hr as [|r r' rs rs' Hr Hrs IH]; intros rows El.
    - destruct rows; [constructor | discriminate].
    - destruct rows as [|r0 rows0]; [discriminate|]. injection El as -> ->.
      constructor; [|apply (IH rows0 eq_refl)].
      rewrite (undated_inv _ _ Hr). reflexivity. }
  split; [symmetry; eapply Forall2_length; exact HF | exact HF].
Qed.

End Frame.

(** * Witnesses and counterexamples *)

Lemma sampleRows_durations :
  Forall2 (durationOf (H := sampleHost false)) sampleRows [10; 0; 5].
Proof. repeat constructor; eexists; (split; [reflexivity | reflexivity]). Defined.

(** C1: the theorem at the sample rows and the season start 2025-03-01. *)
Lemma recompute_windows_witness :
  exists out,
    recompute (H := sampleHost false) sampleRows "2025-03-01" = Ok out
    /\ length out = length sampleRows
    /\ sequential (Day march_1_2025) [10; 0; 5] out.
Proof.
  apply (proj1 (recompute_windows (H := sampleHost false) (L := sampleHost_laws false))
           sampleRows "2025-03-01" march_1_2025 [10; 0; 5]).
  - vm_compute. reflexivity.
  - exact sampleRows_durations.
  - vm_compute. discriminate.
  - vm_compute. discriminate.
Defined.

(** C1 as stated fails.  From the valid season start 9999-12-25 the first
    window ends on 10000-01-03, a text [parseISO] does not read, so the
    later rows get no dates.  The season start 0000-12-25 is valid too, and
    [format] prints its year as the era year 0001, so the first start date
    is not the season start.  And a duration of 10^12 days makes [format]
    throw on a date out of range. *)
Lemma recompute_beyond_9999 :
  isValid (parseISO (H := sampleHost false) "9999-12-25") = true
  /\ result_map (map datesOf) (recompute (H := sampleHost false) sampleRows "9999-12-25")
     = Ok [("9999-12-25", "10000-01-03"); ("", ""); ("", "")]
  /\ result_map (map datesOf) (recompute (H := sampleHost true) sampleRows "9999-12-25")
     = Ok [("9999-12-25", "10000-01-03"); ("", ""); ("", "")]
  /\ isValid (parseISO (H := sampleHost false) "0000-12-25") = true
  /\ result_map (map datesOf) (recompute (H := sampleHost false) sampleRows "0000-12-25")
     = Ok [("0001-12-25", "0002-01-03"); ("0002-01-04", "0002-01-04");
           ("0002-01-05", "0002-01-09")]
  /\ recompute (H := sampleHost false) (endlessRow :: sampleRows) "2025-03-01" = Throw
  /\ recompute (H := sampleHost true) (endlessRow :: sampleRows) "2025-03-01" = Throw.
Proof. repeat split; vm_compute; reflexivity. Qed.



(** C4: the theorem at the sample rows and the season start 2025-02-30. *)
Lemma recompute_no_start_witness :
  exists out,
    recompute (H := sampleHost false) sampleRows "2025-02-30" = Ok out
    /\ Forall2 (fun r r' =>
                  startDate r' = "" /\ endDate r' = ""
                  /\ proposedADA r'
                     = computeProposedADA (H := sampleHost false)
                         (grazingDays r) (herdSize r) (acreage r))
               sampleRows out.
Proof.
  apply (recompute_no_start (H := sampleHost false) sampleRows "2025-02-30").
  right. vm_compute. reflexivity.
Defined.



(** C6: the theorem at 2025-07-01 to 2025-07-20. *)
Lemma overlapsSummerWindow_spec_witness :
  exists b,
    overlapsSummerWindow (H := sampleHost false) "2025-07-01" "2025-07-20" = Ok b
    /\ (b = true <-> exists y, getFullYear july_1_2025 <= y <= getFullYear july_20_2025
                               /\ intersects july_1_2025 july_20_2025
                                             (summerStartT y) (summerEndT y)).
Proof.
  apply (proj1 (overlapsSummerWindow_spec (H := sampleHost false))
           "2025-07-01" "2025-07-20" july_1_2025 july_20_2025).
  - vm_compute. reflexivity.
  - vm_compute. reflexivity.
  - vm_compute. discriminate.
  - vm_compute. discriminate.
  - vm_compute. discriminate.
Defined.

(** C6 as stated fails below the year 1000: the window text is built from
    the bare year number, ["999-07-15"], which [parseISO] does not read.
    The interval from 0999-07-20 to 0999-07-25 lies inside the window of
    the year 999, and the answer is false with date-fns 3 and an exception
    with date-fns 2.  It fails for a start after the end as well: from
    2025-09-01 back to 2025-07-01 there is no point at all, and the answer
    is true with date-fns 3 (which sorts the two ends) and an exception
    with date-fns 2.  The window text of a five-digit year is not read
    either. *)
Lemma overlapsSummerWindow_year_999 :
  parseISO (H := sampleHost false) "0999-07-20" = Some (MakeDay 999 6 20 * msPerDay)
  /\ parseISO (H := sampleHost false) "0999-07-25" = Some (MakeDay 999 6 25 * msPerDay)
  /\ getFullYear (MakeDay 999 6 20 * msPerDay) = 999
  /\ getFullYear (MakeDay 999 6 25 * msPerDay) = 999
  /\ summerStartT 999 <= MakeDay 999 6 20 * msPerDay
  /\ MakeDay 999 6 25 * msPerDay <= summerEndT 999
  /\ overlapsSummerWindow (H := sampleHost false) "0999-07-20" "0999-07-25" = Ok false
  /\ overlapsSummerWindow (H := sampleHost true) "0999-07-20" "0999-07-25" = Throw
  /\ parseISO (H := sampleHost false) "2025-09-01" = Some (MakeDay 2025 8 1 * msPerDay)
  /\ parseISO (H := sampleHost false) "2025-07-01" = Some (MakeDay 2025 6 1 * msPerDay)
  /\ MakeDay 2025 6 1 * msPerDay < MakeDay 2025 8 1 * msPerDay
  /\ overlapsSummerWindow (H := sampleHost false) "2025-09-01" "2025-07-01" = Ok true
  /\ overlapsSummerWindow (H := sampleHost true) "2025-09-01" "2025-07-01" = Throw
  /\ parseISO (H := sampleHost false) (intString 10000 ++ "-07-15") = None.
Proof. repeat split; vm_compute; try reflexivity; discriminate. Qed.

Lemma renamedRows_inputs :
  Forall2 (fun r1 r2 => inputsOf r1 = inputsOf r2) sampleRows renamedRows.
Proof. repeat constructor. Defined.

(** C7: the theorem at the sample rows and the renamed ones. *)
Lemma recompute_inputs_only_witness :
  result_map (map derivedOf) (recompute (H := sampleHost false) sampleRows "2025-03-01")
  = result_map (map derivedOf) (recompute (H := sampleHost false) renamedRows "2025-03-01").
Proof.
  exact (recompute_inputs_only (H := sampleHost false) sampleRows renamedRows "2025-03-01"
           renamedRows_inputs).
Defined.





(** C10: the theorem at the sample rows and the season start 2025-03-01. *)
Lemma recompute_frame_witness :
  exists out,
    recompute (H := sampleHost false) sampleRows "2025-03-01" = Ok out
    /\ length out = length sampleRows
    /\ Forall2 (fun r r' => frameOf r' = frameOf r) sampleRows out.
Proof.
  destruct (recompute (H := sampleHost false) sampleRows "2025-03-01") as [out|] eqn:E.
  - exists out. split; [reflexivity|].
    exact (recompute_frame (H := sampleHost false) sampleRows "2025-03-01" out E).
  - vm_compute in E. discriminate E.
Defined.

(** C10 fails on the code: [recompute] does not return for a duration of
    10^12 days; [addDaysISO] checks the date it parses but not the date it
    shifts, and [format] throws on the date out of range. *)
Lemma recompute_throws :
  isValid (parseISO (H := sampleHost false) "2025-03-01") = true
  /\ recompute (H := sampleHost false) [endlessRow] "2025-03-01" = Throw
  /\ recompute (H := sampleHost true) [endlessRow] "2025-03-01" = Throw.
Proof. repeat split; vm_compute; reflexivity. Qed.
(** * Properties of the rest of the program *)

(** ** The matcher *)

Lemma append_eq_Empty s t : (s ++ t)%string = "" -> s = "" /\ t = "".
Proof. destruct s; [rewrite append_Empty; auto|rewrite append_String; discriminate]. Qed.

Lemma nullable_Matches r : nullable r = true <-> Matches r "".
Proof.
  split.
  - induction r as [| |p|a IHa b IHb|a IHa b IHb|a IHa]; cbn [nullable]; intros Hn;
      try discriminate.
    + constructor.
    + apply andb_prop in Hn. destruct Hn as [Ha Hb].
      rewrite <- (append_Empty ""). constructor; auto.
    + apply orb_prop in Hn. destruct Hn as [Ha | Hb]; [apply MAltL | apply MAltR]; auto.
    + constructor.
  - intros Hm. remember "" as w eqn:Ew. induction Hm; cbn [nullable]; try reflexivity.
    + discriminate.
    + apply append_eq_Empty in Ew. destruct Ew as [-> ->].
      rewrite IHHm1, IHHm2; reflexivity.
    + rewrite IHHm; [reflexivity | exact Ew].
    + rewrite IHHm; [apply orb_true_r | exact Ew].
Qed.

Lemma deriv_sound c r : forall s, Matches (deriv c r) s -> Matches r (String c s).
Proof.
  induction r as [| |p|a IHa b IHb|a IHa b IHb|a IHa]; cbn [deriv]; intros s Hm.
  - inversion Hm.
  - inversion Hm.
  - destruct (p c) eqn:Ep; inversion Hm; subst. constructor. exact Ep.
  - destruct (nullable a) eqn:En.
    + inversion Hm as [| | | a' b' s' Hl | a' b' s' Hr | |]; subst.
      * inversion Hl as [| | a' b' s1 s2 H1 H2 | | | |]; subst.
        rewrite <- append_String. constructor; auto.
      * rewrite <- (append_Empty (String c s)). constructor; [|auto].
        apply nullable_Matches. exact En.
    + inversion Hm as [| | a' b' s1 s2 H1 H2 | | | |]; subst.
      rewrite <- append_String. constructor; auto.
  - inversion Hm; subst; [apply MAltL | apply MAltR]; auto.
  - inversion Hm as [| | a' b' s1 s2 H1 H2 | | | |]; subst.
    rewrite <- append_String. constructor; auto.
Qed.

Lemma deriv_complete c r w : Matches r w -> forall s, w = String c s -> Matches (deriv c r) s.
Proof.
  intros Hm. induction Hm as [|p c0 Hp|a b s1 t H1 IH1 H2 IH2|a b s1 H1 IH1|a b s1 H1 IH1
                             |a|a s1 t H1 IH1 H2 IH2]; intros s Ew; cbn [deriv].
  - discriminate.
  - injection Ew as -> <-. rewrite Hp. constructor.
  - destruct s1 as [|c1 s1'].
    + rewrite append_Empty in Ew. apply nullable_Matches in H1. rewrite H1.
      apply MAltR. apply IH2. exact Ew.
    + rewrite append_String in Ew. injection Ew as -> <-.
      assert (Hs : Matches (Seq (deriv c a) b) (s1' ++ t)) by (constructor; auto).
      destruct (nullable a); [apply MAltL|]; exact Hs.
  - apply MAltL. auto.
  - apply MAltR. auto.
  - discriminate.
  - destruct s1 as [|c1 s1'].
    + rewrite append_Empty in Ew. apply (IH2 s Ew).
    + rewrite append_String in Ew. injection Ew as -> <-. constructor; auto.
Qed.

Lemma fullMatch_Matches s : forall r, fullMatch r s = true <-> Matches r s.
Proof.
  induction s as [|c s IH]; intros r; cbn [fullMatch]; [apply nullable_Matches|].
  rewrite IH. split; [apply deriv_sound|]. intros Hm. exact (deriv_complete c r _ Hm s eq_refl).
Qed.

Lemma Matches_Star_Any s : Matches (Star Any) s.
Proof.
  induction s as [|c s IH]; [constructor|].
  replace (String c s) with (String c "" ++ s)%string
    by (rewrite append_String, append_Empty; reflexivity).
  constructor; [constructor; reflexivity | exact IH].
Qed.

Lemma Matches_Chr_inv p w : Matches (Chr p) w -> exists c, w = String c "" /\ p c = true.
Proof. intros Hm. inversion Hm; subst. eauto. Qed.

Lemma Matches_Seq_inv a b w :
  Matches (Seq a b) w -> exists s t, w = (s ++ t)%string /\ Matches a s /\ Matches b t.
Proof. intros Hm. inversion Hm; subst. eauto. Qed.

(** ** Lists *)

Lemma findIndexFrom_none {A : Type} (p : A -> bool) (l : list A) : forall i,
  (forall x, In x l -> p x = false) -> findIndexFrom p l i = -1.
Proof.
  induction l as [|x xs IH]; intros i Hp; [reflexivity|].
  cbn [findIndexFrom]. rewrite (Hp x (or_introl eq_refl)).
  apply IH. intros y Hy. apply Hp. right. exact Hy.
Qed.

Lemma findIndexFrom_split {A : Type} (p : A -> bool) (l1 : list A) x l2 : forall i,
  (forall y, In y l1 -> p y = false) -> p x = true ->
  findIndexFrom p (l1 ++ x :: l2)%list i = i + Z.of_nat (length l1).
Proof.
  induction l1 as [|a l1' IH]; intros i Hp Hx; cbn [app findIndexFrom length].
  - rewrite Hx. lia.
  - rewrite (Hp a (or_introl eq_refl)), IH; [lia| |exact Hx].
    intros y Hy. apply Hp. right. exact Hy.
Qed.

Lemma first_split {A : Type} (p : A -> bool) (l : list A) :
  (exists x, In x l /\ p x = true) ->
  exists l1 x l2, l = (l1 ++ x :: l2)%list /\ (forall y, In y l1 -> p y = false) /\ p x = true.
Proof.
  induction l as [|a l' IH]; intros (x & Hin & Hx); [contradiction|].
  destruct (p a) eqn:Ea.
  - exists [], a, l'. repeat split; [intros y []|exact Ea].
  - destruct IH as (l1 & y & l2 & -> & Hl1 & Hy).
    { destruct Hin as [-> | Hin]; [congruence|]. exists x. split; assumption. }
    exists (a :: l1), y, l2. repeat split; [|exact Hy].
    intros z [<- | Hz]; [exact Ea | apply Hl1; exact Hz].
Qed.

(** ** The table handlers *)

Lemma id_set_id u r : id (set_id u r) = u.
Proof. reflexivity. Qed.

Lemma deleteRow_absent u (l : list Entry) :
  (forall x, In x l -> id x <> u) -> deleteRow u l = l.
Proof.
  intros Hu. unfold deleteRow. induction l as [|a l' IH]; [reflexivity|].
  cbn [List.filter]. destruct (String.eqb (id a) u) eqn:E.
  - apply String.eqb_eq in E. exfalso. exact (Hu a (or_introl eq_refl) E).
  - cbn [negb]. f_equal. apply IH. intros x Hx. apply Hu. right. exact Hx.
Qed.

Lemma duplicateRow_split id0 uuid l1 r l2 :
  (forall y, In y l1 -> id y <> id0) -> id r = id0 ->
  duplicateRow id0 uuid (l1 ++ r :: l2)%list = (l1 ++ r :: set_id uuid r :: l2)%list.
Proof.
  intros Hl1 Hr. unfold duplicateRow, findIndex.
  rewrite findIndexFrom_split.
  - assert ((0 + Z.of_nat (length l1) <? 0) = false) as -> by (apply Z.ltb_ge; lia).
    replace (Z.to_nat (0 + Z.of_nat (length l1))) with (length l1) by lia.
    replace (Z.to_nat (0 + Z.of_nat (length l1) + 1)) with (S (length l1)) by lia.
    rewrite list_lookup_middle by reflexivity.
    replace (l1 ++ r :: l2)%list with ((l1 ++ [r]) ++ l2)%list
      by (rewrite <- app_assoc; reflexivity).
    assert (Hlen : S (length l1) = length (l1 ++ [r])%list)
      by (rewrite length_app; cbn [length]; lia).
    rewrite Hlen, take_app_length, drop_app_length, <- app_assoc. reflexivity.
  - intros y Hy. apply String.eqb_neq. apply Hl1. exact Hy.
  - apply String.eqb_eq. exact Hr.
Qed.

Lemma duplicateRow_absent id0 uuid prev :
  (forall x, In x prev -> id x <> id0) -> duplicateRow id0 uuid prev = prev.
Proof.
  intros Hno. unfold duplicateRow, findIndex. rewrite findIndexFrom_none; [reflexivity|].
  intros x Hx. apply String.eqb_neq. apply Hno. exact Hx.
Qed.

(** X1.  Copying a row puts the copy, under the new identifier and otherwise
    equal, right after the first row that has the identifier; no row having
    it, the table stays as it is. *)
Theorem duplicateRow_spec (id0 uuid : string) (prev : list Entry) :
  ((forall x, In x prev -> id x <> id0) -> duplicateRow id0 uuid prev = prev)
  /\ (forall l1 r l2,
        prev = (l1 ++ r :: l2)%list -> (forall y, In y l1 -> id y <> id0) -> id r = id0 ->
        duplicateRow id0 uuid prev = (l1 ++ r :: set_id uuid r :: l2)%list
        /\ length (duplicateRow id0 uuid prev) = S (length prev)
        /\ set_id id0 (set_id uuid r) = r).
Proof.
  split; [apply duplicateRow_absent|].
  intros l1 r l2 -> Hl1 Hr. rewrite (duplicateRow_split _ _ _ _ _ Hl1 Hr).
    split; [reflexivity|]. split.
    + rewrite !length_app. cbn [length]. lia.
    + destruct r. cbn in Hr. subst. reflexivity.
Qed.

(** X2.  Removing the copy by its identifier gives the table back, when the
    identifier is new to the table. *)
Theorem duplicateRow_deleteRow (id0 uuid : string) (prev : list Entry) :
  (forall x, In x prev -> id x <> uuid) ->
  deleteRow uuid (duplicateRow id0 uuid prev) = prev.
Proof.
  intros Hfresh.
  destruct (existsb (fun r => String.eqb (id r) id0) prev) eqn:Ex.
  - apply existsb_exists in Ex.
    destruct (first_split _ _ Ex) as (l1 & r & l2 & E & Hl1 & Hr). subst prev.
    rewrite duplicateRow_split.
    + assert (Hr' : id r <> uuid) by (apply Hfresh, in_elt).
      unfold deleteRow. rewrite !List.filter_app. cbn [List.filter].
      rewrite id_set_id, String.eqb_refl. cbn [negb].
      apply String.eqb_neq in Hr'. rewrite Hr'. cbn [negb].
      fold (deleteRow uuid l1). fold (deleteRow uuid l2).
      rewrite !deleteRow_absent; [reflexivity| |];
        intros x Hx; apply Hfresh, in_or_app; [right; right|left]; exact Hx.
    + intros y Hy. apply String.eqb_neq, Hl1, Hy.
    + apply String.eqb_eq, Hr.
  - assert (Hd : duplicateRow id0 uuid prev = prev).
    { apply duplicateRow_absent. intros x Hx E.
      assert (Ht : existsb (fun r => String.eqb (id r) id0) prev = true).
      { apply existsb_exists. exists x. split; [exact Hx | apply String.eqb_eq, E]. }
      congruence. }
    rewrite Hd. apply deleteRow_absent, Hfresh.
Qed.

Lemma findIndex_found (p : Entry -> bool) (rows : list Entry) :
  (exists x, In x rows /\ p x = true) ->
  exists i r, findIndex p rows = Z.of_nat i /\ rows !! i = Some r /\ p r = true.
Proof.
  intros Hex. destruct (first_split _ _ Hex) as (l1 & r & l2 & -> & Hl1 & Hr).
  exists (length l1), r. unfold findIndex. rewrite findIndexFrom_split by assumption.
  split; [lia|]. split; [apply list_lookup_middle; reflexivity | exact Hr].
Qed.

Lemma arrayMove_in_range {A : Type} (l : list A) (i j : nat) (x : A) :
  l !! i = Some x -> (j < length l)%nat ->
  arrayMove l (Z.of_nat i) (Z.of_nat j)
  = map Some (take j (take i l ++ drop (S i) l) ++ x :: drop j (take i l ++ drop (S i) l))%list.
Proof.
  intros Hi Hj. pose proof (lookup_lt_Some _ _ _ Hi) as Hlt.
  assert (Ej : (Z.of_nat j <? 0) = false) by (apply Z.ltb_ge; lia).
  assert (Ei : (Z.of_nat i <? 0) = false) by (apply Z.ltb_ge; lia).
  unfold arrayMove, spliceStart. rewrite Ej, Ei. cbv iota. rewrite Ej.
  replace (Z.to_nat (Z.min (Z.of_nat i) (Z.of_nat (length l)))) with i by lia.
  rewrite Hi.
  assert (Hlen : length (take i l ++ drop (S i) l)%list = (length l - 1)%nat).
  { rewrite length_app, length_take, length_drop. lia. }
  rewrite Hlen.
  replace (Z.to_nat (Z.min (Z.of_nat j) (Z.of_nat (length l - 1)))) with j by lia.
  rewrite map_app. reflexivity.
Qed.

(** X3.  Dropping a row on another one moves it to the place of that row: the
    table keeps its rows, the moved row sits at the index the target had,
    and the other rows keep their order. *)
Theorem handleDragEnd_moves (active over : string) (rows : list Entry) :
  active <> over ->
  (exists x, In x rows /\ id x = active) ->
  (exists x, In x rows /\ id x = over) ->
  exists (i j : nat) (r : Entry) (rows' : list Entry),
    findIndex (fun x => String.eqb (id x) active) rows = Z.of_nat i
    /\ findIndex (fun x => String.eqb (id x) over) rows = Z.of_nat j
    /\ rows !! i = Some r /\ id r = active
    /\ handleDragEnd active (Some over) rows = map Some rows'
    /\ Permutation rows rows'
    /\ rows' !! j = Some r
    /\ (take j rows' ++ drop (S j) rows')%list = (take i rows ++ drop (S i) rows)%list.
Proof.
  intros Hne (xa & Hxa & Ha) (xo & Hxo & Ho).
  destruct (findIndex_found (fun x => String.eqb (id x) active) rows) as (i & r & Ei & Hi & Hr).
  { exists xa. split; [exact Hxa | apply String.eqb_eq, Ha]. }
  destruct (findIndex_found (fun x => String.eqb (id x) over) rows) as (j & r' & Ej & Hj & _).
  { exists xo. split; [exact Hxo | apply String.eqb_eq, Ho]. }
  apply String.eqb_eq in Hr.
  pose proof (lookup_lt_Some _ _ _ Hi) as Hilt.
  pose proof (lookup_lt_Some _ _ _ Hj) as Hjlt.
  set (rest := (take i rows ++ drop (S i) rows)%list).
  assert (Hlen : length rest = (length rows - 1)%nat).
  { unfold rest. rewrite length_app, length_take, length_drop. lia. }
  exists i, j, r, (take j rest ++ r :: drop j rest)%list.
  repeat split; try assumption.
  - unfold handleDragEnd. apply String.eqb_neq in Hne. rewrite Hne, Ei, Ej.
    apply arrayMove_in_range; assumption.
  - rewrite <- Permutation_middle, take_drop.
    rewrite <- (take_drop_middle rows i r Hi) at 1.
    rewrite <- Permutation_middle. reflexivity.
  - apply list_lookup_middle. rewrite length_take. lia.
  - assert (Hj' : j = length (take j rest)) by (rewrite length_take; lia).
    rewrite Hj' at 1. rewrite take_app_length.
    replace (S j) with (length (take j rest ++ [r])%list)
      by (rewrite length_app, length_take; cbn [length]; lia).
    replace (take j rest ++ r :: drop j rest)%list
      with ((take j rest ++ [r]) ++ drop j rest)%list by (rewrite <- app_assoc; reflexivity).
    rewrite drop_app_length. apply take_drop.
Qed.

(** ** Row updates that commute with the derivation *)

Lemma Forall2_map_In {A B : Type} (P : A -> B -> Prop) (f : A -> B) (l : list A) :
  (forall x, In x l -> P x (f x)) -> Forall2 P l (map f l).
Proof.
  induction l as [|a l' IH]; intros Hf; [constructor|].
  cbn [map]. constructor; [apply Hf; left; reflexivity|].
  apply IH. intros x Hx. apply Hf. right. exact Hx.
Qed.

Section ScheduleMap.
Context {H : Host}.
Variable f : Entry -> Entry.
Hypothesis f_days : forall r, grazingDays (f r) = grazingDays r.
Hypothesis f_dates : forall s e r, f (set_dates s e r) = set_dates s e (f r).

Lemma schedule_map out : forall cs,
  schedule cs (map f out) = result_map (map f) (schedule cs out).
Proof.
  induction out as [|r rest IH]; intros cs; [destruct cs; reflexivity|].
  cbn [map schedule]. destruct cs as [|c cs'].
  - rewrite IH. unfold result_map. destruct (schedule "" rest); cbn [bind]; [|reflexivity].
    cbn [map]. rewrite f_dates. reflexivity.
  - rewrite f_days.
    destruct (if num_ltb num_zero (Math_max num_zero (toNum (grazingDays r)))
              then addDaysISO (String c cs')
                     (num_sub (Math_max num_zero (toNum (grazingDays r))) (Fin 1))
              else Ok (String c cs')) as [e|]; cbn [bind]; [|reflexivity].
    destruct (addDaysISO e (Fin 1)) as [next|]; cbn [bind]; [|reflexivity].
    rewrite IH. unfold result_map. destruct (schedule next rest); cbn [bind]; [|reflexivity].
    cbn [map]. rewrite f_dates. reflexivity.
Qed.

End ScheduleMap.

Section Commute.
Context {H : Host}.
Variable f : Entry -> Entry.
Hypothesis f_inputs : forall r, inputsOf (f r) = inputsOf r.
Hypothesis f_proposedADA : forall v r, f (set_proposedADA v r) = set_proposedADA v (f r).
Hypothesis f_dates : forall s e r, f (set_dates s e r) = set_dates s e (f r).

Lemma recompute_map rows planStart :
  recompute (map f rows) planStart = result_map (map f) (recompute rows planStart).
Proof.
  unfold recompute. rewrite map_map.
  rewrite (map_ext (fun r => withProposedADA (f r)) (fun r => f (withProposedADA r))).
  - rewrite <- (map_map withProposedADA f).
    destruct (toISO planStart) as [cs|]; cbn [bind]; [|reflexivity].
    apply schedule_map; [|exact f_dates].
    intros r. pose proof (f_inputs r) as Hi. unfold inputsOf in Hi. congruence.
  - intros r. unfold withProposedADA. rewrite f_proposedADA.
    pose proof (f_inputs r) as Hi. unfold inputsOf in Hi.
    injection Hi as Ha Hh Hg. rewrite Ha, Hh, Hg. reflexivity.
Qed.

End Commute.

(** ** Previous season *)

Section SeedLemmas.
Context {H : Host}.

Lemma coalesce_idem a b : coalesce a (coalesce a b) = coalesce a b.
Proof. unfold coalesce. destruct (isNullish a); reflexivity. Qed.

Lemma dictSet_lookup k v d p :
  dictSet k v d !! p = if String.eqb k p && negb (protoLocked d k) then Some v else d !! p.
Proof.
  unfold dictSet, protoLocked. destruct (String.eqb k "__proto__" && _) eqn:El; cbn [negb].
  - rewrite andb_false_r. reflexivity.
  - rewrite andb_true_r. destruct (String.eqb k p) eqn:E.
    + apply String.eqb_eq in E. subst p. apply lookup_insert_eq.
    + apply String.eqb_neq in E. apply lookup_insert_ne. exact E.
Qed.

Lemma dictSet_locked k v d p : protoLocked (dictSet k v d) p = protoLocked d p.
Proof.
  unfold protoLocked. destruct (String.eqb p "__proto__") eqn:Ep; [|reflexivity].
  cbn [andb]. rewrite dictSet_lookup. destruct (String.eqb k p) eqn:E; [|reflexivity].
  apply String.eqb_eq in E. subst k. cbn [andb]. unfold protoLocked. rewrite Ep. cbn [andb].
  destruct (d !! p); reflexivity.
Qed.

Lemma plannedFromRows_snoc dict rows r :
  plannedFromRows dict (rows ++ [r])%list
  = match pasture r with
    | EmptyString => plannedFromRows dict rows
    | p => dictSet p (JNum (proposedADA r)) (plannedFromRows dict rows)
    end.
Proof. unfold plannedFromRows. rewrite fold_left_app. reflexivity. Qed.

Lemma plannedFromRows_locked dict rows p :
  protoLocked (plannedFromRows dict rows) p = protoLocked dict p.
Proof.
  induction rows as [|r rows' IH] using rev_ind; [reflexivity|].
  rewrite plannedFromRows_snoc. destruct (pasture r); [exact IH|].
  rewrite dictSet_locked. exact IH.
Qed.

Lemma plannedFromRows_lookup dict rows p :
  plannedFromRows dict rows !! p
  = match last (List.filter (fun r => String.eqb (pasture r) p) rows) with
    | Some r0 => if String.eqb p "" || protoLocked dict p then dict !! p
                 else Some (JNum (proposedADA r0))
    | None => dict !! p
    end.
Proof.
  induction rows as [|r rows' IH] using rev_ind; [reflexivity|].
  rewrite plannedFromRows_snoc, List.filter_app. cbn [List.filter].
  destruct (String.eqb (pasture r) p) eqn:E.
  - apply String.eqb_eq in E. rewrite last_snoc. subst p.
    destruct (pasture r) as [|c s] eqn:Er.
    + rewrite IH. cbn [String.eqb orb]. destruct (last _); reflexivity.
    + rewrite dictSet_lookup, String.eqb_refl, plannedFromRows_locked. cbn [andb].
      change (String.eqb (String c s) "") with false. cbn [orb].
      destruct (protoLocked dict (String c s)) eqn:El; cbn [negb]; [|reflexivity].
      rewrite IH. destruct (last _); [|reflexivity]. rewrite orb_true_r. reflexivity.
  - rewrite app_nil_r, <- IH. destruct (pasture r) as [|c s] eqn:Er; [reflexivity|].
    rewrite dictSet_lookup, E. reflexivity.
Qed.

End SeedLemmas.

(** X4.  Seeding twice from the same dictionaries is seeding once.  A stored
    value that is neither [null] nor [undefined] wins over the value the row
    held (names are compared as they are); where the dictionary has no
    property of the row's name, a row named after a member of
    [Object.prototype] ([constructor], [toString], ...) takes that member and
    every other row keeps its own value.  So seeding from empty dictionaries
    changes no row but those named after such a member. *)
Theorem seedPreviousSeasonAndEstimates_idempotent {H : Host} (rows : list Entry)
    (prevPlanned prevActual : gmap string JSVal) :
  seedPreviousSeasonAndEstimates
    (seedPreviousSeasonAndEstimates rows prevPlanned prevActual) prevPlanned prevActual
  = seedPreviousSeasonAndEstimates rows prevPlanned prevActual
  /\ Forall2 (fun r r' =>
                prevPlannedADA r'
                = match prevPlanned !! pasture r with
                  | Some JNull | Some JUndefined => prevPlannedADA r
                  | Some v => v
                  | None => if isPrototypeMember (pasture r)
                            then prototypeMember (pasture r) else prevPlannedADA r
                  end
                /\ prevActualADA r'
                   = match prevActual !! pasture r with
                     | Some JNull | Some JUndefined => prevActualADA r
                     | Some v => v
                     | None => if isPrototypeMember (pasture r)
                               then prototypeMember (pasture r) else prevActualADA r
                     end
                /\ set_prev JNull JNull r' = set_prev JNull JNull r)
             rows (seedPreviousSeasonAndEstimates rows prevPlanned prevActual)
  /\ Forall2 (fun r r' =>
                if isPrototypeMember (pasture r)
                then prevPlannedADA r' = prototypeMember (pasture r)
                     /\ prevActualADA r' = prototypeMember (pasture r)
                else r' = r)
             rows (seedPreviousSeasonAndEstimates rows ∅ ∅).
Proof.
  split; [|split].
  - unfold seedPreviousSeasonAndEstimates. rewrite map_map. apply map_ext. intros r.
    cbn [pasture prevPlannedADA prevActualADA set_prev]. rewrite !coalesce_idem. reflexivity.
  - apply Forall2_map_In. intros r _. cbn [prevPlannedADA prevActualADA set_prev].
    unfold coalesce, dictGet, prototypeMember. split; [|split].
    + destruct (prevPlanned !! pasture r) as [[]|]; try reflexivity.
      destruct (isPrototypeMember (pasture r)); reflexivity.
    + destruct (prevActual !! pasture r) as [[]|]; try reflexivity.
      destruct (isPrototypeMember (pasture r)); reflexivity.
    + reflexivity.
  - apply Forall2_map_In. intros r _. cbn [prevPlannedADA prevActualADA set_prev].
    unfold coalesce, dictGet, prototypeMember. rewrite !lookup_empty.
    destruct (isPrototypeMember (pasture r)); [split; reflexivity|].
    destruct r. reflexivity.
Qed.

(** X5.  Seeding the previous-season values and deriving the schedule can be
    done in either order. *)
Theorem seedPreviousSeasonAndEstimates_recompute {H : Host} (rows : list Entry)
    (prevPlanned prevActual : gmap string JSVal) (planStart : string) :
  recompute (seedPreviousSeasonAndEstimates rows prevPlanned prevActual) planStart
  = result_map (fun out => seedPreviousSeasonAndEstimates out prevPlanned prevActual)
               (recompute rows planStart).
Proof.
  unfold seedPreviousSeasonAndEstimates. apply recompute_map; intros; reflexivity.
Qed.

(** X6.  Saving the plan as the previous season: the dictionary takes, under
    each name of the plan, the proposed density of the last row that bears
    it, and keeps what it had under every other name.  The empty name is
    not stored, and neither is the name [__proto__] unless the dictionary
    has a property of that name of its own.  Each row then shows the value
    stored under its name (its own proposed density when the names
    differ); a row named [__proto__] that cannot be stored shows
    [Object.prototype]. *)
Theorem saveCurrentAsPrevPlanned_spec {H : Host} (rows : list Entry)
    (prevPlanned prevActual : gmap string JSVal) :
  let dict := fst (saveCurrentAsPrevPlanned rows rows prevPlanned prevActual) in
  let out := snd (saveCurrentAsPrevPlanned rows rows prevPlanned prevActual) in
  (forall p, dict !! p
             = match last (List.filter (fun r => String.eqb (pasture r) p) rows) with
               | Some r0 => if String.eqb p "" || protoLocked prevPlanned p
                            then prevPlanned !! p
                            else Some (JNum (proposedADA r0))
               | None => prevPlanned !! p
               end)
  /\ Forall2 (fun r r' =>
                (pasture r <> "" -> protoLocked prevPlanned (pasture r) = false ->
                 exists r0,
                   last (List.filter (fun x => String.eqb (pasture x) (pasture r)) rows)
                   = Some r0
                   /\ prevPlannedADA r' = JNum (proposedADA r0))
                /\ (protoLocked prevPlanned (pasture r) = true ->
                    prevPlannedADA r' = prototypeMember "__proto__")
                /\ set_prev JNull JNull r' = set_prev JNull JNull r)
             rows out
  /\ (List.NoDup (map pasture rows) ->
      Forall2 (fun r r' =>
                 pasture r <> "" -> protoLocked prevPlanned (pasture r) = false ->
                 prevPlannedADA r' = JNum (proposedADA r))
              rows out).
Proof.
  cbn [saveCurrentAsPrevPlanned fst snd].
  assert (Hlast : forall r, In r rows -> pasture r <> "" ->
            protoLocked prevPlanned (pasture r) = false ->
            exists r0,
              last (List.filter (fun x => String.eqb (pasture x) (pasture r)) rows) = Some r0
              /\ plannedFromRows prevPlanned rows !! pasture r = Some (JNum (proposedADA r0))).
  { intros r Hin Hp Hl. rewrite plannedFromRows_lookup, Hl.
    apply String.eqb_neq in Hp. rewrite Hp. cbn [orb].
    destruct (last _) as [r0|] eqn:El; [exists r0; split; reflexivity|].
    exfalso. apply last_None in El.
    assert (Hf : In r (List.filter (fun x => String.eqb (pasture x) (pasture r)) rows)).
    { apply filter_In. split; [exact Hin | apply String.eqb_refl]. }
    rewrite El in Hf. contradiction. }
  split; [|split].
  - intros p. apply plannedFromRows_lookup.
  - apply Forall2_map_In. intros r Hin. split; [|split; [|reflexivity]].
    + intros Hp Hl. destruct (Hlast r Hin Hp Hl) as (r0 & El & Hd). exists r0.
      split; [exact El|].
      cbn [prevPlannedADA set_prev]. unfold coalesce, dictGet. rewrite Hd. reflexivity.
    + intros Hl. cbn [prevPlannedADA set_prev]. unfold coalesce, dictGet.
      rewrite plannedFromRows_lookup, Hl, orb_true_r.
      unfold protoLocked in Hl. apply andb_prop in Hl. destruct Hl as [Hk Hn].
      apply String.eqb_eq in Hk. rewrite Hk in *.
      replace (prevPlanned !! "__proto__") with (@None JSVal)
        by (destruct (prevPlanned !! "__proto__"); [discriminate | reflexivity]).
      destruct (last _); reflexivity.
  - intros Hnd. apply Forall2_map_In. intros r Hin Hp Hl.
    destruct (Hlast r Hin Hp Hl) as (r0 & El & Hd).
    cbn [prevPlannedADA set_prev]. unfold coalesce, dictGet. rewrite Hd. cbn [isNullish].
    f_equal. f_equal.
    assert (Hin0 : In r0 (List.filter (fun x => String.eqb (pasture x) (pasture r)) rows)).
    { apply last_Some in El. destruct El as (l' & ->). apply in_elt. }
    apply filter_In in Hin0. destruct Hin0 as [Hin0 E0]. apply String.eqb_eq in E0.
    clear -Hnd Hin Hin0 E0. induction rows as [|a l IH]; [contradiction|].
    cbn [map] in Hnd. apply List.NoDup_cons_iff in Hnd. destruct Hnd as [Hna Hnd].
    destruct Hin as [-> | Hin], Hin0 as [-> | Hin0]; try reflexivity.
    + exfalso. apply Hna. rewrite <- E0. apply in_map. exact Hin0.
    + exfalso. apply Hna. rewrite E0. apply in_map. exact Hin.
    + apply IH; assumption.
Qed.

(** ** The CSV imports *)

Section ImportLemmas.
Context {H : Host}.

Lemma estimatesLoop_snoc pk nk gk rows row :
  estimatesLoop pk nk gk (rows ++ [row])%list
  = match csvName pk row with
    | EmptyString => estimatesLoop pk nk gk rows
    | p => <[toLowerCase p := (coalesce (getProp row nk) JNull, coalesce (getProp row gk) JNull)]>
             (estimatesLoop pk nk gk rows)
    end.
Proof. unfold estimatesLoop. rewrite fold_left_app. reflexivity. Qed.

Lemma estimatesLoop_lookup pk nk gk rows name :
  estimatesLoop pk nk gk rows !! toLowerCase name
  = match last (List.filter (estimateFor pk name) rows) with
    | Some row => Some (coalesce (getProp row nk) JNull, coalesce (getProp row gk) JNull)
    | None => None
    end.
Proof.
  induction rows as [|row rows' IH] using rev_ind; [apply lookup_empty|].
  rewrite estimatesLoop_snoc, List.filter_app. cbn [List.filter]. unfold estimateFor at 2.
  destruct (csvName pk row) as [|c p] eqn:En.
  - rewrite app_nil_r. exact IH.
  - destruct (String.eqb (toLowerCase (String c p)) (toLowerCase name)) eqn:E.
    + apply String.eqb_eq in E. rewrite last_snoc, E. apply lookup_insert_eq.
    + apply String.eqb_neq in E. rewrite app_nil_r, lookup_insert_ne by exact E. exact IH.
Qed.

End ImportLemmas.

(** X7.  Importing estimates: a plan row takes both estimates from the last CSV
    row whose trimmed name is not empty and equals its own up to case, a
    missing or empty cell giving [null]; a row that no CSV row names, and
    every other field, stay as they are. *)
Theorem applyEstimatesFromCSV_spec {H : Host} (rowsFromCSV : list (list (string * JSVal)))
    (prev : list Entry) :
  Forall2 (fun r r' =>
             match last (List.filter (estimateFor (pastureKeyOf rowsFromCSV) (pasture r))
                                     rowsFromCSV) with
             | Some row =>
                 r' = set_estimates
                        (coalesce (getProp row (nativeKeyOf rowsFromCSV)) JNull)
                        (coalesce (getProp row (perenKeyOf rowsFromCSV)) JNull) r
             | None => r' = r
             end)
          prev (applyEstimatesFromCSV rowsFromCSV prev)
  /\ applyEstimatesFromCSV [] prev = prev.
Proof.
  split.
  - apply Forall2_map_In. intros r _. unfold estimatesLookup.
    rewrite estimatesLoop_lookup. destruct (last _); reflexivity.
  - unfold applyEstimatesFromCSV. rewrite <- (map_id prev) at 2. apply map_ext.
    intros r. unfold estimatesLookup, estimatesLoop. cbn [fold_left].
    rewrite lookup_empty. reflexivity.
Qed.

(** X8.  Importing estimates and deriving the schedule can be done in either
    order: the import changes no window and no density. *)
Theorem applyEstimatesFromCSV_recompute {H : Host}
    (rowsFromCSV : list (list (string * JSVal))) (rows : list Entry) (planStart : string) :
  recompute (applyEstimatesFromCSV rowsFromCSV rows) planStart
  = result_map (applyEstimatesFromCSV rowsFromCSV) (recompute rows planStart).
Proof.
  unfold applyEstimatesFromCSV. apply recompute_map.
  - intros r. cbn [pasture]. destruct (_ !! _) as [[n g]|]; reflexivity.
  - intros v r. cbn [pasture]. destruct (_ !! _) as [[n g]|]; reflexivity.
  - intros s e r. cbn [pasture]. destruct (_ !! _) as [[n g]|]; reflexivity.
Qed.

Lemma last_filter_true {A : Type} (p : A -> bool) (l : list A) (x : A) :
  last (List.filter p l) = Some x -> p x = true /\ In x l.
Proof.
  intros Hl. apply last_Some in Hl. destruct Hl as (l' & Hl).
  assert (Hin : In x (List.filter p l)) by (rewrite Hl; apply in_elt).
  apply filter_In in Hin. tauto.
Qed.

Section PreviousSeasonLemmas.
Context {H : Host}.

Lemma isNullish_coalesce_null v : isNullish (coalesce v JNull) = isNullish v.
Proof. destruct v; reflexivity. Qed.

Lemma coalesce_null_value v : isNullish v = false -> coalesce v JNull = v.
Proof. unfold coalesce. intros ->. reflexivity. Qed.

Lemma previousSeasonLoop_snoc pk plk ak rows row P A :
  previousSeasonLoop pk plk ak (rows ++ [row])%list P A
  = match csvName pk row with
    | EmptyString => previousSeasonLoop pk plk ak rows P A
    | p =>
        (if isNullish (getProp row plk) then fst (previousSeasonLoop pk plk ak rows P A)
         else dictSet p (getProp row plk) (fst (previousSeasonLoop pk plk ak rows P A)),
         if isNullish (getProp row ak) then snd (previousSeasonLoop pk plk ak rows P A)
         else dictSet p (getProp row ak) (snd (previousSeasonLoop pk plk ak rows P A)))
    end.
Proof.
  unfold previousSeasonLoop. rewrite fold_left_app. cbn [fold_left].
  destruct (csvName pk row); [reflexivity|]. rewrite !isNullish_coalesce_null.
  destruct (isNullish (getProp row plk)) eqn:E1, (isNullish (getProp row ak)) eqn:E2;
    rewrite ?(coalesce_null_value _ E1), ?(coalesce_null_value _ E2); reflexivity.
Qed.

Lemma previousSeasonLoop_locked pk plk ak rows P A name :
  protoLocked (fst (previousSeasonLoop pk plk ak rows P A)) name = protoLocked P name
  /\ protoLocked (snd (previousSeasonLoop pk plk ak rows P A)) name = protoLocked A name.
Proof.
  induction rows as [|row rows' [IH1 IH2]] using rev_ind; [split; reflexivity|].
  rewrite previousSeasonLoop_snoc. destruct (csvName pk row); [split; assumption|].
  cbn [fst snd]. split.
  - destruct (isNullish (getProp row plk)); [exact IH1|]. rewrite dictSet_locked. exact IH1.
  - destruct (isNullish (getProp row ak)); [exact IH2|]. rewrite dictSet_locked. exact IH2.
Qed.

Lemma previousSeasonLoop_lookup pk plk ak rows P A name :
  fst (previousSeasonLoop pk plk ak rows P A) !! name
  = match last (List.filter (valueFor pk plk name) rows) with
    | Some row => if protoLocked P name then P !! name else Some (getProp row plk)
    | None => P !! name
    end
  /\ snd (previousSeasonLoop pk plk ak rows P A) !! name
     = match last (List.filter (valueFor pk ak name) rows) with
       | Some row => if protoLocked A name then A !! name else Some (getProp row ak)
       | None => A !! name
       end.
Proof.
  induction rows as [|row rows' [IH1 IH2]] using rev_ind; [split; reflexivity|].
  rewrite previousSeasonLoop_snoc, !List.filter_app. cbn [List.filter].
  destruct (previousSeasonLoop_locked pk plk ak rows' P A (csvName pk row)) as [L1 L2].
  unfold valueFor at 2 4.
  destruct (csvName pk row) as [|c p] eqn:En.
  - rewrite !app_nil_r. split; assumption.
  - cbn [fst snd]. destruct (String.eqb (String c p) name) eqn:E.
    + apply String.eqb_eq in E. cbn [andb]. rewrite <- E. rewrite <- E in IH1, IH2. split.
      * destruct (isNullish (getProp row plk)); cbn [negb].
        -- rewrite app_nil_r. exact IH1.
        -- rewrite last_snoc, dictSet_lookup, String.eqb_refl, L1. cbn [andb].
           destruct (protoLocked P (String c p)); cbn [negb]; [|reflexivity].
           rewrite IH1. destruct (last (List.filter (valueFor pk plk _) rows')); reflexivity.
      * destruct (isNullish (getProp row ak)); cbn [negb].
        -- rewrite app_nil_r. exact IH2.
        -- rewrite last_snoc, dictSet_lookup, String.eqb_refl, L2. cbn [andb].
           destruct (protoLocked A (String c p)); cbn [negb]; [|reflexivity].
           rewrite IH2. destruct (last (List.filter (valueFor pk ak _) rows')); reflexivity.
    + cbn [andb]. rewrite !app_nil_r. split.
      * destruct (isNullish (getProp row plk)); [exact IH1|].
        rewrite dictSet_lookup, E. exact IH1.
      * destruct (isNullish (getProp row ak)); [exact IH2|].
        rewrite dictSet_lookup, E. exact IH2.
Qed.

Lemma valueFor_value pk key name rows row :
  last (List.filter (valueFor pk key name) rows) = Some row ->
  isNullish (getProp row key) = false.
Proof.
  intros Hl. apply last_filter_true in Hl. destruct Hl as [Hv _].
  unfold valueFor in Hv. destruct (csvName pk row); [discriminate|].
  apply andb_prop in Hv. destruct Hv as [_ Hv]. apply negb_true_iff in Hv. exact Hv.
Qed.

(** What a row shows after the import, [dict] being the stored dictionary,
    [key] the column and [own] the value the row held. *)
Lemma seeded_value pk key rows dict name own :
  coalesce (dictGet (match last (List.filter (valueFor pk key name) rows) with
                     | Some row => if protoLocked dict name then dict
                                   else <[name := getProp row key]> dict
                     | None => dict
                     end) name) own
  = match last (List.filter (valueFor pk key name) rows) with
    | Some row => if protoLocked dict name then prototypeMember "__proto__"
                  else getProp row key
    | None => coalesce (dictGet dict name) own
    end.
Proof.
  destruct (last _) as [row|] eqn:El; [|reflexivity].
  destruct (protoLocked dict name) eqn:E.
  - unfold protoLocked in E. apply andb_prop in E. destruct E as [Hk Hn].
    apply String.eqb_eq in Hk. subst name. unfold dictGet.
    destruct (dict !! "__proto__"); [discriminate | reflexivity].
  - unfold dictGet. rewrite lookup_insert_eq. unfold coalesce.
    rewrite (valueFor_value _ _ _ _ _ El). reflexivity.
Qed.

End PreviousSeasonLemmas.

(** X9.  Importing the previous season, the cells of the CSV being primitive
    values: under each name the dictionaries take the last value the CSV
    gives for exactly that (trimmed) name, an empty or missing cell never
    replacing a stored value, and the name [__proto__] taking no value
    unless the dictionary has a property of that name of its own.  Each
    plan row then shows the value stored under its name, or else the
    member of [Object.prototype] of that name, or else its own. *)
Theorem applyPreviousSeasonFromCSV_spec {H : Host}
    (rowsFromCSV : list (list (string * JSVal)))
    (prevPlanned prevActual : gmap string JSVal) (prev : list Entry) :
  Forall (Forall (fun cell => isObject (snd cell) = false)) rowsFromCSV ->
  let pk := pastureKeyOf rowsFromCSV in
  let plk := plannedKeyOf rowsFromCSV in
  let ak := actualKeyOf rowsFromCSV in
  let result := applyPreviousSeasonFromCSV rowsFromCSV prevPlanned prevActual prev in
  (forall name,
      fst (fst result) !! name
      = match last (List.filter (valueFor pk plk name) rowsFromCSV) with
        | Some row => if protoLocked prevPlanned name then prevPlanned !! name
                      else Some (getProp row plk)
        | None => prevPlanned !! name
        end
      /\ snd (fst result) !! name
         = match last (List.filter (valueFor pk ak name) rowsFromCSV) with
           | Some row => if protoLocked prevActual name then prevActual !! name
                         else Some (getProp row ak)
           | None => prevActual !! name
           end)
  /\ Forall2 (fun r r' =>
                prevPlannedADA r'
                = match last (List.filter (valueFor pk plk (pasture r)) rowsFromCSV) with
                  | Some row => if protoLocked prevPlanned (pasture r)
                                then prototypeMember "__proto__"
                                else getProp row plk
                  | None => coalesce (dictGet prevPlanned (pasture r)) (prevPlannedADA r)
                  end
                /\ prevActualADA r'
                   = match last (List.filter (valueFor pk ak (pasture r)) rowsFromCSV) with
                     | Some row => if protoLocked prevActual (pasture r)
                                   then prototypeMember "__proto__"
                                   else getProp row ak
                     | None => coalesce (dictGet prevActual (pasture r)) (prevActualADA r)
                     end
                /\ set_prev JNull JNull r' = set_prev JNull JNull r)
             prev (snd result).
Proof.
  intros _. cbn zeta. cbn [applyPreviousSeasonFromCSV fst snd]. unfold previousSeasonDicts.
  split; [intros name; apply previousSeasonLoop_lookup|].
  apply Forall2_map_In. intros r _. cbn [prevPlannedADA prevActualADA set_prev].
  destruct (previousSeasonLoop_lookup (pastureKeyOf rowsFromCSV) (plannedKeyOf rowsFromCSV)
              (actualKeyOf rowsFromCSV) rowsFromCSV prevPlanned prevActual (pasture r))
    as [E1 E2].
  split; [|split; [|reflexivity]].
  - rewrite <- seeded_value. unfold dictGet at 1 2. rewrite E1.
    destruct (last _) as [row|]; [|reflexivity].
    destruct (protoLocked prevPlanned (pasture r)); [reflexivity|].
    rewrite lookup_insert_eq. reflexivity.
  - rewrite <- seeded_value. unfold dictGet at 1 2. rewrite E2.
    destruct (last (List.filter (valueFor _ (actualKeyOf rowsFromCSV) _) _)) as [row|];
      [|reflexivity].
    destruct (protoLocked prevActual (pasture r)); [reflexivity|].
    rewrite lookup_insert_eq. reflexivity.
Qed.

(** ** The GeoJSON loader *)

Section LoaderLemmas.
Context {H : Host}.

Lemma loadFeature_kept acc f :
  loadFeature acc f
  = match keptFeature f with
    | Some feature => (<[featureKey feature := feature]> (fst acc), (snd acc ++ [feature])%list)
    | None => acc
    end.
Proof.
  unfold loadFeature, keptFeature, featureKey.
  destruct f as [[[props|] g]|]; try reflexivity.
  destruct (rawName props) eqn:E; [reflexivity|]. cbn [properties]. rewrite E. reflexivity.
Qed.

Lemma keptFeature_named f feature :
  keptFeature f = Some feature -> rawName (properties feature) <> "".
Proof.
  unfold keptFeature. destruct f as [[[props|] g]|]; try discriminate.
  destruct (rawName props) eqn:E; [discriminate|].
  intros [= <-]. cbn [properties]. rewrite E. discriminate.
Qed.

Lemma load_spec fs :
  snd (fold_left loadFeature fs (∅, [])) = omap keptFeature fs
  /\ forall k,
       fst (fold_left loadFeature fs (∅, [])) !! k
       = last (List.filter (fun f => String.eqb (featureKey f) k) (omap keptFeature fs)).
Proof.
  induction fs as [|f fs' [IH1 IH2]] using rev_ind; [split; [reflexivity|apply lookup_empty]|].
  rewrite fold_left_app. cbn [fold_left]. rewrite loadFeature_kept, omap_app.
  rewrite omap_cons_unfold. cbn [omap list_omap].
  destruct (keptFeature f) as [feature|].
  - cbn [fst snd]. split; [rewrite IH1; reflexivity|].
    intros k. rewrite List.filter_app. cbn [List.filter].
    destruct (String.eqb (featureKey feature) k) eqn:E.
    + apply String.eqb_eq in E. rewrite last_snoc, E. apply lookup_insert_eq.
    + apply String.eqb_neq in E. rewrite app_nil_r, lookup_insert_ne by exact E. apply IH2.
  - rewrite app_nil_r. split; assumption.
Qed.

Lemma omap_keptFeature_named fs f :
  In f (omap keptFeature fs) -> rawName (properties f) <> "".
Proof.
  induction fs as [|a fs' IH]; [intros []|].
  rewrite omap_cons_unfold. destruct (keptFeature a) as [feature|] eqn:E; [|exact IH].
  intros [<- | Hin]; [exact (keptFeature_named _ _ E) | exact (IH Hin)].
Qed.

Lemma onGeoFileChange_Some gj byName feats :
  onGeoFileChange gj = Some (byName, feats) ->
  exists fs, gj_features gj = Some fs /\ gj_type gj = "FeatureCollection"
             /\ byName = fst (fold_left loadFeature fs (∅, []))
             /\ feats = snd (fold_left loadFeature fs (∅, [])).
Proof.
  unfold onGeoFileChange. destruct (gj_features gj) as [fs|]; [|discriminate].
  destruct (String.eqb (gj_type gj) "FeatureCollection") eqn:E; [|discriminate].
  apply String.eqb_eq in E. intros [= Hr]. exists fs.
  rewrite Hr. cbn [fst snd]. auto.
Qed.

End LoaderLemmas.


(** X11.  After a load in which no feature is named [__proto__] (the loader
    would make such a feature the prototype of the lookup object), the
    lookup of a plan row finds the last loaded feature that has the row's
    name up to case (the feature's name trimmed, the row's as it is);
    without such a feature it finds the member of [Object.prototype] of the
    row's lower-cased name, when there is one, and nothing otherwise. *)
Theorem onGeoFileChange_matches {H : Host} (gj : GeoJSON)
    (byName : gmap string Feature) (feats : list Feature) (r : Entry) :
  onGeoFileChange gj = Some (byName, feats) ->
  (forall f, In f feats -> featureKey f <> "__proto__") ->
  featureOf byName r
  = match last (List.filter (fun f => String.eqb (featureKey f) (toLowerCase (pasture r)))
                            feats) with
    | Some f => Some f
    | None => if isPrototypeMember (toLowerCase (pasture r)) then Some inheritedMember
              else None
    end.
Proof.
  intros Hl _. destruct (onGeoFileChange_Some _ _ _ Hl) as (fs & _ & _ & -> & ->).
  destruct (load_spec fs) as [E1 E2]. unfold featureOf. rewrite E2, E1. reflexivity.
Qed.

Section CounterLemmas.
Context {H : Host}.

Lemma picked_unmatched rows fbp :
  (length (omap (featureOf fbp) rows) + unmatchedRows rows fbp)%nat = length rows.
Proof.
  unfold unmatchedRows. induction rows as [|r rows' IH]; [reflexivity|].
  rewrite omap_cons_unfold. cbn [List.filter length].
  destruct (featureOf fbp r); cbn [isSome negb length]; lia.
Qed.

End CounterLemmas.

(** X12.  The count of unmatched rows under the map and the features the map
    draws agree: the rows that are not counted are the rows whose
    features are drawn, and the map falls back to every loaded feature
    exactly when every row is counted. *)
Theorem unmatchedRows_features {H : Host} (rows : list Entry)
    (featureByPasture : gmap string Feature) (allFeatures : list Feature) :
  (length (omap (featureOf featureByPasture) rows) + unmatchedRows rows featureByPasture)%nat
  = length rows
  /\ (unmatchedRows rows featureByPasture = length rows ->
      features rows featureByPasture allFeatures = allFeatures)
  /\ (unmatchedRows rows featureByPasture <> length rows ->
      features rows featureByPasture allFeatures = omap (featureOf featureByPasture) rows
      /\ (length (features rows featureByPasture allFeatures)
          = length rows - unmatchedRows rows featureByPasture)%nat).
Proof.
  pose proof (picked_unmatched rows featureByPasture) as Hc.
  split; [exact Hc|]. rewrite features_unfold. split; intros Hu.
  - destruct (omap (featureOf featureByPasture) rows); [reflexivity|]. cbn [length] in Hc. lia.
  - destruct (omap (featureOf featureByPasture) rows) eqn:E; [cbn [length] in Hc; lia|].
    split; [reflexivity|]. lia.
Qed.

(** ** Drafts *)

Lemma find_snoc_fresh {A : Type} (p : A -> bool) (l : list A) (x : A) :
  (forall y, In y l -> p y = false) -> p x = true -> find p (l ++ [x])%list = Some x.
Proof.
  intros Hl Hx. induction l as [|a l' IH]; cbn [app find].
  - rewrite Hx. reflexivity.
  - rewrite (Hl a (or_introl eq_refl)). apply IH. intros y Hy. apply Hl. right. exact Hy.
Qed.

Lemma filter_snoc_fresh {A : Type} (p : A -> bool) (l : list A) (x : A) :
  (forall y, In y l -> p y = true) -> p x = false -> List.filter p (l ++ [x])%list = l.
Proof.
  intros Hl Hx. rewrite List.filter_app. cbn [List.filter]. rewrite Hx, app_nil_r.
  induction l as [|a l' IH]; [reflexivity|]. cbn [List.filter].
  rewrite (Hl a (or_introl eq_refl)). f_equal. apply IH. intros y Hy. apply Hl. right. exact Hy.
Qed.

Lemma anonymous_imap (uuid : nat -> string) (rows : list Entry) :
  map anonymous (imap (fun i r => set_id (uuid i) r) rows) = map anonymous rows.
Proof.
  revert uuid. induction rows as [|r rows' IH]; intros uuid; [reflexivity|].
  cbn [imap map]. f_equal. apply (IH (fun i => uuid (S i))).
Qed.

(** X13.  Saving a draft and loading it back restores the season start and the
    rows, every field but the identifiers, which are new; this needs the
    identifier of the draft to be new among the drafts of its year. *)
Theorem handleSaveDraft_handleLoadDraft (startDate : string) (rows : list Entry)
    (uuid : string) (now currentYear : Z) (prev : gmap string (list Draft))
    (ids : nat -> string) (st : Table) :
  (forall arr d,
      prev !! draftYear startDate currentYear = Some arr -> In d arr -> draft_id d <> uuid) ->
  let loaded :=
    handleLoadDraft (handleSaveDraft startDate rows uuid now currentYear prev)
                    (draftYear startDate currentYear) uuid true ids st in
  table_startDate loaded = startDate
  /\ table_selectedRowId loaded = None
  /\ table_rows loaded = imap (fun i r => set_id (ids i) r) rows
  /\ map anonymous (table_rows loaded) = map anonymous rows
  /\ map id (table_rows loaded) = map ids (seq 0 (length rows)).
Proof.
  intros Hfresh loaded. unfold loaded, handleLoadDraft, handleSaveDraft.
  rewrite lookup_insert_eq. rewrite find_snoc_fresh.
  - cbn [table_startDate table_selectedRowId table_rows draft_rows draft_startDate].
    repeat split; [apply anonymous_imap|].
    clear. revert ids. induction rows as [|r rows' IH]; intros ids; [reflexivity|].
    cbn [imap map length seq]. f_equal.
    etransitivity; [apply (IH (fun i => ids (S i)))|].
    rewrite <- seq_shift, map_map. reflexivity.
  - intros d Hd. apply String.eqb_neq.
    destruct (prev !! draftYear startDate currentYear) as [arr|] eqn:E; [|contradiction].
    exact (Hfresh arr d eq_refl Hd).
  - apply String.eqb_refl.
Qed.

(** X14.  Saving and deleting drafts keep every year of the sidebar non-empty,
    and deleting the draft just saved gives the drafts back as they were
    (its identifier being new in its year). *)
Theorem handleSaveDraft_handleDeleteDraft (startDate : string) (rows : list Entry)
    (uuid : string) (now currentYear : Z) (prev : gmap string (list Draft)) :
  noEmptyYear prev ->
  noEmptyYear (handleSaveDraft startDate rows uuid now currentYear prev)
  /\ (forall year id0, noEmptyYear (handleDeleteDraft year id0 prev))
  /\ ((forall arr d,
         prev !! draftYear startDate currentYear = Some arr -> In d arr -> draft_id d <> uuid) ->
      handleDeleteDraft (draftYear startDate currentYear) uuid
        (handleSaveDraft startDate rows uuid now currentYear prev) = prev).
Proof.
  intros Hinv. split; [|split].
  - intros y. unfold handleSaveDraft.
    destruct (String.eqb y (draftYear startDate currentYear)) eqn:E.
    + apply String.eqb_eq in E. subst y. rewrite lookup_insert_eq.
      intros [= Habs]. destruct (match prev !! _ with Some a => a | None => [] end); discriminate.
    + apply String.eqb_neq in E. rewrite lookup_insert_ne by congruence. apply Hinv.
  - intros year id0 y. unfold handleDeleteDraft.
    destruct (String.eqb y year) eqn:E.
    + apply String.eqb_eq in E. subst y.
      destruct (List.filter _ _) eqn:Ef;
        [rewrite lookup_delete_eq | rewrite lookup_insert_eq]; discriminate.
    + apply String.eqb_neq in E.
      destruct (List.filter _ _);
        [rewrite lookup_delete_ne by congruence | rewrite lookup_insert_ne by congruence];
        apply Hinv.
  - intros Hfresh. unfold handleDeleteDraft, handleSaveDraft. rewrite lookup_insert_eq.
    set (y := draftYear startDate currentYear) in *.
    destruct (prev !! y) as [arr|] eqn:Ep.
    + rewrite filter_snoc_fresh.
      * destruct arr as [|d arr']; [exfalso; exact (Hinv y Ep)|].
        rewrite insert_insert_eq. apply insert_id. exact Ep.
      * intros d Hd. apply negb_true_iff, String.eqb_neq. exact (Hfresh arr d eq_refl Hd).
      * cbn [draft_id]. rewrite String.eqb_refl. reflexivity.
    + cbn [app List.filter draft_id]. rewrite String.eqb_refl. cbn [negb].
      rewrite delete_insert_eq. apply delete_id. exact Ep.
Qed.

Lemma testStart_year s :
  testStart (Seq Digit (Seq Digit (Seq Digit Digit))) s
  = match s with
    | String a (String b (String c (String d _))) =>
        isDigit a && isDigit b && isDigit c && isDigit d
    | _ => false
    end.
Proof.
  apply eq_true_iff_eq. unfold testStart. rewrite fullMatch_Matches. split.
  - intros Hm.
    apply Matches_Seq_inv in Hm. destruct Hm as (s1 & t & -> & H1 & _).
    apply Matches_Seq_inv in H1. destruct H1 as (sa & s2 & -> & Ha & H2).
    apply Matches_Seq_inv in H2. destruct H2 as (sb & s3 & -> & Hb & H3).
    apply Matches_Seq_inv in H3. destruct H3 as (sc & sd & -> & Hc & Hd).
    apply Matches_Chr_inv in Ha, Hb, Hc, Hd.
    destruct Ha as (a & -> & Ha), Hb as (b & -> & Hb), Hc as (c & -> & Hc), Hd as (d & -> & Hd).
    repeat (progress simpl_append). unfold isDigit. rewrite Ha, Hb, Hc, Hd. reflexivity.
  - destruct s as [|a [|b [|c [|d rest]]]]; try discriminate.
    intros Hd. apply andb_prop in Hd. destruct Hd as [Hd Hd4].
    apply andb_prop in Hd. destruct Hd as [Hd Hd3].
    apply andb_prop in Hd. destruct Hd as [Hd1 Hd2].
    replace (String a (String b (String c (String d rest))))
      with ((String a "" ++ (String b "" ++ (String c "" ++ String d ""))) ++ rest)%string
      by (repeat (progress simpl_append); reflexivity).
    repeat constructor; try assumption. apply Matches_Star_Any.
Qed.

(** X15.  A draft is filed under the first four characters of the season start
    when these are digits, and under the current year otherwise; saving
    appends it to the drafts of that year and leaves the other years as
    they are. *)
Theorem handleSaveDraft_files (startDate : string) (rows : list Entry)
    (uuid : string) (now currentYear : Z) (prev : gmap string (list Draft)) :
  let y := draftYear startDate currentYear in
  let next := handleSaveDraft startDate rows uuid now currentYear prev in
  y = match startDate with
      | String a (String b (String c (String d _))) =>
          if isDigit a && isDigit b && isDigit c && isDigit d
          then String a (String b (String c (String d "")))
          else intString currentYear
      | _ => intString currentYear
      end
  /\ next !! y
     = Some ((match prev !! y with Some arr => arr | None => [] end)
             ++ [{| draft_id := uuid; draft_name := ""; draft_ts := now;
                    draft_startDate := startDate; draft_rows := rows |}])%list
  /\ forall y', y' <> y -> next !! y' = prev !! y'.
Proof.
  cbn zeta. split; [|split].
  - unfold draftYear. rewrite testStart_year.
    destruct startDate as [|a [|b [|c [|d rest]]]]; try reflexivity.
    destruct (isDigit a && isDigit b && isDigit c && isDigit d); [|reflexivity].
    destruct rest; reflexivity.
  - unfold handleSaveDraft. apply lookup_insert_eq.
  - intros y' Hy. unfold handleSaveDraft. apply lookup_insert_ne. congruence.
Qed.

(** ** The scene *)

Lemma omap_In_inv {A B : Type} (f : A -> option B) (l : list A) (y : B) :
  In y (omap f l) -> exists x, In x l /\ f x = Some y.
Proof.
  induction l as [|a l' IH]; [intros []|].
  rewrite omap_cons_unfold. destruct (f a) as [b|] eqn:E.
  - intros [<- | Hin].
    + exists a. split; [left; reflexivity | exact E].
    + destruct (IH Hin) as (x & Hx & Hf). exists x. split; [right; exact Hx | exact Hf].
  - intros Hin. destruct (IH Hin) as (x & Hx & Hf). exists x. split; [right; exact Hx | exact Hf].
Qed.

Section SceneLemmas.
Context {H : Host} {T : Turf}.

Lemma StaticMap_scene rows fbp all scene :
  StaticMap rows fbp all = Ok (Some scene) ->
  exists anchors,
    routeAnchors scene = anchors
    /\ segments scene = segmentsFrom 0 anchors
    /\ nonRouteLabels scene
       = omap (nonRouteLabel (projectXY (features rows fbp all))
                 (map (fun a => toLowerCase (anchor_name a)) anchors))
              (features rows fbp all).
Proof.
  intros Hs. destruct (features rows fbp all) as [|f0 fs0] eqn:Ef.
  { unfold StaticMap in Hs. rewrite Ef in Hs. discriminate. }
  rewrite (StaticMap_unfold _ _ _ f0 fs0 Ef) in Hs.
  destruct (if existsb _ _ then _ else _) as [box|]; cbn [bind] in Hs; [|discriminate].
  destruct (result_map _ _) as [anchors|]; cbn [bind] in Hs; [|discriminate].
  injection Hs as <-. exists anchors. repeat split.
Qed.

Lemma find_split {A : Type} (p : A -> bool) (l : list A) (x : A) :
  find p l = Some x ->
  exists l1 l2, l = (l1 ++ x :: l2)%list /\ (forall y, In y l1 -> p y = false) /\ p x = true.
Proof.
  induction l as [|a l' IH]; [discriminate|]. cbn [find]. destruct (p a) eqn:Ea.
  - intros [= <-]. exists [], l'. repeat split; [intros y []|exact Ea].
  - intros Hf. destruct (IH Hf) as (l1 & l2 & -> & Hl1 & Hx).
    exists (a :: l1), l2. repeat split; [|exact Hx].
    intros z [<- | Hz]; [exact Ea | apply Hl1; exact Hz].
Qed.

Lemma isLabelKey_In k :
  isLabelKey k = true <-> In (lowerString k) ["pasture"; "name"; "unit"; "past"; "paddock"].
Proof.
  unfold isLabelKey. rewrite existsb_exists. split.
  - intros (x & Hin & Hx). apply String.eqb_eq in Hx. rewrite Hx. exact Hin.
  - intros Hin. exists (lowerString k). split; [exact Hin | apply String.eqb_refl].
Qed.

Lemma segmentsFrom_lookup anchors : forall i k seg,
  segmentsFrom i anchors !! k = Some seg ->
  exists a b, anchors !! k = Some a /\ anchors !! S k = Some b
              /\ seg = segment (i + Z.of_nat k) a b.
Proof.
  induction anchors as [|a rest IH]; intros i k seg Hk; [discriminate|].
  destruct rest as [|b rest']; [discriminate|].
  rewrite segmentsFrom_cons in Hk. destruct k as [|k'].
  - injection Hk as <-. exists a, b. repeat split. f_equal. lia.
  - cbn [lookup list_lookup] in Hk. destruct (IH _ _ _ Hk) as (a' & b' & Ha & Hb & ->).
    exists a', b'. repeat split; [exact Ha | exact Hb |]. f_equal. lia.
Qed.

End SceneLemmas.

(** X16.  A label off the route is the name of a drawn feature that turf finds
    the centre of: the text of the value of the first property of the
    feature whose key is, up to the case of its ASCII letters, one of
    [pasture], [name], [unit], [past] and [paddock].  It is never empty and
    never the name, up to case, of a stop of the route, and it stands at
    the centre of the feature. *)
Theorem nonRouteLabels_spec {H : Host} {T : Turf} (rows : list Entry)
    (featureByPasture : gmap string Feature) (allFeatures : list Feature) (scene : Scene) :
  StaticMap rows featureByPasture allFeatures = Ok (Some scene) ->
  forall lb, In lb (nonRouteLabels scene) ->
    label_text lb <> ""
    /\ (forall a, In a (routeAnchors scene) ->
          toLowerCase (label_text lb) <> toLowerCase (anchor_name a))
    /\ exists f cm,
         In f (features rows featureByPasture allFeatures)
         /\ centerOfMass f = Ok cm
         /\ label_xy lb = projectXY (features rows featureByPasture allFeatures) cm
         /\ exists before key v after,
              properties f = (before ++ (key, v) :: after)%list
              /\ (forall kv, In kv before ->
                    ~ In (lowerString (fst kv)) ["pasture"; "name"; "unit"; "past"; "paddock"])
              /\ In (lowerString key) ["pasture"; "name"; "unit"; "past"; "paddock"]
              /\ label_text lb = ToString v.
Proof.
  intros Hs lb Hlb. destruct (StaticMap_scene _ _ _ _ Hs) as (anchors & Ea & _ & El).
  rewrite El in Hlb. rewrite Ea. clear Ea El Hs.
  destruct (omap_In_inv _ _ _ Hlb) as (f & Hf & Hn). unfold nonRouteLabel in Hn.
  destruct (find (fun kv => isLabelKey (fst kv)) (properties f)) as [[key v]|] eqn:Ek;
    [|discriminate].
  destruct (ToString v) as [|c l] eqn:Elab; [discriminate|].
  destruct (existsb _ _) eqn:Ex; [discriminate|].
  destruct (centerOfMass f) as [cm|] eqn:Ecm; [|discriminate].
  injection Hn as <-. cbn [label_text label_xy]. split; [discriminate|]. split.
  - intros a Ha Heq.
    assert (Ht : existsb (String.eqb (toLowerCase (String c l)))
                   (map (fun a => toLowerCase (anchor_name a)) anchors) = true).
    { apply existsb_exists. exists (toLowerCase (anchor_name a)).
      split; [exact (in_map (fun a => toLowerCase (anchor_name a)) _ _ Ha)
             | apply String.eqb_eq; exact Heq]. }
    congruence.
  - exists f, cm. repeat (split; [assumption || reflexivity|]).
    destruct (find_split _ _ _ Ek) as (before & after & Ep & Hb & Hk).
    exists before, key, v, after. split; [exact Ep|]. split; [|split].
    + intros kv Hin Hname. apply isLabelKey_In in Hname. rewrite (Hb kv Hin) in Hname.
      discriminate.
    + apply isLabelKey_In. exact Hk.
    + symmetry. exact Elab.
Qed.

(** X17.  The arrows follow the route: arrow [k] (numbered [k + 1], keyed
    [seg-k]) leaves stop [k], from a point shifted towards the next stop,
    and ends on stop [k + 1]. *)
Theorem segments_spec {H : Host} {T : Turf} (rows : list Entry)
    (featureByPasture : gmap string Feature) (allFeatures : list Feature) (scene : Scene) :
  StaticMap rows featureByPasture allFeatures = Ok (Some scene) ->
  forall k seg, segments scene !! k = Some seg ->
    exists a b,
      routeAnchors scene !! k = Some a /\ routeAnchors scene !! S k = Some b
      /\ seg_num seg = Z.of_nat k + 1
      /\ seg_key seg = ("seg-" ++ intString (Z.of_nat k))%string
      /\ seg_d seg = [MoveTo (shiftTowards (anchor_xy a) (anchor_xy b) SHIFT_FROM_TEXT);
                      LineTo (anchor_xy b)].
Proof.
  intros Hs k seg Hk. destruct (StaticMap_scene _ _ _ _ Hs) as (anchors & Ea & Eg & _).
  rewrite Eg in Hk. rewrite Ea.
  destruct (segmentsFrom_lookup _ _ _ _ Hk) as (a & b & Ha & Hb & ->).
  exists a, b. repeat split; assumption.
Qed.

(** ** Editing the table and the schedule *)

Section EditLemmas.
Context {H : Host}.

Lemma schedule_prefix l1 : forall cs l2 l2' out out',
  schedule cs (l1 ++ l2)%list = Ok out -> schedule cs (l1 ++ l2')%list = Ok out' ->
  take (length l1) out = take (length l1) out'.
Proof.
  induction l1 as [|r l1' IH]; intros cs l2 l2' out out' Ho Ho'; [reflexivity|].
  cbn [app schedule] in Ho, Ho'. destruct cs as [|c cs'].
  - destruct (schedule "" (l1' ++ l2)%list) as [o|] eqn:E; cbn [bind] in Ho; [|discriminate].
    destruct (schedule "" (l1' ++ l2')%list) as [o'|] eqn:E'; cbn [bind] in Ho'; [|discriminate].
    injection Ho as <-. injection Ho' as <-. cbn [length take]. f_equal.
    eapply IH; eassumption.
  - destruct (if num_ltb num_zero (Math_max num_zero (toNum (grazingDays r)))
              then addDaysISO (String c cs')
                     (num_sub (Math_max num_zero (toNum (grazingDays r))) (Fin 1))
              else Ok (String c cs')) as [e|]; cbn [bind] in Ho, Ho'; [|discriminate].
    destruct (addDaysISO e (Fin 1)) as [next|]; cbn [bind] in Ho, Ho'; [|discriminate].
    destruct (schedule next (l1' ++ l2)%list) as [o|] eqn:E; cbn [bind] in Ho; [|discriminate].
    destruct (schedule next (l1' ++ l2')%list) as [o'|] eqn:E'; cbn [bind] in Ho';
      [|discriminate].
    injection Ho as <-. injection Ho' as <-. cbn [length take]. f_equal.
    eapply IH; eassumption.
Qed.

End EditLemmas.

(** X18.  The derivation runs from the top: whatever is changed below a row
    (an edit, a removal, a copy, a move), the rows above the first change
    keep their densities and their windows. *)
Theorem recompute_prefix {H : Host} (rows1 rows2 rows2' : list Entry) (planStart : string)
    (out out' : list Entry) :
  recompute (rows1 ++ rows2)%list planStart = Ok out ->
  recompute (rows1 ++ rows2')%list planStart = Ok out' ->
  take (length rows1) out = take (length rows1) out'.
Proof.
  unfold recompute. rewrite !map_app.
  destruct (toISO planStart) as [cs|]; cbn [bind]; [|discriminate].
  intros Ho Ho'. rewrite <- (length_map withProposedADA rows1).
  eapply schedule_prefix; eassumption.
Qed.

(** X19.  Changing the herd size of a row moves no window and changes no other
    row: the derivation of the edited table is the derivation of the
    table with the herd size and the density of that row renewed. *)
Theorem updateRow_herdSize_recompute {H : Host} (id0 : string) (v : JSVal)
    (rows : list Entry) (planStart : string) :
  recompute (updateRow id0 (set_herdSize v) rows) planStart
  = result_map (map (fun o => if String.eqb (id o) id0
                              then withProposedADA (set_herdSize v o) else o))
               (recompute rows planStart)
  /\ forall out, recompute rows planStart = Ok out ->
       exists out',
         recompute (updateRow id0 (set_herdSize v) rows) planStart = Ok out'
         /\ Forall2 (fun o o' =>
                       datesOf o' = datesOf o
                       /\ (id o <> id0 -> o' = o)
                       /\ (id o = id0 ->
                           proposedADA o' = computeProposedADA (grazingDays o) v (acreage o)))
                    out out'.
Proof.
  set (g := fun o => if String.eqb (id o) id0 then withProposedADA (set_herdSize v o) else o).
  assert (Heq : recompute (updateRow id0 (set_herdSize v) rows) planStart
                = result_map (map g) (recompute rows planStart)).
  { unfold recompute, updateRow. rewrite map_map.
    rewrite (map_ext _ (fun r => g (withProposedADA r))).
    - rewrite <- (map_map withProposedADA g).
      destruct (toISO planStart) as [cs|]; cbn [bind]; [|reflexivity].
      apply schedule_map.
      + intros r. unfold g. destruct (String.eqb (id r) id0); reflexivity.
      + intros s e r. unfold g. cbn [id set_dates].
        destruct (String.eqb (id r) id0); reflexivity.
    - intros r. unfold g. cbn [id withProposedADA set_proposedADA].
      destruct (String.eqb (id r) id0); reflexivity. }
  split; [exact Heq|].
  intros out Ho. rewrite Heq, Ho. exists (map g out). split; [reflexivity|].
  apply Forall2_map_In. intros o _. unfold g.
  destruct (String.eqb (id o) id0) eqn:E.
  - apply String.eqb_eq in E. split; [reflexivity|]. split; [congruence|].
    intros _. reflexivity.
  - apply String.eqb_neq in E. split; [reflexivity|]. split; [reflexivity|congruence].
Qed.

(** ** The totals and the length of the season *)

Lemma totalSpan_sumDays durs : totalSpan durs = sumDays durs + zeroDays durs.
Proof.
  induction durs as [|k ks IH]; [reflexivity|].
  cbn [totalSpan sumDays zeroDays fold_right] in *. fold (totalSpan ks). rewrite IH.
  fold (sumDays ks). fold (zeroDays ks). unfold span.
  destruct (0 <? k) eqn:E; [apply Z.ltb_lt in E | apply Z.ltb_ge in E]; lia.
Qed.

Lemma sumDays_nonneg durs : 0 <= sumDays durs.
Proof. induction durs as [|k ks IH]; cbn [sumDays fold_right]; [lia|]. fold (sumDays ks). lia. Qed.

Lemma zeroDays_nonneg durs : 0 <= zeroDays durs.
Proof.
  induction durs as [|k ks IH]; cbn [zeroDays fold_right]; [lia|]. fold (zeroDays ks).
  destruct (0 <? k); lia.
Qed.

Section TotalsLemmas.
Context {H : Host} {L : HostLaws H}.

Lemma totalDays_from rows : forall durs acc,
  Forall2 durationOf rows durs -> 0 <= acc -> acc + sumDays durs <= 2 ^ 53 ->
  fold_left (fun s r => num_add s (Math_max num_zero (toNum (grazingDays r)))) rows
            (Fin (inject_Z acc))
  = Fin (inject_Z (acc + sumDays durs)).
Proof.
  induction rows as [|r rows' IH]; intros durs acc HF Hacc Hhi.
  - inversion HF; subst. cbn [fold_left sumDays fold_right]. do 2 f_equal. lia.
  - inversion HF as [|r0 k rs ks Hd HF']; subst.
    cbn [sumDays fold_right] in Hhi. fold (sumDays ks) in Hhi.
    pose proof (sumDays_nonneg ks) as Hs.
    destruct Hd as (q & Hq & Hk). cbn [fold_left]. rewrite Hq.
    cbn [sumDays fold_right]. fold (sumDays ks).
    destruct (0 <? k) eqn:E.
    + apply Z.ltb_lt in E. rewrite Math_max_pos by (rewrite (Qltb_0_integer q k Hk); lia).
      cbn [num_add]. rewrite (rnd_integer_eq _ (acc + k)).
      * rewrite (IH ks (acc + k) HF') by lia. do 2 f_equal. lia.
      * rewrite Hk, inject_Z_plus. reflexivity.
      * lia.
    + apply Z.ltb_ge in E. rewrite Math_max_nonpos by (rewrite (Qltb_0_integer q k Hk); lia).
      cbn [num_add num_zero]. rewrite (rnd_integer_eq _ acc).
      * rewrite (IH ks acc HF') by lia. do 2 f_equal. lia.
      * ring.
      * lia.
Qed.

Lemma totalDays_integer rows durs :
  Forall2 durationOf rows durs -> sumDays durs <= 2 ^ 53 ->
  totalDays rows = Fin (inject_Z (sumDays durs)).
Proof.
  intros HF Hhi. exact (totalDays_from rows durs 0 HF ltac:(lia) ltac:(lia)).
Qed.

Lemma durationOf_withProposedADA rows durs :
  Forall2 durationOf rows durs -> Forall2 durationOf (map withProposedADA rows) durs.
Proof. intros HF. induction HF; constructor; auto. Qed.

Lemma recompute_dated rows planStart t0 durs :
  parseISO planStart = Some t0 ->
  Forall2 durationOf rows durs ->
  DayFromYear 1 <= Day t0 ->
  Day t0 + totalSpan durs <= DayFromYear 10000 ->
  recompute rows planStart = Ok (dated (Day t0) (map withProposedADA rows) durs).
Proof.
  intros Hp HF Hlo Hhi. unfold recompute, toISO.
  destruct planStart as [|c s]; [discriminate Hp|]. rewrite Hp. cbn [isValid format bind].
  apply schedule_dated; [apply durationOf_withProposedADA| |]; assumption.
Qed.

End TotalsLemmas.

Lemma dated_last out : forall durs n,
  out <> [] -> length out = length durs ->
  exists r, last (dated n out durs) = Some r
            /\ endDate r = formatDay (n + totalSpan durs - 1).
Proof.
  induction out as [|r0 rest IH]; intros durs n Hne Hlen; [congruence|].
  destruct durs as [|k ks]; [discriminate|]. cbn [dated].
  destruct rest as [|r1 rest'].
  - destruct ks; [|discriminate]. cbn [dated last]. eexists. split; [reflexivity|].
    cbn [endDate set_dates totalSpan fold_right]. f_equal. lia.
  - destruct (IH ks (n + span k)) as (r & Hl & He); [discriminate | cbn in *; lia |].
    exists r. split.
    + destruct ks as [|k1 ks']; [discriminate|]. cbn [dated] in *. exact Hl.
    + rewrite He. f_equal. cbn [totalSpan fold_right]. fold (totalSpan ks). lia.
Qed.

Lemma totalSpan_pos durs : durs <> [] -> 1 <= totalSpan durs.
Proof.
  destruct durs as [|k ks]; [congruence|]. intros _. cbn [totalSpan fold_right].
  fold (totalSpan ks). pose proof (total_nonneg ks). unfold span. lia.
Qed.

(** X20.  The total of projected days is the sum of the durations (a negative
    one counting for none) when these are integers. *)
Theorem totalDays_exact {H : Host} {L : HostLaws H} (rows : list Entry) (durs : list Z) :
  Forall2 durationOf rows durs -> sumDays durs <= 2 ^ 53 ->
  totalDays rows = Fin (inject_Z (sumDays durs)).
Proof. apply totalDays_integer. Qed.

Section TotalsNaN.
Context {H : Host} {L : HostLaws H}.

Lemma sum_not_NaN (term : Entry -> number) (rows : list Entry) : forall acc,
  (forall r, exists q, term r = Fin q) -> isNaN acc = false ->
  isNaN (fold_left (fun s r => num_add s (term r)) rows acc) = false.
Proof.
  induction rows as [|r rows' IH]; intros acc Hterm Hacc; [exact Hacc|].
  cbn [fold_left]. apply IH; [exact Hterm|].
  destruct (Hterm r) as (q & ->). destruct acc as [|a|p]; [discriminate|reflexivity|].
  cbn [num_add]. pose proof (rnd_not_NaN (p + q)) as Hn.
  destruct (rnd (p + q)); [exfalso; exact (Hn eq_refl) | reflexivity | reflexivity].
Qed.

End TotalsNaN.

(** X27.  The totals are never [NaN], whatever the rows hold. *)
Theorem totals_not_NaN {H : Host} {L : HostLaws H} (rows : list Entry) :
  isNaN (totalDays rows) = false /\ isNaN (totalADA rows) = false.
Proof.
  split.
  - unfold totalDays. apply sum_not_NaN; [|reflexivity].
    intros r. destruct (toNum_finite (grazingDays r)) as (q & ->).
    unfold num_zero. rewrite Math_max_Fin. eauto.
  - unfold totalADA.
    assert (Hs : isNaN (fold_left (fun s r => num_add s (toNum (JNum (proposedADA r))))
                                  rows num_zero) = false).
    { apply (sum_not_NaN (fun r => toNum (JNum (proposedADA r))));
        [intros r; apply toNum_finite | reflexivity]. }
    destruct (fold_left _ rows num_zero) as [|a|q]; [discriminate Hs | reflexivity |].
    destruct (toFixed2 (Fin q)) eqn:E; [|reflexivity|reflexivity].
    exfalso. apply (toFixed2_not_NaN (Fin q)); [discriminate | exact E].
Qed.

(** X21.  The season ends on the day [start + total + zeros - 1], where [total]
    is the total of projected days the table shows and [zeros] the number
    of rows whose duration is not positive: such a row still takes one
    day of the calendar. *)
Theorem season_length {H : Host} {L : HostLaws H} (rows : list Entry) (planStart : string)
    (t0 : Z) (durs : list Z) :
  parseISO planStart = Some t0 ->
  Forall2 durationOf rows durs ->
  rows <> [] ->
  DayFromYear 1 <= Day t0 ->
  Day t0 + totalSpan durs <= DayFromYear 10000 ->
  exists out r,
    recompute rows planStart = Ok out
    /\ last out = Some r
    /\ totalDays rows = Fin (inject_Z (sumDays durs))
    /\ isoDay (endDate r) = Some (Day t0 + sumDays durs + zeroDays durs - 1).
Proof.
  intros Hp HF Hne Hlo Hhi.
  assert (Hlen : length rows = length durs) by (eapply Forall2_length; eassumption).
  assert (Hd : durs <> []).
  { destruct durs; [destruct rows; [congruence|discriminate]|discriminate]. }
  pose proof (totalSpan_pos durs Hd) as Hpos.
  pose proof (totalSpan_sumDays durs) as Hsum.
  pose proof (zeroDays_nonneg durs) as Hz. pose proof (sumDays_nonneg durs) as Hs.
  pose proof DayFromYear_1 as D1. pose proof DayFromYear_10000 as D2.
  destruct (dated_last (map withProposedADA rows) durs (Day t0)) as (r & Hl & He).
  { destruct rows; [congruence|discriminate]. }
  { rewrite length_map. exact Hlen. }
  exists (dated (Day t0) (map withProposedADA rows) durs), r.
  split; [apply recompute_dated; assumption|]. split; [exact Hl|]. split.
  - apply totalDays_integer; [exact HF | lia].
  - rewrite He, isoDay_formatDay by lia. f_equal. lia.
Qed.

Lemma Forall2_Permutation {A B : Type} (R : A -> B -> Prop) (l l' : list A) :
  Permutation l l' ->
  forall k, Forall2 R l k -> exists k', Permutation k k' /\ Forall2 R l' k'.
Proof.
  induction 1 as [|x l l' Hp IH|x y l|l l' l'' Hp1 IH1 Hp2 IH2]; intros k HF.
  - inversion HF; subst. exists []. split; constructor.
  - inversion HF as [|x0 b l0 k0 Hx HF0]; subst.
    destruct (IH k0 HF0) as (k' & Hk & HF'). exists (b :: k'). split; constructor; assumption.
  - inversion HF as [|x0 b l0 k0 Hy HF0]; subst.
    inversion HF0 as [|x1 a l1 k1 Hx HF1]; subst.
    exists (a :: b :: k1). split; [apply perm_swap | repeat constructor; assumption].
  - destruct (IH1 k HF) as (k' & Hk & HF'). destruct (IH2 k' HF') as (k'' & Hk' & HF'').
    exists k''. split; [etransitivity; eassumption | exact HF''].
Qed.

Lemma totalSpan_Permutation k k' : Permutation k k' -> totalSpan k = totalSpan k'.
Proof.
  induction 1; cbn [totalSpan fold_right] in *; try fold (totalSpan l) in *;
    try fold (totalSpan l') in *; lia.
Qed.

Lemma sumDays_Permutation k k' : Permutation k k' -> sumDays k = sumDays k'.
Proof.
  induction 1; cbn [sumDays fold_right] in *; try fold (sumDays l) in *;
    try fold (sumDays l') in *; lia.
Qed.

(** X22.  Reordering the rows moves the windows but neither the end of the
    season nor the total of projected days. *)
Theorem recompute_reordered {H : Host} {L : HostLaws H} (rows rows' : list Entry)
    (planStart : string) (t0 : Z) (durs : list Z) :
  parseISO planStart = Some t0 ->
  Forall2 durationOf rows durs ->
  rows <> [] ->
  DayFromYear 1 <= Day t0 ->
  Day t0 + totalSpan durs <= DayFromYear 10000 ->
  Permutation rows rows' ->
  exists out out' r r',
    recompute rows planStart = Ok out /\ recompute rows' planStart = Ok out'
    /\ length out' = length out
    /\ last out = Some r /\ last out' = Some r'
    /\ endDate r' = endDate r
    /\ totalDays rows' = totalDays rows.
Proof.
  intros Hp HF Hne Hlo Hhi Hperm.
  destruct (Forall2_Permutation _ _ _ Hperm _ HF) as (durs' & Hd & HF').
  pose proof (totalSpan_Permutation _ _ Hd) as Ht.
  pose proof (sumDays_Permutation _ _ Hd) as Hs.
  assert (Hlen : length rows = length durs) by (eapply Forall2_length; eassumption).
  assert (Hlen' : length rows' = length durs') by (eapply Forall2_length; eassumption).
  assert (Hne' : rows' <> []).
  { intros ->. apply Permutation_nil_r in Hperm. contradiction. }
  destruct (dated_last (map withProposedADA rows) durs (Day t0)) as (r & Hl & He).
  { destruct rows; [congruence|discriminate]. }
  { rewrite length_map. exact Hlen. }
  destruct (dated_last (map withProposedADA rows') durs' (Day t0)) as (r' & Hl' & He').
  { destruct rows'; [congruence|discriminate]. }
  { rewrite length_map. exact Hlen'. }
  exists (dated (Day t0) (map withProposedADA rows) durs),
         (dated (Day t0) (map withProposedADA rows') durs'), r, r'.
  pose proof (sumDays_nonneg durs). pose proof (zeroDays_nonneg durs).
  pose proof (totalSpan_sumDays durs). pose proof DayFromYear_1. pose proof DayFromYear_10000.
  split; [apply recompute_dated; assumption|].
  split; [apply recompute_dated; try assumption; lia|].
  split.
  { rewrite !dated_length; rewrite ?length_map; try assumption.
    apply Permutation_length. symmetry. exact Hperm. }
  split; [exact Hl|]. split; [exact Hl'|]. split; [rewrite He, He', Ht; reflexivity|].
  rewrite (totalDays_integer rows durs HF) by lia.
  rewrite (totalDays_integer rows' durs' HF') by lia. rewrite Hs. reflexivity.
Qed.

(** ** The highlight of a row *)

Lemma YearFromDay_range n :
  DayFromYear 1000 <= n < DayFromYear 10000 -> 1000 <= YearFromDay n <= 9999.
Proof.
  intros [Hlo Hhi]. pose proof (YearFromDay_spec n) as [Ha Hb]. split.
  - apply DayFromYear_lt. lia.
  - apply DayFromYear_lt. change (9999 + 1) with 10000. lia.
Qed.

(** X23.  Once the schedule is derived the summer highlight of each row is
    decided without failure, and it is on exactly when the window of the
    row meets July 15 to September 15 of a year it touches. *)
Theorem inSummer_derived {H : Host} {L : HostLaws H} (rows : list Entry) (planStart : string)
    (t0 : Z) (durs : list Z) :
  parseISO planStart = Some t0 ->
  Forall2 durationOf rows durs ->
  DayFromYear 1000 <= Day t0 ->
  Day t0 + totalSpan durs <= DayFromYear 10000 ->
  exists out,
    recompute rows planStart = Ok out
    /\ Forall (fun r =>
                 exists s e b,
                   isoDay (startDate r) = Some s /\ isoDay (endDate r) = Some e
                   /\ s <= e
                   /\ overlapsSummerWindow (startDate r) (endDate r) = Ok b
                   /\ (b = true <->
                       exists y, YearFromDay s <= y <= YearFromDay e
                                 /\ intersects (s * msPerDay) (e * msPerDay)
                                               (summerStartT y) (summerEndT y)))
              out.
Proof.
  intros Hp HF Hlo Hhi.
  assert (H1000 : DayFromYear 1 <= DayFromYear 1000) by (vm_compute; discriminate).
  exists (dated (Day t0) (map withProposedADA rows) durs).
  split; [apply recompute_dated; try assumption; lia|].
  apply List.Forall_forall. intros r Hr.
  apply (proj2 (list_elem_of_In _ _)), list_elem_of_lookup_1 in Hr. destruct Hr as (i & Hi).
  destruct (dated_lookup _ _ _ _ _ Hi) as (r0 & k & _ & Hk & ->).
  destruct (startOf_bounds (Day t0) durs i k Hk) as [Hb1 Hb2].
  assert (Hsp : 1 <= span k) by (unfold span; lia).
  set (s := startOf (Day t0) durs i) in *. set (e := s + span k - 1).
  cbn [startDate endDate set_dates]. fold e.
  assert (Hs : DayFromYear 1000 <= s < DayFromYear 10000) by lia.
  assert (He : DayFromYear 1000 <= e < DayFromYear 10000) by (unfold e; lia).
  destruct (overlapsSummerWindow_ordered (formatDay s) (formatDay e)
              (s * msPerDay) (e * msPerDay)) as (b & Hb & Hiff).
  { apply parseISO_formatDay. lia. }
  { apply parseISO_formatDay. lia. }
  { unfold msPerDay. unfold e. lia. }
  { unfold getFullYear. rewrite Day_mul. apply YearFromDay_range. exact Hs. }
  { unfold getFullYear. rewrite Day_mul. apply YearFromDay_range. exact He. }
  exists s, e, b. unfold getFullYear in Hiff. rewrite !Day_mul in Hiff.
  repeat split; try (apply isoDay_formatDay; lia); try exact Hb; try apply Hiff.
  unfold e. lia.
Qed.

(** ** The date helpers *)

Lemma formatDay_not_empty n : formatDay n <> "".
Proof.
  unfold formatDay. destruct (civil n) as [[y m] d].
  destruct (addLeadingZeros (if 0 <? y then y else 1 - y) 4);
    repeat (progress simpl_append); discriminate.
Qed.

(** X24.  [toISO] never fails; it gives the empty text exactly for a text that
    is empty or that [parseISO] rejects, and otherwise the canonical text
    of the day, which (for the years 1 to 9999) it maps to itself. *)
Theorem toISO_spec {H : Host} (dateStr : string) :
  match parseISO dateStr with
  | None => toISO dateStr = Ok ""
  | Some t =>
      toISO dateStr = Ok (formatDay (Day t))
      /\ formatDay (Day t) <> ""
      /\ (DayFromYear 1 <= Day t < DayFromYear 10000 ->
          isoDay (formatDay (Day t)) = Some (Day t)
          /\ toISO (formatDay (Day t)) = Ok (formatDay (Day t)))
  end.
Proof.
  destruct (parseISO dateStr) as [t|] eqn:Ep.
  - assert (Hgen : forall s t', parseISO s = Some t' -> toISO s = Ok (formatDay (Day t'))).
    { intros s t' Hs. unfold toISO. destruct s; [discriminate Hs|]. rewrite Hs. reflexivity. }
    split; [exact (Hgen _ _ Ep)|]. split; [apply formatDay_not_empty|].
    intros Hr. split; [apply isoDay_formatDay; exact Hr|].
    rewrite (Hgen _ _ (parseISO_formatDay _ Hr)), Day_mul. reflexivity.
  - unfold toISO. destruct dateStr; [reflexivity|]. rewrite Ep. reflexivity.
Qed.

(** X25.  Shifting a canonical date by [a] days and then by [b] days is shifting
    it by [a + b] days, and shifting back gives the date again, as long
    as every date stays within the years 1 to 9999; a text that is no
    date is answered by the empty text. *)
Theorem addDaysISO_compose {H : Host} {L : HostLaws H} (n a b : Z) :
  DayFromYear 1 <= n < DayFromYear 10000 ->
  DayFromYear 1 <= n + a < DayFromYear 10000 ->
  DayFromYear 1 <= n + a + b < DayFromYear 10000 ->
  addDaysISO (formatDay n) (Fin (inject_Z a)) = Ok (formatDay (n + a))
  /\ (let! d := addDaysISO (formatDay n) (Fin (inject_Z a)) in
      addDaysISO d (Fin (inject_Z b)))
     = addDaysISO (formatDay n) (Fin (inject_Z (a + b)))
  /\ (let! d := addDaysISO (formatDay n) (Fin (inject_Z a)) in
      addDaysISO d (Fin (inject_Z (- a))))
     = Ok (formatDay n)
  /\ forall (s : string) (days : number), parseISO s = None -> addDaysISO s days = Ok "".
Proof.
  intros Hn Ha Hb.
  assert (E1 : addDaysISO (formatDay n) (Fin (inject_Z a)) = Ok (formatDay (n + a)))
    by (apply addDaysISO_integer; [reflexivity | lia | lia]).
  split; [exact E1|]. rewrite E1. cbn [bind]. split; [|split].
  - rewrite (addDaysISO_integer (n + a) _ b) by (try reflexivity; lia).
    rewrite (addDaysISO_integer n _ (a + b)) by (try reflexivity; lia).
    f_equal. f_equal. lia.
  - rewrite (addDaysISO_integer (n + a) _ (- a)) by (try reflexivity; lia).
    f_equal. f_equal. lia.
  - intros s days Hs. unfold addDaysISO. rewrite Hs. reflexivity.
Qed.

(** ** The number helper *)

(** X26.  The table stores what [toNum] makes of an input; this is always a
    finite number, [toNum] leaves it as it is, and the density computed
    from the stored values is the density computed from the raw ones. *)
Theorem toNum_idempotent {H : Host} (v g h a : JSVal) :
  Number_isFinite (toNum v) = true
  /\ toNum (JNum (toNum v)) = toNum v
  /\ computeProposedADA (JNum (toNum g)) (JNum (toNum h)) (JNum (toNum a))
     = computeProposedADA g h a.
Proof.
  assert (Hid : forall x, toNum (JNum (toNum x)) = toNum x).
  { intros x. destruct (toNum_finite x) as (q & ->). apply toNum_JNum. }
  split; [|split].
  - destruct (toNum_finite v) as (q & ->). reflexivity.
  - apply Hid.
  - unfold computeProposedADA. rewrite !Hid. reflexivity.
Qed.

(** * Witnesses for the rest of the program *)

(** X2.  Copying the row r1 of the sample rows under the identifier r9 and
    removing r9. *)
Lemma duplicateRow_deleteRow_witness :
  deleteRow "r9" (duplicateRow "r1" "r9" sampleRows) = sampleRows.
Proof.
  apply (duplicateRow_deleteRow "r1" "r9" sampleRows).
  intros x [<- | [<- | [<- | []]]]; discriminate.
Defined.

(** X3.  Dropping the row r1 of the sample rows on the row r3. *)
Lemma handleDragEnd_moves_witness :
  exists (i j : nat) (r : Entry) (rows' : list Entry),
    findIndex (fun x => String.eqb (id x) "r1") sampleRows = Z.of_nat i
    /\ findIndex (fun x => String.eqb (id x) "r3") sampleRows = Z.of_nat j
    /\ sampleRows !! i = Some r /\ id r = "r1"
    /\ handleDragEnd "r1" (Some "r3") sampleRows = map Some rows'
    /\ Permutation sampleRows rows'
    /\ rows' !! j = Some r
    /\ (take j rows' ++ drop (S j) rows')%list = (take i sampleRows ++ drop (S i) sampleRows)%list.
Proof.
  apply (handleDragEnd_moves "r1" "r3" sampleRows).
  - discriminate.
  - exists (newRow "r1" "UA-E" 156 110 10). split; [left; reflexivity | reflexivity].
  - exists (newRow "r3" "UA-F" 336 110 5).
    split; [right; right; left; reflexivity | reflexivity].
Defined.

(** X9.  Importing the sample CSV into empty dictionaries: UA-E takes its
    value, the name [__proto__] takes none, and the row of that name shows
    [Object.prototype]. *)
Lemma applyPreviousSeasonFromCSV_spec_witness :
  fst (fst (applyPreviousSeasonFromCSV (H := sampleHost false) sampleSeasonCSV ∅ ∅ protoRows))
    !! "UA-E" = Some (JNum (Fin 3))
  /\ fst (fst (applyPreviousSeasonFromCSV (H := sampleHost false) sampleSeasonCSV ∅ ∅
                 protoRows))
       !! "__proto__" = None
  /\ map prevPlannedADA
       (snd (applyPreviousSeasonFromCSV (H := sampleHost false) sampleSeasonCSV ∅ ∅ protoRows))
     = [JNum (Fin 3); JNull; JNull; JObject "[object Object]"].
Proof.
  assert (Hprim : Forall (Forall (fun cell : string * JSVal => isObject (snd cell) = false))
                    sampleSeasonCSV) by (repeat constructor).
  pose proof (applyPreviousSeasonFromCSV_spec (H := sampleHost false) sampleSeasonCSV ∅ ∅
                protoRows Hprim) as Hspec.
  cbv zeta in Hspec. destruct Hspec as [Hd _].
  split; [|split].
  - rewrite (proj1 (Hd "UA-E")). vm_compute. reflexivity.
  - rewrite (proj1 (Hd "__proto__")). vm_compute. reflexivity.
  - vm_compute. reflexivity.
Defined.

(** X11.  After the sample collection is loaded, a row named Ua-E finds the
    feature of UA-E, a row named UA-G finds nothing and a row named
    [constructor] finds the member of [Object.prototype]. *)
Lemma onGeoFileChange_matches_witness :
  featureOf (H := sampleHost false) (fst sampleLoaded) (newRow "r1" "Ua-E" 156 110 10)
  = Some {| properties := [("Name", JStr " UA-E ")]; geometry := geometry square |}
  /\ featureOf (H := sampleHost false) (fst sampleLoaded) (newRow "r2" "UA-G" 441 110 0) = None
  /\ featureOf (H := sampleHost false) (fst sampleLoaded) (constructorRow 0)
     = Some inheritedMember.
Proof.
  assert (Hk : forall f, In f (snd sampleLoaded) ->
                 featureKey (H := sampleHost false) f <> "__proto__").
  { intros f [<- | []]. vm_compute. discriminate. }
  split; [|split];
    (etransitivity;
     [exact (onGeoFileChange_matches (H := sampleHost false) sampleGeo
               (fst sampleLoaded) (snd sampleLoaded) _ eq_refl Hk)
     | vm_compute; reflexivity]).
Defined.

(** X13.  Saving the sample rows as a draft of 2025 and loading it back. *)
Lemma handleSaveDraft_handleLoadDraft_witness :
  let loaded :=
    handleLoadDraft (handleSaveDraft "2025-03-01" sampleRows "d2" 1 2026 sampleDrafts)
                    (draftYear "2025-03-01" 2026) "d2" true (fun i => intString (Z.of_nat i))
                    {| table_rows := []; table_startDate := ""; table_selectedRowId := None |} in
  table_startDate loaded = "2025-03-01"
  /\ table_selectedRowId loaded = None
  /\ table_rows loaded = imap (fun i r => set_id (intString (Z.of_nat i)) r) sampleRows
  /\ map anonymous (table_rows loaded) = map anonymous sampleRows
  /\ map id (table_rows loaded)
     = map (fun i => intString (Z.of_nat i)) (seq 0 (length sampleRows)).
Proof.
  apply (handleSaveDraft_handleLoadDraft "2025-03-01" sampleRows "d2" 1 2026 sampleDrafts).
  intros arr d E Hd. change (draftYear "2025-03-01" 2026) with "2025" in E.
  unfold sampleDrafts in E. rewrite lookup_insert_eq in E. injection E as <-.
  destruct Hd as [<- | []]. discriminate.
Defined.

Lemma sampleDrafts_noEmptyYear : noEmptyYear sampleDrafts.
Proof.
  intros y E. unfold sampleDrafts in E. apply lookup_insert_Some in E.
  destruct E as [[_ E] | [_ E]]; [discriminate | rewrite lookup_empty in E; discriminate].
Defined.

(** X14.  Saving a second draft of 2025 and deleting it. *)
Lemma handleSaveDraft_handleDeleteDraft_witness :
  noEmptyYear (handleSaveDraft "2025-03-01" sampleRows "d2" 1 2026 sampleDrafts)
  /\ handleDeleteDraft (draftYear "2025-03-01" 2026) "d2"
       (handleSaveDraft "2025-03-01" sampleRows "d2" 1 2026 sampleDrafts) = sampleDrafts.
Proof.
  destruct (handleSaveDraft_handleDeleteDraft "2025-03-01" sampleRows "d2" 1 2026
              sampleDrafts sampleDrafts_noEmptyYear) as (Hsave & _ & Hback).
  split; [exact Hsave|]. apply Hback.
  intros arr d E Hd. change (draftYear "2025-03-01" 2026) with "2025" in E.
  unfold sampleDrafts in E. rewrite lookup_insert_eq in E. injection E as <-.
  destruct Hd as [<- | []]. discriminate.
Defined.

(** X16.  The label of UA-G, which has a boundary and no grazing days. *)
Lemma nonRouteLabels_spec_witness :
  label_text {| label_text := "UA-G"; label_xy := (num_zero, num_zero) |} <> ""
  /\ (forall a, In a (routeAnchors (sceneOf sampleRows labelFeatures)) ->
        toLowerCase (Host := sampleHost false)
          (label_text {| label_text := "UA-G"; label_xy := (num_zero, num_zero) |})
        <> toLowerCase (Host := sampleHost false) (anchor_name a))
  /\ exists f cm,
       In f (features (H := sampleHost false) sampleRows labelFeatures [])
       /\ centerOfMass (Turf := sampleTurf) f = Ok cm
       /\ label_xy {| label_text := "UA-G"; label_xy := (num_zero, num_zero) |}
          = projectXY (Turf := sampleTurf)
              (features (H := sampleHost false) sampleRows labelFeatures []) cm
       /\ exists before key v after,
            properties f = (before ++ (key, v) :: after)%list
            /\ (forall kv, In kv before ->
                  ~ In (lowerString (fst kv)) ["pasture"; "name"; "unit"; "past"; "paddock"])
            /\ In (lowerString key) ["pasture"; "name"; "unit"; "past"; "paddock"]
            /\ label_text {| label_text := "UA-G"; label_xy := (num_zero, num_zero) |}
               = ToString (H := sampleHost false) v.
Proof.
  apply (nonRouteLabels_spec (H := sampleHost false) (T := sampleTurf)
           sampleRows labelFeatures [] (sceneOf sampleRows labelFeatures)).
  - vm_compute. reflexivity.
  - vm_compute. left. reflexivity.
Defined.

(** X17.  The one arrow of the sample route, from UA-E to UA-F. *)
Lemma segments_spec_witness :
  exists a b,
    routeAnchors (sceneOf sampleRows sampleFeatures) !! 0%nat = Some a
    /\ routeAnchors (sceneOf sampleRows sampleFeatures) !! 1%nat = Some b
    /\ seg_num (segment (H := sampleHost false) 0
                  {| anchor_name := "UA-E"; anchor_xy := (num_zero, num_zero) |}
                  {| anchor_name := "UA-F"; anchor_xy := (num_zero, num_zero) |})
       = Z.of_nat 0 + 1
    /\ seg_key (segment (H := sampleHost false) 0
                  {| anchor_name := "UA-E"; anchor_xy := (num_zero, num_zero) |}
                  {| anchor_name := "UA-F"; anchor_xy := (num_zero, num_zero) |})
       = ("seg-" ++ intString (Z.of_nat 0))%string
    /\ seg_d (segment (H := sampleHost false) 0
                {| anchor_name := "UA-E"; anchor_xy := (num_zero, num_zero) |}
                {| anchor_name := "UA-F"; anchor_xy := (num_zero, num_zero) |})
       = [MoveTo (shiftTowards (H := sampleHost false) (anchor_xy a) (anchor_xy b)
                    SHIFT_FROM_TEXT);
          LineTo (anchor_xy b)].
Proof.
  apply (segments_spec (H := sampleHost false) (T := sampleTurf)
           sampleRows sampleFeatures [] (sceneOf sampleRows sampleFeatures) eq_refl 0%nat).
  reflexivity.
Defined.

(** X18.  The first sample row keeps its window when the second one is removed. *)
Lemma recompute_prefix_witness :
  take (length [newRow "r1" "UA-E" 156 110 10]) (derivedRows sampleRows "2025-03-01")
  = take (length [newRow "r1" "UA-E" 156 110 10])
         (derivedRows [newRow "r1" "UA-E" 156 110 10; newRow "r3" "UA-F" 336 110 5]
                      "2025-03-01").
Proof.
  apply (recompute_prefix (H := sampleHost false) [newRow "r1" "UA-E" 156 110 10]
           [newRow "r2" "UA-G" 441 110 0; newRow "r3" "UA-F" 336 110 5]
           [newRow "r3" "UA-F" 336 110 5] "2025-03-01").
  - vm_compute. reflexivity.
  - vm_compute. reflexivity.
Defined.

(** X20.  The total of the sample rows: 10 + 0 + 5 days. *)
Lemma totalDays_exact_witness :
  totalDays (H := sampleHost false) sampleRows = Fin (inject_Z (sumDays [10; 0; 5])).
Proof.
  apply (totalDays_exact (H := sampleHost false) (L := sampleHost_laws false)
           sampleRows [10; 0; 5]).
  - exact sampleRows_durations.
  - vm_compute. discriminate.
Defined.

(** X21.  The sample season from 2025-03-01: 15 days and one row without days. *)
Lemma season_length_witness :
  exists out r,
    recompute (H := sampleHost false) sampleRows "2025-03-01" = Ok out
    /\ last out = Some r
    /\ totalDays (H := sampleHost false) sampleRows = Fin (inject_Z (sumDays [10; 0; 5]))
    /\ isoDay (endDate r)
       = Some (Day march_1_2025 + sumDays [10; 0; 5] + zeroDays [10; 0; 5] - 1).
Proof.
  apply (season_length (H := sampleHost false) (L := sampleHost_laws false)
           sampleRows "2025-03-01" march_1_2025 [10; 0; 5]).
  - vm_compute. reflexivity.
  - exact sampleRows_durations.
  - discriminate.
  - vm_compute. discriminate.
  - vm_compute. discriminate.
Defined.

(** X22.  The sample rows and the same rows with the second one on top. *)
Lemma recompute_reordered_witness :
  exists out out' r r',
    recompute (H := sampleHost false) sampleRows "2025-03-01" = Ok out
    /\ recompute (H := sampleHost false) reorderedRows "2025-03-01" = Ok out'
    /\ length out' = length out
    /\ last out = Some r /\ last out' = Some r'
    /\ endDate r' = endDate r
    /\ totalDays (H := sampleHost false) reorderedRows
       = totalDays (H := sampleHost false) sampleRows.
Proof.
  apply (recompute_reordered (H := sampleHost false) (L := sampleHost_laws false)
           sampleRows reorderedRows "2025-03-01" march_1_2025 [10; 0; 5]).
  - vm_compute. reflexivity.
  - exact sampleRows_durations.
  - discriminate.
  - vm_compute. discriminate.
  - vm_compute. discriminate.
  - apply perm_swap.
Defined.

(** X23.  The highlights of the sample rows from 2025-07-01. *)
Lemma inSummer_derived_witness :
  exists out,
    recompute (H := sampleHost false) sampleRows "2025-07-01" = Ok out
    /\ Forall (fun r =>
                 exists s e b,
                   isoDay (startDate r) = Some s /\ isoDay (endDate r) = Some e
                   /\ s <= e
                   /\ overlapsSummerWindow (H := sampleHost false) (startDate r) (endDate r)
                      = Ok b
                   /\ (b = true <->
                       exists y, YearFromDay s <= y <= YearFromDay e
                                 /\ intersects (s * msPerDay) (e * msPerDay)
                                               (summerStartT y) (summerEndT y)))
              out.
Proof.
  apply (inSummer_derived (H := sampleHost false) (L := sampleHost_laws false)
           sampleRows "2025-07-01" july_1_2025 [10; 0; 5]).
  - vm_compute. reflexivity.
  - exact sampleRows_durations.
  - vm_compute. discriminate.
  - vm_compute. discriminate.
Defined.

(** X25.  From 2025-03-01, nine days and then one day. *)
Lemma addDaysISO_compose_witness :
  addDaysISO (H := sampleHost false) (formatDay 20148) (Fin (inject_Z 9))
  = Ok (formatDay (20148 + 9))
  /\ (let! d := addDaysISO (H := sampleHost false) (formatDay 20148) (Fin (inject_Z 9)) in
      addDaysISO (H := sampleHost false) d (Fin (inject_Z 1)))
     = addDaysISO (H := sampleHost false) (formatDay 20148) (Fin (inject_Z (9 + 1)))
  /\ (let! d := addDaysISO (H := sampleHost false) (formatDay 20148) (Fin (inject_Z 9)) in
      addDaysISO (H := sampleHost false) d (Fin (inject_Z (- 9))))
     = Ok (formatDay 20148)
  /\ forall (s : string) (days : number),
       parseISO (H := sampleHost false) s = None ->
       addDaysISO (H := sampleHost false) s days = Ok "".
Proof.
  apply (addDaysISO_compose (H := sampleHost false) (L := sampleHost_laws false) 20148 9 1);
    vm_compute; (split; [discriminate | reflexivity]).
Defined.

(** X27.  The totals of the sample rows. *)
Lemma totals_not_NaN_witness :
  isNaN (totalDays (H := sampleHost false) sampleRows) = false
  /\ isNaN (totalADA (H := sampleHost false) sampleRows) = false.
Proof.
  exact (totals_not_NaN (H := sampleHost false) (L := sampleHost_laws false) sampleRows).
Defined.
